(** * Tilemap and physics core of the platformer (play.py, editor.py)

    A shallow embedding of the [Tilemap] class and of [PhysicsEntity.update],
    followed by the properties of the specification that concern them.

    Modelling conventions.
    - Python numbers that may be floats (entity positions, velocities, the
      positions of off-grid tiles) are exact rationals [Q]; the rounding of
      binary floating point is outside the model.  Python [int]s are [Z].
    - A Python [dict] is an insertion-ordered association list ([PyDict]).
    - The position of a tile is a pair of numbers.  The stores of the game
      come out of [json.load], which makes every position a list; the store
      of the editor ([EditorTilemap]) also holds tuples and keeps the two
      apart.
    - A raised exception is the [Raise] case of [result].
    - [pygame.Rect] is a record of four integers with pygame's edge
      accessors; coordinates are assumed to stay within the C [int] range
      pygame stores them in.
    - The image, sound and animation objects are collaborators and are not
      part of the model; [PhysicsEntity.update] is embedded up to (and not
      including) its final call [self.animation.update()]. *)

From Stdlib Require Import ZArith QArith Qround String List Bool Lia Lqa DecimalString.
From Stdlib Require Ascii DecimalFacts DecimalZ.
Import ListNotations.

Open Scope Z_scope.

(** ** Exceptions *)

Inductive exn : Type :=
| ZeroDivisionError
| KeyError
| ValueError
| FileNotFoundError
| TypeError
| AttributeError.

Inductive result (A : Type) : Type :=
| Ok (a : A)
| Raise (e : exn).

Arguments Ok {A} a.
Arguments Raise {A} e.

Definition bind {A B : Type} (c : result A) (k : A -> result B) : result B :=
  match c with
  | Ok a => k a
  | Raise e => Raise e
  end.

Declare Scope result_scope.
Delimit Scope result_scope with result.
Notation "x <- c ;; k" := (bind c (fun x => k))
  (at level 61, c at next level, right associativity) : result_scope.
Notation "' pat <- c ;; k" := (bind c (fun x => match x with pat => k end))
  (at level 61, pat pattern, c at next level, right associativity) : result_scope.
Open Scope result_scope.

(** A [for] loop whose body may raise: the state is threaded through the
    elements from left to right and the first exception aborts the loop. *)
Fixpoint for_each {A S : Type} (l : list A) (body : S -> A -> result S) (s : S)
  : result S :=
  match l with
  | [] => Ok s
  | a :: l' => s' <- body s a ;; for_each l' body s'
  end.

(** ** Python numerics *)

(** [int(a // b)] for a number [a] and an integer [b]: floor division. *)
Definition floordiv (a : Q) (b : Z) : result Z :=
  if b =? 0 then Raise ZeroDivisionError
  else Ok (Qfloor (a / inject_Z b)%Q).

(** Conversion of a number to a C [int] as pygame does for the arguments of
    [pygame.Rect]: truncation toward zero. *)
Definition to_int (a : Q) : Z := Z.quot (Qnum a) (Zpos (Qden a)).

(** [str(n)] for an integer. *)
Definition str (n : Z) : string := NilZero.string_of_int (Z.to_int n).

Definition Qltb (a b : Q) : bool :=
  match (a ?= b)%Q with
  | Lt => true
  | _ => false
  end.

(** [min(a, b)] of Python: [b] when [b < a], else [a]. *)
Definition py_min (a b : Q) : Q := if Qltb b a then b else a.

(** ** Insertion-ordered dictionaries with string keys *)

Module PyDict.
Section Dict.
Context {V : Type}.

Definition t : Type := list (string * V).

Fixpoint get (k : string) (d : t) : option V :=
  match d with
  | [] => None
  | (k', v) :: d' => if String.eqb k k' then Some v else get k d'
  end.

(** [k in d] *)
Definition contains (k : string) (d : t) : bool :=
  match get k d with
  | Some _ => true
  | None => false
  end.

(** [d[k]] *)
Definition getitem (k : string) (d : t) : result V :=
  match get k d with
  | Some v => Ok v
  | None => Raise KeyError
  end.

(** [d[k] = v]: overwrites in place, or appends a new key. *)
Fixpoint set (k : string) (v : V) (d : t) : t :=
  match d with
  | [] => [(k, v)]
  | (k', v') :: d' =>
      if String.eqb k k' then (k', v) :: d' else (k', v') :: set k v d'
  end.

(** [del d[k]] *)
Fixpoint del (k : string) (d : t) : result t :=
  match d with
  | [] => Raise KeyError
  | (k', v') :: d' =>
      if String.eqb k k' then Ok d'
      else d'' <- del k d' ;; Ok ((k', v') :: d'')
  end.

Definition keys (d : t) : list string := map fst d.
Definition values (d : t) : list V := map snd d.

(** A Python dict holds each key once. *)
Definition wf (d : t) : Prop := NoDup (keys d).
End Dict.
Arguments t : clear implicits.
End PyDict.

(** ** pygame.Rect *)

Module Rect.
Record t : Type := mk { x : Z; y : Z; w : Z; h : Z }.

Definition left (r : t) : Z := x r.
Definition top (r : t) : Z := y r.
Definition right (r : t) : Z := x r + w r.
Definition bottom (r : t) : Z := y r + h r.

Definition set_left (r : t) (v : Z) : t := mk v (y r) (w r) (h r).
Definition set_top (r : t) (v : Z) : t := mk (x r) v (w r) (h r).
Definition set_right (r : t) (v : Z) : t := mk (v - w r) (y r) (w r) (h r).
Definition set_bottom (r : t) (v : Z) : t := mk (x r) (v - h r) (w r) (h r).

(** [a.colliderect(b)] as in pygame 2: rectangles of zero width or height
    collide with nothing; touching edges do not overlap. *)
Definition colliderect (a b : t) : bool :=
  if (w a =? 0) || (h a =? 0) || (w b =? 0) || (h b =? 0) then false
  else (Z.min (x a) (x a + w a) <? Z.max (x b) (x b + w b))
    && (Z.min (y a) (y a + h a) <? Z.max (y b) (y b + h b))
    && (Z.max (x a) (x a + w a) >? Z.min (x b) (x b + w b))
    && (Z.max (y a) (y a + h a) >? Z.min (y b) (y b + h b)).
End Rect.

(** ** Tiles and constants *)

(** A tile [{'type': .., 'variant': .., 'pos': [.., ..]}].  Grid tiles carry
    integer grid coordinates ([Tile Z]); off-grid tiles and the tiles handed
    out by [extract] carry pixel coordinates ([Tile Q]). *)
Record Tile (C : Type) : Type := mkTile {
  type : string;
  variant : Z;
  pos : C * C
}.

Arguments mkTile {C} type variant pos.
Arguments type {C} t.
Arguments variant {C} t.
Arguments pos {C} t.

Definition set_variant {C : Type} (tile : Tile C) (v : Z) : Tile C :=
  mkTile (type tile) v (pos tile).

(** Lexicographic order on pairs, the order of Python tuples. *)
Definition tuple_ltb (a b : Z * Z) : bool :=
  (fst a <? fst b) || ((fst a =? fst b) && (snd a <? snd b)).

Definition tuple_eqb (a b : Z * Z) : bool :=
  (fst a =? fst b) && (snd a =? snd b).

Fixpoint insert_sorted (a : Z * Z) (l : list (Z * Z)) : list (Z * Z) :=
  match l with
  | [] => [a]
  | b :: l' => if tuple_ltb b a then b :: insert_sorted a l' else a :: l
  end.

(** [tuple(sorted(l))] *)
Definition sorted (l : list (Z * Z)) : list (Z * Z) :=
  fold_right insert_sorted [] l.

Fixpoint tuples_eqb (a b : list (Z * Z)) : bool :=
  match a, b with
  | [], [] => true
  | p :: a', q :: b' => tuple_eqb p q && tuples_eqb a' b'
  | _, _ => false
  end.

Definition AUTOTILE_MAP : list (list (Z * Z) * Z) :=
  [ (sorted [(1, 0); (0, 1)], 0);
    (sorted [(1, 0); (0, 1); (-1, 0)], 1);
    (sorted [(-1, 0); (0, 1)], 2);
    (sorted [(-1, 0); (0, -1); (0, 1)], 3);
    (sorted [(-1, 0); (0, -1)], 4);
    (sorted [(-1, 0); (0, -1); (1, 0)], 5);
    (sorted [(1, 0); (0, -1)], 6);
    (sorted [(1, 0); (0, -1); (0, 1)], 7);
    (sorted [(1, 0); (0, 1); (-1, 0); (0, -1)], 8) ].

Definition NEIGHBOUR_OFFSETS : list (Z * Z) :=
  [(1, 1); (1, 0); (1, -1); (0, 1); (0, 0); (0, -1); (-1, 1); (-1, 0); (-1, -1)].

Definition PHYSICS_TILES : list string := ["grass"%string; "stone"%string].
Definition AUTOTILE_TYPES : list string := ["grass"%string; "stone"%string].

(** [s in S] for a set of strings. *)
Definition in_set (s : string) (S : list string) : bool :=
  existsb (String.eqb s) S.

(** [AUTOTILE_MAP.get(k)] *)
Fixpoint autotile_lookup (k : list (Z * Z)) (m : list (list (Z * Z) * Z))
  : option Z :=
  match m with
  | [] => None
  | (k', v) :: m' => if tuples_eqb k k' then Some v else autotile_lookup k m'
  end.

(** The grid key [f"{gx};{gy}"]. *)
Definition loc_key (gx gy : Z) : string :=
  (str gx ++ ";" ++ str gy)%string.

(** ** JSON documents and the file system

    [json.dump] and [json.load] are taken at the level of the document tree:
    the text between them is the library's concern.  A file system maps a
    path to the document stored there. *)

#[warnings="-register-all"] Inductive json : Type :=
| JInt (n : Z)
| JFloat (q : Q)
| JString (s : string)
| JArray (items : list json)
| JObject (members : list (string * json)).

Definition filesystem : Type := string -> option json.

(** [open(path, 'r')] followed by [json.load]. *)
Definition read_json (path : string) (fs : filesystem) : result json :=
  match fs path with
  | Some doc => Ok doc
  | None => Raise FileNotFoundError
  end.

(** [open(path, 'w')] followed by [json.dump]. *)
Definition write_json (path : string) (doc : json) (fs : filesystem)
  : filesystem :=
  fun p => if String.eqb p path then Some doc else fs p.

(** [doc[k]] on a loaded document. *)
Definition member (k : string) (doc : json) : result json :=
  match doc with
  | JObject members => PyDict.getitem k members
  | _ => Raise TypeError
  end.

Definition as_int (doc : json) : result Z :=
  match doc with
  | JInt n => Ok n
  | _ => Raise TypeError
  end.

Definition as_number (doc : json) : result Q :=
  match doc with
  | JInt n => Ok (inject_Z n)
  | JFloat q => Ok q
  | _ => Raise TypeError
  end.

Definition as_string (doc : json) : result string :=
  match doc with
  | JString s => Ok s
  | _ => Raise TypeError
  end.

Definition as_pair {C : Type} (coord : json -> result C) (doc : json)
  : result (C * C) :=
  match doc with
  | JArray [a; b] => a' <- coord a ;; b' <- coord b ;; Ok (a', b')
  | _ => Raise TypeError
  end.

Fixpoint map_result {A B : Type} (f : A -> result B) (l : list A)
  : result (list B) :=
  match l with
  | [] => Ok []
  | a :: l' => b <- f a ;; bs <- map_result f l' ;; Ok (b :: bs)
  end.

(** A tile as the JSON object [json.dump] writes for it. *)
Definition tile_to_json {C : Type} (coord : C -> json) (tile : Tile C) : json :=
  JObject [ ("type"%string, JString (type tile));
            ("variant"%string, JInt (variant tile));
            ("pos"%string,
              JArray [coord (fst (pos tile)); coord (snd (pos tile))]) ].

(** The tile a loaded JSON object stands for: the three fields the rest of
    the program reads from it. *)
Definition tile_of_json {C : Type} (coord : json -> result C) (doc : json)
  : result (Tile C) :=
  ty <- member "type" doc ;;
  ty <- as_string ty ;;
  v <- member "variant" doc ;;
  v <- as_int v ;;
  p <- member "pos" doc ;;
  p <- as_pair coord p ;;
  Ok (mkTile ty v p).

(** ** The Tilemap class *)

Module Tilemap.

Record t : Type := mk {
  tile_size : Z;
  tilemap : PyDict.t (Tile Z);
  offgrid_tiles : list (Tile Q)
}.

(** [Tilemap(game, tile_size)] *)
Definition init (tile_size : Z) : t := mk tile_size [] [].

(** [tiles_around(pos)] *)
Definition tiles_around (self : t) (pos : Q * Q) : result (list (Tile Z)) :=
  tx <- floordiv (fst pos) (tile_size self) ;;
  ty <- floordiv (snd pos) (tile_size self) ;;
  let tile_loc := (tx, ty) in
  Ok (fold_left
        (fun tiles offset =>
           let check_loc :=
             loc_key (fst tile_loc + fst offset) (snd tile_loc + snd offset) in
           match PyDict.get check_loc (tilemap self) with
           | Some tile => tiles ++ [tile]
           | None => tiles
           end)
        NEIGHBOUR_OFFSETS []).

(** [solid_check(pos)]: the tile, or [None]. *)
Definition solid_check (self : t) (pos : Q * Q) : result (option (Tile Z)) :=
  tx <- floordiv (fst pos) (tile_size self) ;;
  ty <- floordiv (snd pos) (tile_size self) ;;
  let tile_loc := (str tx ++ ";" ++ str ty)%string in
  match PyDict.get tile_loc (tilemap self) with
  | Some tile =>
      if in_set (type tile) PHYSICS_TILES then Ok (Some tile) else Ok None
  | None => Ok None
  end.

(** The rectangle of a grid tile. *)
Definition tile_rect (self : t) (tile : Tile Z) : Rect.t :=
  Rect.mk (fst (pos tile) * tile_size self) (snd (pos tile) * tile_size self)
          (tile_size self) (tile_size self).

(** [physics_rects_around(pos)] *)
Definition physics_rects_around (self : t) (pos : Q * Q)
  : result (list Rect.t) :=
  tiles <- tiles_around self pos ;;
  Ok (fold_left
        (fun rects tile =>
           if in_set (type tile) PHYSICS_TILES
           then rects ++ [tile_rect self tile]
           else rects)
        tiles []).


(** [(tile['type'], tile['variant']) in id_pairs] *)
Definition id_match {C : Type} (id_pairs : list (string * Z)) (tile : Tile C)
  : bool :=
  existsb (fun p => String.eqb (type tile) (fst p) && (variant tile =? snd p))
          id_pairs.

(** [a == b] on off-grid tiles: field by field, numbers by value. *)
Definition offgrid_eqb (a b : Tile Q) : bool :=
  String.eqb (type a) (type b) && (variant a =? variant b)
  && Qeq_bool (fst (pos a)) (fst (pos b))
  && Qeq_bool (snd (pos a)) (snd (pos b)).

(** [l.remove(tile)]: drops the first equal element. *)
Fixpoint list_remove (tile : Tile Q) (l : list (Tile Q))
  : result (list (Tile Q)) :=
  match l with
  | [] => Raise ValueError
  | a :: l' =>
      if offgrid_eqb a tile then Ok l'
      else l'' <- list_remove tile l' ;; Ok (a :: l'')
  end.

(** The copy of a grid tile handed out by [extract], in pixel units. *)
Definition scaled_copy (self : t) (tile : Tile Z) : Tile Q :=
  mkTile (type tile) (variant tile)
         (inject_Z (fst (pos tile) * tile_size self),
          inject_Z (snd (pos tile) * tile_size self)).

Definition extract_offgrid_body (id_pairs : list (string * Z)) (keep : bool)
    (st : list (Tile Q) * list (Tile Q)) (tile : Tile Q)
  : result (list (Tile Q) * list (Tile Q)) :=
  let '(matches, offgrid) := st in
  if id_match id_pairs tile then
    let matches := matches ++ [tile] in
    if negb keep then
      offgrid <- list_remove tile offgrid ;; Ok (matches, offgrid)
    else Ok (matches, offgrid)
  else Ok (matches, offgrid).

Definition extract_grid_body (self : t) (id_pairs : list (string * Z))
    (keep : bool) (st : list (Tile Q) * PyDict.t (Tile Z)) (loc : string)
  : result (list (Tile Q) * PyDict.t (Tile Z)) :=
  let '(matches, tm) := st in
  tile <- PyDict.getitem loc tm ;;
  if id_match id_pairs tile then
    let matches := matches ++ [scaled_copy self tile] in
    if negb keep then
      tm <- PyDict.del loc tm ;; Ok (matches, tm)
    else Ok (matches, tm)
  else Ok (matches, tm).

(** [extract(id_pairs, keep)]: the matches and the store afterwards. *)
Definition extract (self : t) (id_pairs : list (string * Z)) (keep : bool)
  : result (list (Tile Q) * t) :=
  '(matches, offgrid) <-
    for_each (offgrid_tiles self) (extract_offgrid_body id_pairs keep)
             ([], offgrid_tiles self) ;;
  '(matches, tm) <-
    for_each (PyDict.keys (tilemap self)) (extract_grid_body self id_pairs keep)
             (matches, tilemap self) ;;
  Ok (matches, mk (tile_size self) tm offgrid).

(** The document written by [save]. *)
Definition dump (self : t) : json :=
  JObject [ ("tilemap"%string,
              JObject (map (fun kv => (fst kv, tile_to_json JInt (snd kv)))
                           (tilemap self)));
            ("tile_size"%string, JInt (tile_size self));
            ("offgrid"%string,
              JArray (map (tile_to_json JFloat) (offgrid_tiles self))) ].

(** [save(path)] *)
Definition save (self : t) (path : string) (fs : filesystem) : filesystem :=
  write_json path (dump self) fs.

Definition grid_of_json (doc : json) : result (PyDict.t (Tile Z)) :=
  match doc with
  | JObject members =>
      map_result (fun kv => tile <- tile_of_json as_int (snd kv) ;;
                            Ok (fst kv, tile)) members
  | _ => Raise TypeError
  end.

Definition offgrid_of_json (doc : json) : result (list (Tile Q)) :=
  match doc with
  | JArray items => map_result (tile_of_json as_number) items
  | _ => Raise TypeError
  end.

(** [load(path)]: the three attributes are overwritten from the file. *)
Definition load (self : t) (path : string) (fs : filesystem) : result t :=
  map_data <- read_json path fs ;;
  tm <- member "tilemap" map_data ;;
  tm <- grid_of_json tm ;;
  ts <- member "tile_size" map_data ;;
  ts <- as_int ts ;;
  og <- member "offgrid" map_data ;;
  og <- offgrid_of_json og ;;
  Ok (mk ts tm og).

(** [neighbours.add(shift)] *)
Definition set_add (shift : Z * Z) (s : list (Z * Z)) : list (Z * Z) :=
  if existsb (tuple_eqb shift) s then s else s ++ [shift].

(** The neighbour signature of [tile]: the cardinal shifts at which the
    store holds a tile of the same type. *)
Definition neighbours (tm : PyDict.t (Tile Z)) (tile : Tile Z)
  : list (Z * Z) :=
  fold_left
    (fun nb shift =>
       let check_loc :=
         (str (fst (pos tile) + fst shift) ++ ";"
          ++ str (snd (pos tile) + snd shift))%string in
       match PyDict.get check_loc tm with
       | Some other =>
           if String.eqb (type other) (type tile) then set_add shift nb
           else nb
       | None => nb
       end)
    [(1, 0); (-1, 0); (0, -1); (0, 1)] [].

Definition autotile_body (tm : PyDict.t (Tile Z)) (loc : string)
  : result (PyDict.t (Tile Z)) :=
  tile <- PyDict.getitem loc tm ;;
  let neighbours := sorted (neighbours tm tile) in
  match autotile_lookup neighbours AUTOTILE_MAP with
  | Some v =>
      if in_set (type tile) AUTOTILE_TYPES
      then Ok (PyDict.set loc (set_variant tile v) tm)
      else Ok tm
  | None => Ok tm
  end.

(** [autotile()] *)
Definition autotile (self : t) : result t :=
  tm <- for_each (PyDict.keys (tilemap self)) autotile_body (tilemap self) ;;
  Ok (mk (tile_size self) tm (offgrid_tiles self)).

End Tilemap.

(** ** The editor's edits of the store (editor.py, [Editor.run])

    The edits are taken by value, on the store as the game reads it.  Of a
    right click [RemoveTile] is the removal of the grid tile under the
    cursor (editor.py 187-190); the loop that follows it in the source
    (191-195), which deletes the off-grid tiles whose image is under the
    cursor, needs the sizes of the images and is not part of the model.
    What is said below about a removal is said about the grid and the tile
    size, which that loop does not touch. *)

Module Editor.

Inductive edit : Type :=
| PlaceTile (ty : string) (v : Z) (tile_pos : Z * Z)
| RemoveTile (tile_pos : Z * Z)
| PlaceOffgrid (ty : string) (v : Z) (world_pos : Q * Q).

Definition apply (self : Tilemap.t) (e : edit) : Tilemap.t :=
  match e with
  | PlaceTile ty v tile_pos =>
      Tilemap.mk (Tilemap.tile_size self)
        (PyDict.set (loc_key (fst tile_pos) (snd tile_pos))
                    (mkTile ty v tile_pos) (Tilemap.tilemap self))
        (Tilemap.offgrid_tiles self)
  | RemoveTile tile_pos =>
      let tile_loc := loc_key (fst tile_pos) (snd tile_pos) in
      match PyDict.del tile_loc (Tilemap.tilemap self) with
      | Ok tm =>
          Tilemap.mk (Tilemap.tile_size self) tm (Tilemap.offgrid_tiles self)
      | Raise _ => self
      end
  | PlaceOffgrid ty v world_pos =>
      Tilemap.mk (Tilemap.tile_size self) (Tilemap.tilemap self)
        (Tilemap.offgrid_tiles self ++ [mkTile ty v world_pos])
  end.

Definition run (edits : list edit) (self : Tilemap.t) : Tilemap.t :=
  fold_left apply edits self.

End Editor.

(** ** PhysicsEntity *)

Module PhysicsEntity.

Record Collisions : Type := mkCollisions {
  up : bool;
  down : bool;
  right : bool;
  left : bool
}.

Record t : Type := mk {
  pos : Q * Q;
  size : Z * Z;
  velocity : Q * Q;
  collisions : Collisions;
  flip : bool;
  last_movement : Q * Q
}.

Definition set_pos_x (self : t) (v : Q) : t :=
  mk (v, snd (pos self)) (size self) (velocity self) (collisions self)
     (flip self) (last_movement self).
Definition set_pos_y (self : t) (v : Q) : t :=
  mk (fst (pos self), v) (size self) (velocity self) (collisions self)
     (flip self) (last_movement self).
Definition set_velocity_y (self : t) (v : Q) : t :=
  mk (pos self) (size self) (fst (velocity self), v) (collisions self)
     (flip self) (last_movement self).
Definition set_collisions (self : t) (c : Collisions) : t :=
  mk (pos self) (size self) (velocity self) c (flip self)
     (last_movement self).
Definition set_flip (self : t) (b : bool) : t :=
  mk (pos self) (size self) (velocity self) (collisions self) b
     (last_movement self).
Definition set_last_movement (self : t) (m : Q * Q) : t :=
  mk (pos self) (size self) (velocity self) (collisions self) (flip self) m.

Definition mark_up (c : Collisions) : Collisions :=
  mkCollisions true (down c) (right c) (left c).
Definition mark_down (c : Collisions) : Collisions :=
  mkCollisions (up c) true (right c) (left c).
Definition mark_right (c : Collisions) : Collisions :=
  mkCollisions (up c) (down c) true (left c).
Definition mark_left (c : Collisions) : Collisions :=
  mkCollisions (up c) (down c) (right c) true.

(** [rect()] *)
Definition rect (self : t) : Rect.t :=
  Rect.mk (to_int (fst (pos self))) (to_int (snd (pos self)))
          (fst (size self)) (snd (size self)).

(** Body of the loop of the horizontal pass; the loop state is the local
    [entity_rect] and the entity. *)
Definition x_body (frame_movement : Q * Q) (st : Rect.t * t) (rect : Rect.t)
  : Rect.t * t :=
  let '(entity_rect, self) := st in
  if Rect.colliderect entity_rect rect then
    let '(entity_rect, self) :=
      if Qltb 0 (fst frame_movement)
      then (Rect.set_right entity_rect (Rect.left rect),
            set_collisions self (mark_right (collisions self)))
      else (entity_rect, self) in
    let '(entity_rect, self) :=
      if Qltb (fst frame_movement) 0
      then (Rect.set_left entity_rect (Rect.right rect),
            set_collisions self (mark_left (collisions self)))
      else (entity_rect, self) in
    (entity_rect, set_pos_x self (inject_Z (Rect.x entity_rect)))
  else (entity_rect, self).

(** Body of the loop of the vertical pass. *)
Definition y_body (frame_movement : Q * Q) (st : Rect.t * t) (rect : Rect.t)
  : Rect.t * t :=
  let '(entity_rect, self) := st in
  if Rect.colliderect entity_rect rect then
    let '(entity_rect, self) :=
      if Qltb 0 (snd frame_movement)
      then (Rect.set_bottom entity_rect (Rect.top rect),
            set_collisions self (mark_down (collisions self)))
      else (entity_rect, self) in
    let '(entity_rect, self) :=
      if Qltb (snd frame_movement) 0
      then (Rect.set_top entity_rect (Rect.bottom rect),
            set_collisions self (mark_up (collisions self)))
      else (entity_rect, self) in
    (entity_rect, set_pos_y self (inject_Z (Rect.y entity_rect)))
  else (entity_rect, self).

(** [self.pos[0] += frame_movement[0]] *)
Definition move_x (self : t) (frame_movement : Q * Q) : t :=
  set_pos_x self (fst (pos self) + fst frame_movement)%Q.

(** [self.pos[1] += frame_movement[1]] *)
Definition move_y (self : t) (frame_movement : Q * Q) : t :=
  set_pos_y self (snd (pos self) + snd frame_movement)%Q.

(** Horizontal movement and collision. *)
Definition x_pass (self : t) (tilemap : Tilemap.t) (frame_movement : Q * Q)
  : result t :=
  let self := move_x self frame_movement in
  let entity_rect := rect self in
  rects <- Tilemap.physics_rects_around tilemap (pos self) ;;
  Ok (snd (fold_left (x_body frame_movement) rects (entity_rect, self))).

(** Vertical movement and collision. *)
Definition y_pass (self : t) (tilemap : Tilemap.t) (frame_movement : Q * Q)
  : result t :=
  let self := move_y self frame_movement in
  let entity_rect := rect self in
  rects <- Tilemap.physics_rects_around tilemap (pos self) ;;
  Ok (snd (fold_left (y_body frame_movement) rects (entity_rect, self))).

Definition no_collisions : Collisions := mkCollisions false false false false.

(** [frame_movement] of [update]. *)
Definition frame_movement (self : t) (movement : Q * Q) : Q * Q :=
  ((fst movement + fst (velocity self))%Q,
   (snd movement + snd (velocity self))%Q).

(** Facing direction, [last_movement] and gravity: the end of [update]. *)
Definition finish (self : t) (movement : Q * Q) : t :=
  let self := if Qltb 0 (fst movement) then set_flip self false else self in
  let self := if Qltb (fst movement) 0 then set_flip self true else self in
  let self := set_last_movement self movement in
  let self :=
    set_velocity_y self (py_min (inject_Z 5) (snd (velocity self) + (1 # 10))%Q) in
  if down (collisions self) || up (collisions self)
  then set_velocity_y self (inject_Z 0)
  else self.

(** [update(tilemap, movement)] *)
Definition update (self : t) (tilemap : Tilemap.t) (movement : Q * Q)
  : result t :=
  let self := set_collisions self no_collisions in
  let frame_movement := frame_movement self movement in
  self <- x_pass self tilemap frame_movement ;;
  self <- y_pass self tilemap frame_movement ;;
  Ok (finish self movement).

End PhysicsEntity.

(** ** Vocabulary of the specification

    The definitions below follow the words of the specification; the
    properties compare them with the embedded code. *)

(** The grid coordinate of a world position: floor division by the tile
    size on each axis. *)
Definition grid_coordinate (self : Tilemap.t) (world_pos : Q * Q) : Z * Z :=
  (Qfloor (fst world_pos / inject_Z (Tilemap.tile_size self))%Q,
   Qfloor (snd world_pos / inject_Z (Tilemap.tile_size self))%Q).

(** The tile stored for a grid cell, if any. *)
Definition tile_at (tm : PyDict.t (Tile Z)) (cell : Z * Z) : option (Tile Z) :=
  PyDict.get (loc_key (fst cell) (snd cell)) tm.

Definition present {A : Type} (o : option A) : list A :=
  match o with
  | Some a => [a]
  | None => []
  end.

(** The present tiles of the 3x3 neighbourhood of a cell, in the scan order
    of the specification. *)
Definition neighbourhood_tiles (tm : PyDict.t (Tile Z)) (cell : Z * Z)
  : list (Tile Z) :=
  let gx := fst cell in
  let gy := snd cell in
  present (tile_at tm (gx + 1, gy + 1)) ++
  present (tile_at tm (gx + 1, gy)) ++
  present (tile_at tm (gx + 1, gy - 1)) ++
  present (tile_at tm (gx, gy + 1)) ++
  present (tile_at tm (gx, gy)) ++
  present (tile_at tm (gx, gy - 1)) ++
  present (tile_at tm (gx - 1, gy + 1)) ++
  present (tile_at tm (gx - 1, gy)) ++
  present (tile_at tm (gx - 1, gy - 1)).

(** [tile] has a neighbour of its own type at the given offset. *)
Definition same_type_at (tm : PyDict.t (Tile Z)) (tile : Tile Z)
    (offset : Z * Z) : bool :=
  match tile_at tm (fst (pos tile) + fst offset, snd (pos tile) + snd offset) with
  | Some other => String.eqb (type other) (type tile)
  | None => false
  end.

(** The tile after one autotile pass over the store [tm]: the variant of the
    rule table when the tile is eligible and its signature has an entry. *)
Definition retile (tm : PyDict.t (Tile Z)) (tile : Tile Z) : Tile Z :=
  match autotile_lookup (sorted (Tilemap.neighbours tm tile)) AUTOTILE_MAP with
  | Some v =>
      if in_set (type tile) AUTOTILE_TYPES then set_variant tile v else tile
  | None => tile
  end.

(** The store in which every tile has been retiled against [tm]. *)
Definition retiled (tm d : PyDict.t (Tile Z)) : PyDict.t (Tile Z) :=
  map (fun kv => (fst kv, retile tm (snd kv))) d.

(** The kind of tile stored under each key: all that the neighbour
    signatures depend on. *)
Definition same_types (tm tm' : PyDict.t (Tile Z)) : Prop :=
  forall k, option_map type (PyDict.get k tm) = option_map type (PyDict.get k tm').

(** The four cardinal offsets, in the order [autotile] visits them. *)
Definition CARDINAL_OFFSETS : list (Z * Z) := [(1, 0); (-1, 0); (0, -1); (0, 1)].

(** The store without the tiles matching [id_pairs]. *)
Definition without_matches (self : Tilemap.t) (id_pairs : list (string * Z))
  : Tilemap.t :=
  Tilemap.mk (Tilemap.tile_size self)
    (filter (fun kv => negb (Tilemap.id_match id_pairs (snd kv)))
            (Tilemap.tilemap self))
    (filter (fun tile => negb (Tilemap.id_match id_pairs tile))
            (Tilemap.offgrid_tiles self)).

(** The tiles [extract] is to return: the matching off-grid tiles, then the
    matching grid tiles rescaled to pixel units. *)
Definition matching_tiles (self : Tilemap.t) (id_pairs : list (string * Z))
  : list (Tile Q) :=
  filter (Tilemap.id_match id_pairs) (Tilemap.offgrid_tiles self) ++
  map (Tilemap.scaled_copy self)
      (filter (Tilemap.id_match id_pairs) (PyDict.values (Tilemap.tilemap self))).

(** What the horizontal pass leaves alone, and what the vertical pass leaves
    alone. *)
Definition x_frame (s s' : PhysicsEntity.t) : Prop :=
  PhysicsEntity.size s' = PhysicsEntity.size s /\
  PhysicsEntity.velocity s' = PhysicsEntity.velocity s /\
  snd (PhysicsEntity.pos s') = snd (PhysicsEntity.pos s) /\
  PhysicsEntity.up (PhysicsEntity.collisions s') =
    PhysicsEntity.up (PhysicsEntity.collisions s) /\
  PhysicsEntity.down (PhysicsEntity.collisions s') =
    PhysicsEntity.down (PhysicsEntity.collisions s).

Definition y_frame (s s' : PhysicsEntity.t) : Prop :=
  PhysicsEntity.size s' = PhysicsEntity.size s /\
  PhysicsEntity.velocity s' = PhysicsEntity.velocity s /\
  fst (PhysicsEntity.pos s') = fst (PhysicsEntity.pos s) /\
  PhysicsEntity.right (PhysicsEntity.collisions s') =
    PhysicsEntity.right (PhysicsEntity.collisions s) /\
  PhysicsEntity.left (PhysicsEntity.collisions s') =
    PhysicsEntity.left (PhysicsEntity.collisions s).

(** The entity at the start of [update]: collision flags reset. *)
Definition reset (self : PhysicsEntity.t) : PhysicsEntity.t :=
  PhysicsEntity.set_collisions self PhysicsEntity.no_collisions.

(** The entity after the loop of the horizontal (vertical) pass has run over
    the rectangles [rects]. *)
Definition after_x (self : PhysicsEntity.t) (fm : Q * Q) (rects : list Rect.t)
  : PhysicsEntity.t :=
  snd (fold_left (PhysicsEntity.x_body fm) rects
         (PhysicsEntity.rect (PhysicsEntity.move_x self fm),
          PhysicsEntity.move_x self fm)).

Definition after_y (self : PhysicsEntity.t) (fm : Q * Q) (rects : list Rect.t)
  : PhysicsEntity.t :=
  snd (fold_left (PhysicsEntity.y_body fm) rects
         (PhysicsEntity.rect (PhysicsEntity.move_y self fm),
          PhysicsEntity.move_y self fm)).

(** A decidable check that a list of keys has no repetition. *)
Fixpoint distinct (l : list string) : bool :=
  match l with
  | [] => true
  | k :: l' => negb (existsb (String.eqb k) l') && distinct l'
  end.

(** ** Example data *)

Definition grass (gx gy : Z) : string * Tile Z :=
  (loc_key gx gy, mkTile "grass"%string 0 (gx, gy)).

(** A store with one grass tile, at grid cell (1, 0). *)
Definition wall_store : Tilemap.t := Tilemap.mk 16 [grass 1 0] [].

(** A store with one grass tile, at grid cell (0, 1). *)
Definition floor_store : Tilemap.t := Tilemap.mk 16 [grass 0 1] [].

(** A store with one grass tile, at grid cell (0, 0). *)
Definition block_store : Tilemap.t := Tilemap.mk 16 [grass 0 0] [].

(** A grass cross around (0, 0), a decor tile, a spawner marker, and two
    off-grid tiles. *)
Definition cross_store : Tilemap.t :=
  Tilemap.mk 16
    [ grass 0 0; grass 1 0; grass (-1) 0; grass 0 1; grass 0 (-1);
      (loc_key 5 5, mkTile "decor"%string 2 (5, 5));
      (loc_key 7 2, mkTile "spawners"%string 1 (7, 2)) ]
    [ mkTile "spawners"%string 0 (3 # 2, 40 # 1)%Q;
      mkTile "large_decor"%string 2 (100 # 1, 25 # 2)%Q ].

(** An 8x15 entity at rest at the given position. *)
Definition entity_at (px py : Q) : PhysicsEntity.t :=
  PhysicsEntity.mk (px, py) (8, 15) (0 # 1, 0 # 1)%Q
    PhysicsEntity.no_collisions false (0 # 1, 0 # 1)%Q.

(** The same entity falling at the given vertical speed. *)
Definition falling_at (px py vy : Q) : PhysicsEntity.t :=
  PhysicsEntity.mk (px, py) (8, 15) (0 # 1, vy)%Q
    PhysicsEntity.no_collisions false (0 # 1, 0 # 1)%Q.

(** ** Further vocabulary: keys *)

(** Every grid tile is stored under the key of its own position. *)
Definition well_keyed (tm : PyDict.t (Tile Z)) : Prop :=
  forall k tile, In (k, tile) tm -> k = loc_key (fst (pos tile)) (snd (pos tile)).

(** The separator of the two coordinates in a key. *)
Definition semicolon : Ascii.ascii :=
  Ascii.Ascii true true false true true true false false.

(** [c in s] for a character and a string. *)
Fixpoint has_char (c : Ascii.ascii) (s : string) : bool :=
  match s with
  | EmptyString => false
  | String c' s' => Ascii.eqb c c' || has_char c s'
  end.

(** ** Tuples and lists in the editor's store (editor.py)

    Python keeps a tuple [(x, y)] apart from a list [[x, y]]: the two never
    compare equal, and only a list has [copy()].  The game reads every
    store from a file, where [json.load] makes every position a list, and
    [Tilemap.t] is such a store.  The editor also holds the tiles it has
    placed itself, and it writes their positions as tuples.  The store of
    the editor therefore records, with every tile, which of the two its
    position is. *)

Inductive seq_kind : Type := PyTuple | PyList.

Definition seq_kind_eqb (a b : seq_kind) : bool :=
  match a, b with
  | PyTuple, PyTuple => true
  | PyList, PyList => true
  | _, _ => false
  end.

(** The [Tilemap] class of editor.py, on such tiles. *)
Module EditorTilemap.

Record tile (C : Type) : Type := mk_tile {
  fields : Tile C;
  pos_kind : seq_kind
}.

Arguments mk_tile {C} fields pos_kind.
Arguments fields {C} t.
Arguments pos_kind {C} t.

Record t : Type := mk {
  tile_size : Z;
  tilemap : PyDict.t (tile Z);
  offgrid_tiles : list (tile Q)
}.

(** [Tilemap(self, tile_size)] *)
Definition init (tile_size : Z) : t := mk tile_size [] [].

(** The store by value: tuple or list, a position is its two numbers.
    This is what [json.dump] writes, an array for either. *)
Definition values (self : t) : Tilemap.t :=
  Tilemap.mk (tile_size self)
    (map (fun kv => (fst kv, fields (snd kv))) (tilemap self))
    (map fields (offgrid_tiles self)).

(** A store as [json.load] hands it over: every position is a list. *)
Definition loaded (tm : Tilemap.t) : t :=
  mk (Tilemap.tile_size tm)
     (map (fun kv => (fst kv, mk_tile (snd kv) PyList)) (Tilemap.tilemap tm))
     (map (fun tl => mk_tile tl PyList) (Tilemap.offgrid_tiles tm)).

(** Whether every position of the store is a list. *)
Definition all_lists (self : t) : bool :=
  forallb (fun kv => seq_kind_eqb (pos_kind (snd kv)) PyList) (tilemap self)
  && forallb (fun tl => seq_kind_eqb (pos_kind tl) PyList) (offgrid_tiles self).

(** [save(path)] *)
Definition save (self : t) (path : string) (fs : filesystem) : filesystem :=
  write_json path (Tilemap.dump (values self)) fs.

(** [load(path)] *)
Definition load (self : t) (path : string) (fs : filesystem) : result t :=
  tm <- Tilemap.load (values self) path fs ;;
  Ok (loaded tm).

(** [a == b] on off-grid tiles: field by field, numbers by value, and a
    tuple never equal to a list. *)
Definition tile_eqb (a b : tile Q) : bool :=
  Tilemap.offgrid_eqb (fields a) (fields b)
  && seq_kind_eqb (pos_kind a) (pos_kind b).

(** [l.remove(tile)] *)
Fixpoint list_remove (tl : tile Q) (l : list (tile Q))
  : result (list (tile Q)) :=
  match l with
  | [] => Raise ValueError
  | a :: l' =>
      if tile_eqb a tl then Ok l'
      else l'' <- list_remove tl l' ;; Ok (a :: l'')
  end.

Definition extract_offgrid_body (id_pairs : list (string * Z)) (keep : bool)
    (st : list (tile Q) * list (tile Q)) (tl : tile Q)
  : result (list (tile Q) * list (tile Q)) :=
  let '(matches, offgrid) := st in
  if Tilemap.id_match id_pairs (fields tl) then
    let matches := matches ++ [tl] in
    if negb keep then
      offgrid <- list_remove tl offgrid ;; Ok (matches, offgrid)
    else Ok (matches, offgrid)
  else Ok (matches, offgrid).

(** For a grid tile the copy of the position is made with [pos.copy()],
    which a tuple does not have. *)
Definition extract_grid_body (self : t) (id_pairs : list (string * Z))
    (keep : bool) (st : list (tile Q) * PyDict.t (tile Z)) (loc : string)
  : result (list (tile Q) * PyDict.t (tile Z)) :=
  let '(matches, tm) := st in
  tl <- PyDict.getitem loc tm ;;
  if Tilemap.id_match id_pairs (fields tl) then
    match pos_kind tl with
    | PyTuple => Raise AttributeError
    | PyList =>
        let copy :=
          mkTile (type (fields tl)) (variant (fields tl))
            (inject_Z (fst (pos (fields tl)) * tile_size self),
             inject_Z (snd (pos (fields tl)) * tile_size self)) in
        let matches := matches ++ [mk_tile copy PyList] in
        if negb keep then
          tm <- PyDict.del loc tm ;; Ok (matches, tm)
        else Ok (matches, tm)
    end
  else Ok (matches, tm).

(** [extract(id_pairs, keep)] *)
Definition extract (self : t) (id_pairs : list (string * Z)) (keep : bool)
  : result (list (tile Q) * t) :=
  '(matches, offgrid) <-
    for_each (offgrid_tiles self) (extract_offgrid_body id_pairs keep)
             ([], offgrid_tiles self) ;;
  '(matches, tm) <-
    for_each (PyDict.keys (tilemap self)) (extract_grid_body self id_pairs keep)
             (matches, tilemap self) ;;
  Ok (matches, mk (tile_size self) tm offgrid).

End EditorTilemap.

(** ** The editor at work on its store (editor.py, [Editor.__init__] and
    [Editor.run]) *)

Module EditorSession.

(** The store the editor starts with: [map.json] when it can be opened, an
    empty store of tile size 16 otherwise; other exceptions propagate. *)
Definition start (fs : filesystem) : result EditorTilemap.t :=
  let tilemap := EditorTilemap.init 16 in
  match EditorTilemap.load tilemap "map.json" fs with
  | Ok loaded => Ok loaded
  | Raise FileNotFoundError => Ok tilemap
  | Raise e => Raise e
  end.

(** A left click on the grid: the tile is stored with the tuple
    [tile_pos] as its position. *)
Definition place_tile (self : EditorTilemap.t) (ty : string) (v : Z)
    (tile_pos : Z * Z) : EditorTilemap.t :=
  EditorTilemap.mk (EditorTilemap.tile_size self)
    (PyDict.set (loc_key (fst tile_pos) (snd tile_pos))
       (EditorTilemap.mk_tile (mkTile ty v tile_pos) PyTuple)
       (EditorTilemap.tilemap self))
    (EditorTilemap.offgrid_tiles self).

(** A left click off the grid: the tile is appended, its position the tuple
    [(mpos[0] + scroll[0], mpos[1] + scroll[1])]. *)
Definition place_offgrid (self : EditorTilemap.t) (ty : string) (v : Z)
    (world_pos : Q * Q) : EditorTilemap.t :=
  EditorTilemap.mk (EditorTilemap.tile_size self)
    (EditorTilemap.tilemap self)
    (EditorTilemap.offgrid_tiles self
     ++ [EditorTilemap.mk_tile (mkTile ty v world_pos) PyTuple]).

(** The key [o]: [self.tilemap.save('map.json')]. *)
Definition save_map (self : EditorTilemap.t) (fs : filesystem) : filesystem :=
  EditorTilemap.save self "map.json" fs.

End EditorSession.


Definition no_files : filesystem := fun _ => None.

(** ** Further vocabulary: queries and autotiling *)

(** The range of a C [int], in which [pygame.Rect] keeps its
    coordinates. *)
Definition c_int (n : Z) : Prop := -2147483648 <= n <= 2147483647.

(** The type takes part in collisions. *)
Definition physics_tile (tile : Tile Z) : bool := in_set (type tile) PHYSICS_TILES.

(** A store whose tile size is zero. *)
Definition flat_store : Tilemap.t := Tilemap.mk 0 [grass 0 0] [].

(** The rule table read by shape: the variant for a tile with same-type
    neighbours at +x, -x, +y and -y, when the table has an entry. *)
Definition shape_variant (px nx py ny : bool) : option Z :=
  match px, nx, py, ny with
  | true, false, true, false => Some 0
  | true, true, true, false => Some 1
  | false, true, true, false => Some 2
  | false, true, true, true => Some 3
  | false, true, false, true => Some 4
  | true, true, false, true => Some 5
  | true, false, false, true => Some 6
  | true, false, true, true => Some 7
  | true, true, true, true => Some 8
  | _, _, _, _ => None
  end.

(** ** Further vocabulary: frames *)

(** [n] calls of [update] in a row with the same movement. *)
Fixpoint frames (n : nat) (self : PhysicsEntity.t) (tilemap : Tilemap.t)
    (movement : Q * Q) : result PhysicsEntity.t :=
  match n with
  | O => Ok self
  | S n' =>
      self <- PhysicsEntity.update self tilemap movement ;;
      frames n' self tilemap movement
  end.

(** ** Animations and particles (play.py, [Animation] and [Particle]) *)

(** [l[i]] for a Python list, negative indices counting from the end;
    [None] stands for IndexError. *)
Definition subscript {A : Type} (l : list A) (i : Z) : option A :=
  let n := Z.of_nat (length l) in
  if (0 <=? i) && (i <? n) then nth_error l (Z.to_nat i)
  else if (- n <=? i) && (i <? 0) then nth_error l (Z.to_nat (n + i))
  else None.

Module Animation.
Section Images.
Context {A : Type}.

Record t : Type := mk {
  images : list A;
  loop : bool;
  img_duration : Z;
  done : bool;
  frame : Z
}.

(** [Animation(images, img_dur, loop)] *)
Definition init (images : list A) (img_dur : Z) (loop : bool) : t :=
  mk images loop img_dur false 0.

(** [copy()] *)
Definition copy (self : t) : t :=
  init (images self) (img_duration self) (loop self).

Definition set_frame (self : t) (f : Z) : t :=
  mk (images self) (loop self) (img_duration self) (done self) f.

Definition set_done (self : t) (d : bool) : t :=
  mk (images self) (loop self) (img_duration self) d (frame self).

(** [self.img_duration * len(self.images)] *)
Definition total (self : t) : Z :=
  img_duration self * Z.of_nat (length (images self)).

(** [update()] *)
Definition update (self : t) : result t :=
  if loop self then
    if total self =? 0 then Raise ZeroDivisionError
    else Ok (set_frame self ((frame self + 1) mod total self))
  else
    let self := set_frame self (Z.min (frame self + 1) (total self - 1)) in
    if total self - 1 <=? frame self then Ok (set_done self true)
    else Ok self.

(** [img()]: the image to show; the division may raise, the subscript may
    fall outside the list. *)
Definition img (self : t) : result (option A) :=
  if img_duration self =? 0 then Raise ZeroDivisionError
  else Ok (subscript (images self)
             (to_int (inject_Z (frame self) / inject_Z (img_duration self))%Q)).

(** [n] calls of [update] in a row. *)
Fixpoint updates (n : nat) (self : t) : result t :=
  match n with
  | O => Ok self
  | S n' => self <- update self ;; updates n' self
  end.

(** The frame counter indexes an image. *)
Definition in_range (self : t) : Prop :=
  0 < img_duration self /\ 0 <= frame self < total self.

End Images.
Arguments t : clear implicits.
End Animation.

Module Particle.
Section Images.
Context {A : Type}.

Record t : Type := mk {
  p_type : string;
  pos : Q * Q;
  velocity : Q * Q;
  animation : Animation.t A
}.

(** [Particle(game, p_type, pos, velocity, frame)], given the animation
    [game.assets['particle/' + p_type]]. *)
Definition init (asset : Animation.t A) (p_type : string) (pos velocity : Q * Q)
    (frame : Z) : t :=
  mk p_type pos velocity (Animation.set_frame (Animation.copy asset) frame).

(** [update()]: whether to kill the particle, and the particle. *)
Definition update (self : t) : result (bool * t) :=
  let kill := Animation.done (animation self) in
  let pos := ((fst (pos self) + fst (velocity self))%Q,
              (snd (pos self) + snd (velocity self))%Q) in
  animation <- Animation.update (animation self) ;;
  Ok (kill, mk (p_type self) pos (velocity self) animation).

(** [n] calls of [update] in a row, and what the last one returned
    ([false] when there was none). *)
Fixpoint updates (n : nat) (self : t) : result (bool * t) :=
  match n with
  | O => Ok (false, self)
  | S n' =>
      '(_, self) <- updates n' self ;;
      update self
  end.

End Images.
Arguments t : clear implicits.
End Particle.

(** ** Example animations *)

(** Three images shown for twenty frames each, once. *)
Definition leaf_animation : Animation.t nat :=
  Animation.init [0%nat; 1%nat; 2%nat] 20 false.

(** Four images shown for six frames each, again and again. *)
Definition idle_animation : Animation.t nat :=
  Animation.init [0%nat; 1%nat; 2%nat; 3%nat] 6 true.

(** A leaf particle two frames before the end of its animation. *)
Definition fresh_leaf : Particle.t nat :=
  Particle.init leaf_animation "leaf" (0 # 1, 0 # 1)%Q (-1 # 10, 3 # 10)%Q 57.

(** ** The player (play.py, [Player])

    The player is a physics entity with a little state of its own.  The
    bursts of particles it spawns while dashing, and the sounds, belong to
    the decorative collaborators and are not part of the model; of the game
    object the player reads and writes [dead] and [screenshake]. *)

(** [max(a, b)] of Python: [b] when [b > a], else [a]. *)
Definition py_max (a b : Q) : Q := if Qltb a b then b else a.

Module Player.

Record t : Type := mk {
  entity : PhysicsEntity.t;
  action : string;
  air_time : Z;
  jumps : Z;
  wall_slide : bool;
  dashing : Z
}.

(** [Player(game, pos, size)] *)
Definition init (pos : Q * Q) (size : Z * Z) : t :=
  mk (PhysicsEntity.mk pos size (0 # 1, 0 # 1)%Q PhysicsEntity.no_collisions
        false (0 # 1, 0 # 1)%Q)
     "idle" 0 2 false 0.

Definition set_entity (self : t) (e : PhysicsEntity.t) : t :=
  mk e (action self) (air_time self) (jumps self) (wall_slide self)
     (dashing self).
Definition set_action (self : t) (a : string) : t :=
  mk (entity self) a (air_time self) (jumps self) (wall_slide self)
     (dashing self).
Definition set_air_time (self : t) (n : Z) : t :=
  mk (entity self) (action self) n (jumps self) (wall_slide self)
     (dashing self).
Definition set_jumps (self : t) (n : Z) : t :=
  mk (entity self) (action self) (air_time self) n (wall_slide self)
     (dashing self).
Definition set_wall_slide (self : t) (b : bool) : t :=
  mk (entity self) (action self) (air_time self) (jumps self) b (dashing self).
Definition set_dashing (self : t) (n : Z) : t :=
  mk (entity self) (action self) (air_time self) (jumps self)
     (wall_slide self) n.

Definition velocity (self : t) : Q * Q := PhysicsEntity.velocity (entity self).
Definition collisions (self : t) : PhysicsEntity.Collisions :=
  PhysicsEntity.collisions (entity self).

Definition set_velocity_x (self : t) (v : Q) : t :=
  let e := entity self in
  set_entity self
    (PhysicsEntity.mk (PhysicsEntity.pos e) (PhysicsEntity.size e)
       (v, snd (PhysicsEntity.velocity e)) (PhysicsEntity.collisions e)
       (PhysicsEntity.flip e) (PhysicsEntity.last_movement e)).
Definition set_velocity_y (self : t) (v : Q) : t :=
  set_entity self (PhysicsEntity.set_velocity_y (entity self) v).
Definition set_flip (self : t) (b : bool) : t :=
  set_entity self (PhysicsEntity.set_flip (entity self) b).

(** The parts of [update], in the order of the source. *)

(** Air time, death by falling, and the reset on landing. *)
Definition count_air_time (self : t) (dead screenshake : Z) : t * (Z * Z) :=
  let self := set_air_time self (air_time self + 1) in
  let flags :=
    if 300 <? air_time self then
      (dead + 1, if dead =? 0 then Z.max 16 screenshake else screenshake)
    else (dead, screenshake) in
  let self :=
    if PhysicsEntity.down (collisions self)
    then set_jumps (set_air_time self 0) 2
    else self in
  (self, flags).

(** Wall slide. *)
Definition slide (self : t) : t :=
  let self := set_wall_slide self false in
  if (PhysicsEntity.right (collisions self)
      || PhysicsEntity.left (collisions self))
     && (4 <? air_time self)
  then
    let self := set_wall_slide self true in
    let self := set_velocity_y self (py_min (snd (velocity self)) (1 # 2)) in
    let self :=
      if PhysicsEntity.right (collisions self) then set_flip self false
      else set_flip self true in
    set_action self "wall_slide"
  else self.

(** The action shown when not sliding. *)
Definition choose_action (self : t) (movement : Q * Q) : t :=
  if negb (wall_slide self) then
    if 4 <? air_time self then set_action self "jump"
    else if negb (Qeq_bool (fst movement) 0) then set_action self "run"
    else set_action self "idle"
  else self.

(** The dash counter and the dash speed. *)
Definition count_dash (self : t) : t :=
  let self :=
    if 0 <? dashing self then set_dashing self (Z.max 0 (dashing self - 1))
    else self in
  let self :=
    if dashing self <? 0 then set_dashing self (Z.min 0 (dashing self + 1))
    else self in
  if 50 <? Z.abs (dashing self) then
    let self :=
      set_velocity_x self
        (inject_Z (Z.abs (dashing self)) / inject_Z (dashing self)
         * inject_Z 8)%Q in
    if Z.abs (dashing self) =? 51
    then set_velocity_x self (fst (velocity self) * (1 # 10))%Q
    else self
  else self.

(** The horizontal velocity decays. *)
Definition friction (self : t) : t :=
  if Qltb 0 (fst (velocity self))
  then set_velocity_x self (py_max (fst (velocity self) - (1 # 10))%Q 0)
  else set_velocity_x self (py_min (fst (velocity self) + (1 # 10))%Q 0).

(** [update(tilemap, movement)], with [game.dead] and [game.screenshake]
    passed in and handed back. *)
Definition update (self : t) (dead screenshake : Z) (tilemap : Tilemap.t)
    (movement : Q * Q) : result (t * (Z * Z)) :=
  e <- PhysicsEntity.update (entity self) tilemap movement ;;
  let self := set_entity self e in
  let '(self, flags) := count_air_time self dead screenshake in
  let self := slide self in
  let self := choose_action self movement in
  let self := count_dash self in
  let self := friction self in
  Ok (self, flags).

(** [jump()]: whether the jump took place ([None] is [false]), and the
    player. *)
Definition jump (self : t) : bool * t :=
  if wall_slide self then
    if PhysicsEntity.flip (entity self) then
      let self := set_velocity_x self (5 # 2) in
      let self := set_velocity_x self (fst (velocity self) - (2 # 10))%Q in
      let self := set_velocity_y self (inject_Z (-3)) in
      (true, set_jumps (set_air_time self 5) 0)
    else
      let self := set_velocity_x self (-5 # 2) in
      let self := set_velocity_x self (fst (velocity self) + (2 # 10))%Q in
      let self := set_velocity_y self (inject_Z (-2)) in
      (true, set_jumps (set_air_time self 5) 0)
  else if negb (jumps self =? 0) then
    let self := set_velocity_y self (inject_Z (-3)) in
    let self := set_jumps self (jumps self - 1) in
    (true, set_air_time self 5)
  else if jumps self =? 1 then
    let self := set_velocity_y self (-5 # 2) in
    let self := set_jumps self (jumps self - 1) in
    (true, set_air_time self 5)
  else (false, self).

(** [dash()] *)
Definition dash (self : t) : t :=
  if dashing self =? 0 then
    if PhysicsEntity.flip (entity self) then set_dashing self (-60)
    else set_dashing self 60
  else self.

(** A run of updates, one for each movement of the list. *)
Fixpoint frames (movements : list (Q * Q)) (self : t) (dead screenshake : Z)
    (tilemap : Tilemap.t) : result (t * (Z * Z)) :=
  match movements with
  | [] => Ok (self, (dead, screenshake))
  | movement :: rest =>
      '(self, (dead, screenshake)) <-
        update self dead screenshake tilemap movement ;;
      frames rest self dead screenshake tilemap
  end.

(** [k] calls of [jump()] in a row: how many took place, and the player. *)
Fixpoint jump_times (k : nat) (self : t) : nat * t :=
  match k with
  | O => (O, self)
  | S k' =>
      let '(ok, self) := jump self in
      let '(n, self) := jump_times k' self in
      ((if ok then S n else n), self)
  end.

End Player.

(** ** Enemies and the level (play.py, [Enemy.__init__], [Game.load_level])

    Of the game object the model keeps what [load_level] computes from the
    level file: the player, the store, the leaf spawners, the enemies, the
    camera scroll and the two counters.  The lists of projectiles, particles
    and sparks, which [load_level] only empties, are not part of the
    model. *)

Module Enemy.

Record t : Type := mk {
  entity : PhysicsEntity.t;
  walking : Z
}.

(** [Enemy(game, pos, size)] *)
Definition init (pos : Q * Q) (size : Z * Z) : t :=
  mk (PhysicsEntity.mk pos size (0 # 1, 0 # 1)%Q PhysicsEntity.no_collisions
        false (0 # 1, 0 # 1)%Q)
     0.

End Enemy.

Module Game.

Record t : Type := mk {
  player : Player.t;
  tilemap : Tilemap.t;
  leaf_spawners : list Rect.t;
  enemies : list Enemy.t;
  scroll : Q * Q;
  dead : Z;
  transition : Z
}.

(** ['data/maps/' + str(map_id) + '.json'] *)
Definition level_path (map_id : Z) : string :=
  ("data/maps/" ++ str map_id ++ ".json")%string.

(** [pygame.Rect(4 + tree['pos'][0], 4 + tree['pos'][1], 23, 13)] *)
Definition tree_rect (tree : Tile Q) : Rect.t :=
  Rect.mk (to_int (4 + fst (pos tree))%Q) (to_int (4 + snd (pos tree))%Q) 23 13.

(** [self.player.pos = spawner['pos']; self.player.air_time = 0] *)
Definition place (player : Player.t) (at_pos : Q * Q) : Player.t :=
  let e := Player.entity player in
  Player.set_air_time
    (Player.set_entity player
       (PhysicsEntity.mk at_pos (PhysicsEntity.size e)
          (PhysicsEntity.velocity e) (PhysicsEntity.collisions e)
          (PhysicsEntity.flip e) (PhysicsEntity.last_movement e)))
    0.

(** Body of the loop over the spawn markers. *)
Definition spawn (st : Player.t * list Enemy.t) (spawner : Tile Q)
  : Player.t * list Enemy.t :=
  let '(player, enemies) := st in
  if variant spawner =? 0 then (place player (pos spawner), enemies)
  else (player, enemies ++ [Enemy.init (pos spawner) (8, 15)]).

(** [load_level(map_id)] *)
Definition load_level (self : t) (map_id : Z) (fs : filesystem) : result t :=
  tm <- Tilemap.load (tilemap self) (level_path map_id) fs ;;
  '(trees, tm) <- Tilemap.extract tm [("large_decor"%string, 2)] true ;;
  let leaf_spawners :=
    fold_left (fun acc tree => acc ++ [tree_rect tree]) trees [] in
  '(spawners, tm) <-
    Tilemap.extract tm [("spawners"%string, 0); ("spawners"%string, 1)] false ;;
  let '(player, enemies) := fold_left spawn spawners (player self, []) in
  Ok (mk player tm leaf_spawners enemies (0 # 1, 0 # 1)%Q 0 (-30)).

End Game.

(** The two kinds of spawn markers, and the trees that drop leaves. *)
Definition SPAWNERS : list (string * Z) :=
  [("spawners"%string, 0); ("spawners"%string, 1)].
Definition TREES : list (string * Z) := [("large_decor"%string, 2)].

(** A game that has not loaded a level yet, and a file system that holds
    [cross_store] as level 0. *)
Definition new_game : Game.t :=
  Game.mk (Player.init (50 # 1, 50 # 1)%Q (8, 15)) (Tilemap.init 16) [] []
    (0 # 1, 0 # 1)%Q 0 0.

Definition level_files : filesystem :=
  Tilemap.save cross_store (Game.level_path 0) (fun _ => None).

(** * Properties *)

(** ** Numerics and the exception monad *)

Lemma floordiv_ok (a : Q) (b : Z) :
  b <> 0 -> floordiv a b = Ok (Qfloor (a / inject_Z b)%Q).
Proof.
  intros Hb. unfold floordiv.
  destruct (Z.eqb_spec b 0) as [E | _]; [contradiction | reflexivity].
Qed.

Lemma floor_scaled (c b : Q) :
  (0 < b)%Q ->
  (inject_Z (Qfloor c) * b <= c * b)%Q /\ (c * b < inject_Z (Qfloor c + 1) * b)%Q.
Proof.
  intros Hb. split.
  - apply Qmult_le_compat_r; [apply Qfloor_le | apply Qlt_le_weak, Hb].
  - apply Qmult_lt_compat_r; [exact Hb | apply Qlt_floor].
Qed.

(** Floor division finds the cell that contains the coordinate. *)
Lemma floordiv_cell (a : Q) (b g : Z) :
  0 < b -> floordiv a b = Ok g ->
  (inject_Z (g * b) <= a)%Q /\ (a < inject_Z ((g + 1) * b))%Q.
Proof.
  intros Hb H. rewrite floordiv_ok in H by lia. injection H as <-.
  assert (Hq : (0 < inject_Z b)%Q)
    by (change 0%Q with (inject_Z 0); rewrite <- Zlt_Qlt; exact Hb).
  assert (Ha : (a == (a / inject_Z b) * inject_Z b)%Q).
  { field. intros E. rewrite E in Hq. discriminate. }
  destruct (floor_scaled (a / inject_Z b) (inject_Z b) Hq) as [L U].
  rewrite !inject_Z_mult. split.
  - eapply Qle_trans; [exact L |]. apply Qle_lteq. right. symmetry. exact Ha.
  - eapply Qle_lt_trans; [| exact U]. apply Qle_lteq. right. exact Ha.
Qed.

Lemma to_int_inject_Z (z : Z) : to_int (inject_Z z) = z.
Proof. unfold to_int. simpl. apply Z.quot_1_r. Qed.

Lemma to_int_Qeq (a b : Q) : (a == b)%Q -> to_int a = to_int b.
Proof.
  unfold Qeq, to_int. intros H.
  rewrite <- (Z.quot_mul_cancel_r (Qnum a) (Zpos (Qden a)) (Zpos (Qden b)))
    by discriminate.
  rewrite H, (Z.mul_comm (Zpos (Qden a))).
  apply Z.quot_mul_cancel_r; discriminate.
Qed.

Lemma Qltb_lt (a b : Q) : Qltb a b = true <-> (a < b)%Q.
Proof.
  unfold Qltb. rewrite Qlt_alt.
  destruct (a ?= b)%Q; split; congruence.
Qed.

Lemma Qltb_ge (a b : Q) : Qltb a b = false <-> (b <= a)%Q.
Proof.
  split; intros H.
  - apply Qnot_lt_le. intros L. apply Qltb_lt in L. congruence.
  - destruct (Qltb a b) eqn:E; [| reflexivity].
    apply Qltb_lt in E. exfalso. exact (Qle_not_lt _ _ H E).
Qed.

Lemma py_min_le_l (a b : Q) : (py_min a b <= a)%Q.
Proof.
  unfold py_min. destruct (Qltb b a) eqn:E.
  - apply Qlt_le_weak, Qltb_lt, E.
  - apply Qle_refl.
Qed.

Lemma py_min_r (a b : Q) : (b <= a)%Q -> (py_min a b == b)%Q.
Proof.
  intros H. unfold py_min. destruct (Qltb b a) eqn:E; [reflexivity |].
  apply Qltb_ge in E. apply Qle_antisym; assumption.
Qed.

(** ** Dictionaries *)

Section DictFacts.
Context {V : Type}.
Implicit Types (d pre suf : PyDict.t V) (k : string) (v : V).

Lemma get_app k pre suf :
  PyDict.get k (pre ++ suf) =
  match PyDict.get k pre with
  | Some v => Some v
  | None => PyDict.get k suf
  end.
Proof.
  induction pre as [| [k' v'] pre IH]; simpl; [reflexivity |].
  destruct (String.eqb k k'); [reflexivity | exact IH].
Qed.

Lemma get_notin k d : ~ In k (PyDict.keys d) -> PyDict.get k d = None.
Proof.
  induction d as [| [k' v'] d IH]; simpl; intros H; [reflexivity |].
  destruct (String.eqb_spec k k') as [-> | _].
  - exfalso. apply H. left. reflexivity.
  - apply IH. intros I. apply H. right. exact I.
Qed.

Lemma get_middle k v pre suf :
  ~ In k (PyDict.keys pre) -> PyDict.get k (pre ++ (k, v) :: suf) = Some v.
Proof.
  intros H. rewrite get_app, (get_notin _ _ H). simpl.
  rewrite String.eqb_refl. reflexivity.
Qed.

Lemma set_middle k v v0 pre suf :
  ~ In k (PyDict.keys pre) ->
  PyDict.set k v (pre ++ (k, v0) :: suf) = pre ++ (k, v) :: suf.
Proof.
  induction pre as [| [k' v'] pre IH]; simpl; intros H.
  - rewrite String.eqb_refl. reflexivity.
  - destruct (String.eqb_spec k k') as [-> | _].
    + exfalso. apply H. left. reflexivity.
    + rewrite IH; [reflexivity |]. intros I. apply H. right. exact I.
Qed.

Lemma del_middle k v pre suf :
  ~ In k (PyDict.keys pre) ->
  PyDict.del k (pre ++ (k, v) :: suf) = Ok (pre ++ suf).
Proof.
  induction pre as [| [k' v'] pre IH]; simpl; intros H.
  - rewrite String.eqb_refl. reflexivity.
  - destruct (String.eqb_spec k k') as [-> | _].
    + exfalso. apply H. left. reflexivity.
    + rewrite IH; [reflexivity |]. intros I. apply H. right. exact I.
Qed.

Lemma keys_app pre suf :
  PyDict.keys (pre ++ suf) = PyDict.keys pre ++ PyDict.keys suf.
Proof. apply map_app. Qed.

Lemma wf_head_notin k v pre suf :
  PyDict.wf (pre ++ (k, v) :: suf) -> ~ In k (PyDict.keys pre).
Proof.
  unfold PyDict.wf. rewrite keys_app. simpl. intros H I.
  apply NoDup_remove_2 in H. apply H, in_or_app. left. exact I.
Qed.

Lemma wf_remove k v pre suf :
  PyDict.wf (pre ++ (k, v) :: suf) -> PyDict.wf (pre ++ suf).
Proof.
  unfold PyDict.wf. rewrite !keys_app. simpl. apply NoDup_remove_1.
Qed.

Lemma get_in_wf k v d : PyDict.wf d -> In (k, v) d -> PyDict.get k d = Some v.
Proof.
  intros W I. apply in_split in I as (pre & suf & ->).
  apply get_middle. eapply wf_head_notin. exact W.
Qed.

Lemma get_some_in k v d : PyDict.get k d = Some v -> In (k, v) d.
Proof.
  induction d as [| [k' v'] d IH]; simpl; [discriminate |].
  destruct (String.eqb_spec k k') as [-> | _].
  - intros [= ->]. left. reflexivity.
  - intros H. right. apply IH, H.
Qed.

End DictFacts.

Lemma get_map_values {V W : Type} (f : V -> W) (k : string) (d : PyDict.t V) :
  PyDict.get k (map (fun kv => (fst kv, f (snd kv))) d) =
  option_map f (PyDict.get k d).
Proof.
  induction d as [| [k' v'] d IH]; simpl; [reflexivity |].
  destruct (String.eqb k k'); [reflexivity | exact IH].
Qed.

Lemma keys_map_values {V W : Type} (f : V -> W) (d : PyDict.t V) :
  PyDict.keys (map (fun kv => (fst kv, f (snd kv))) d) = PyDict.keys d.
Proof.
  unfold PyDict.keys. rewrite map_map. reflexivity.
Qed.

(** ** Neighbourhood queries *)

Lemma fold_append_present {A B : Type} (f : A -> option B) (l : list A)
    (acc : list B) :
  fold_left (fun tiles a => match f a with
                            | Some tile => tiles ++ [tile]
                            | None => tiles
                            end) l acc =
  acc ++ flat_map (fun a => present (f a)) l.
Proof.
  revert acc. induction l as [| a l IH]; intros acc; simpl.
  - symmetry. apply app_nil_r.
  - rewrite IH. destruct (f a); simpl; [| reflexivity].
    rewrite <- app_assoc. reflexivity.
Qed.

Lemma tiles_around_ok (self : Tilemap.t) (world_pos : Q * Q) :
  Tilemap.tile_size self <> 0 ->
  Tilemap.tiles_around self world_pos =
  Ok (neighbourhood_tiles (Tilemap.tilemap self) (grid_coordinate self world_pos)).
Proof.
  intros Hts. unfold Tilemap.tiles_around.
  rewrite !floordiv_ok by exact Hts. cbn [bind]. f_equal.
  etransitivity.
  - apply (fold_append_present
             (fun offset =>
                tile_at (Tilemap.tilemap self)
                        (fst (grid_coordinate self world_pos) + fst offset,
                         snd (grid_coordinate self world_pos) + snd offset))).
  - unfold neighbourhood_tiles, NEIGHBOUR_OFFSETS, grid_coordinate.
    cbn [flat_map fst snd app].
    rewrite !Z.add_0_r, app_nil_r. reflexivity.
Qed.

(** C5: with a non-zero tile size, [tiles_around] returns, for every world
    position, exactly the present tiles of the nine cells around the grid
    coordinate obtained by floor division, in the scan order
    (+1,+1),(+1,0),(+1,-1),(0,+1),(0,0),(0,-1),(-1,+1),(-1,0),(-1,-1); no
    tile is returned from elsewhere, and when the nine cells are empty the
    result is the empty list, not an exception. *)
Theorem tiles_around_neighbourhood (self : Tilemap.t) (world_pos : Q * Q) :
  Tilemap.tile_size self <> 0 ->
  let tm := Tilemap.tilemap self in
  let cell := grid_coordinate self world_pos in
  Tilemap.tiles_around self world_pos = Ok (neighbourhood_tiles tm cell)
  /\ (forall tile, In tile (neighbourhood_tiles tm cell) <->
        exists dx dy, -1 <= dx <= 1 /\ -1 <= dy <= 1 /\
          tile_at tm (fst cell + dx, snd cell + dy) = Some tile)
  /\ ((forall dx dy, -1 <= dx <= 1 -> -1 <= dy <= 1 ->
          tile_at tm (fst cell + dx, snd cell + dy) = None) ->
      Tilemap.tiles_around self world_pos = Ok []).
Proof.
  intros Hts tm cell. split; [apply tiles_around_ok, Hts |]. split.
  - intros tile. unfold neighbourhood_tiles. rewrite !in_app_iff.
    replace (fst cell) with (fst cell + 0) at 4 5 6 by lia.
    replace (snd cell) with (snd cell + 0) at 2 5 8 by lia.
    change (fst cell - 1) with (fst cell + -1).
    change (snd cell - 1) with (snd cell + -1).
    split.
    + intros H.
      repeat (destruct H as [H | H]);
        match type of H with
        | In _ (present (tile_at _ (_ + ?dx, _ + ?dy))) =>
            exists dx, dy; repeat split; try lia;
            destruct (tile_at tm (fst cell + dx, snd cell + dy));
            simpl in H; [destruct H as [-> | []]; reflexivity | destruct H]
        end.
    + intros (dx & dy & Hx & Hy & H).
      assert (Hdx : dx = 1 \/ dx = 0 \/ dx = -1) by lia.
      assert (Hdy : dy = 1 \/ dy = 0 \/ dy = -1) by lia.
      destruct Hdx as [-> | [-> | ->]]; destruct Hdy as [-> | [-> | ->]];
        rewrite H; simpl; tauto.
  - intros Hnone. rewrite tiles_around_ok by exact Hts. f_equal.
    fold tm cell. unfold neighbourhood_tiles.
    replace (fst cell) with (fst cell + 0) at 4 5 6 by lia.
    replace (snd cell) with (snd cell + 0) at 2 5 8 by lia.
    change (fst cell - 1) with (fst cell + -1).
    change (snd cell - 1) with (snd cell + -1).
    rewrite !Hnone by lia. reflexivity.
Qed.

(** For a positive tile size the grid coordinate is the cell whose pixel
    square contains the position. *)
Lemma grid_coordinate_contains (self : Tilemap.t) (world_pos : Q * Q) :
  0 < Tilemap.tile_size self ->
  let ts := Tilemap.tile_size self in
  let cell := grid_coordinate self world_pos in
  (inject_Z (fst cell * ts) <= fst world_pos < inject_Z ((fst cell + 1) * ts))%Q /\
  (inject_Z (snd cell * ts) <= snd world_pos < inject_Z ((snd cell + 1) * ts))%Q.
Proof.
  intros Hts ts cell. split.
  - apply (floordiv_cell (fst world_pos) ts (fst cell) Hts).
    apply floordiv_ok. unfold ts. lia.
  - apply (floordiv_cell (snd world_pos) ts (snd cell) Hts).
    apply floordiv_ok. unfold ts. lia.
Qed.

(** C8: with a non-zero tile size, [solid_check] looks at the single grid
    cell of the world position and nothing else: it returns the tile found
    there when its type is physics-enabled, and [None] (no exception) when
    the cell holds a tile of another type or no tile at all. *)
Theorem solid_check_single_cell (self : Tilemap.t) (world_pos : Q * Q) :
  Tilemap.tile_size self <> 0 ->
  let here := tile_at (Tilemap.tilemap self) (grid_coordinate self world_pos) in
  (forall tile, here = Some tile -> in_set (type tile) PHYSICS_TILES = true ->
     Tilemap.solid_check self world_pos = Ok (Some tile))
  /\ (forall tile, here = Some tile -> in_set (type tile) PHYSICS_TILES = false ->
     Tilemap.solid_check self world_pos = Ok None)
  /\ (here = None -> Tilemap.solid_check self world_pos = Ok None).
Proof.
  intros Hts here.
  assert (E : Tilemap.solid_check self world_pos =
              match here with
              | Some tile =>
                  if in_set (type tile) PHYSICS_TILES then Ok (Some tile)
                  else Ok None
              | None => Ok None
              end).
  { unfold Tilemap.solid_check. rewrite !floordiv_ok by exact Hts. reflexivity. }
  rewrite E. repeat split.
  - intros tile -> ->. reflexivity.
  - intros tile -> ->. reflexivity.
  - intros ->. reflexivity.
Qed.

(** ** Saving and loading *)

Lemma tile_of_json_grid (tile : Tile Z) :
  tile_of_json as_int (tile_to_json JInt tile) = Ok tile.
Proof. destruct tile as [ty v [px py]]. reflexivity. Qed.

Lemma tile_of_json_offgrid (tile : Tile Q) :
  tile_of_json as_number (tile_to_json JFloat tile) = Ok tile.
Proof. destruct tile as [ty v [px py]]. reflexivity. Qed.

Lemma grid_of_json_dump (tm : PyDict.t (Tile Z)) :
  Tilemap.grid_of_json
    (JObject (map (fun kv => (fst kv, tile_to_json JInt (snd kv))) tm)) = Ok tm.
Proof.
  unfold Tilemap.grid_of_json.
  induction tm as [| [k tile] tm IH]; [reflexivity |].
  cbn [map map_result fst snd]. rewrite tile_of_json_grid. cbn [bind].
  rewrite IH. reflexivity.
Qed.

Lemma offgrid_of_json_dump (tiles : list (Tile Q)) :
  Tilemap.offgrid_of_json (JArray (map (tile_to_json JFloat) tiles)) = Ok tiles.
Proof.
  unfold Tilemap.offgrid_of_json.
  induction tiles as [| tile tiles IH]; [reflexivity |].
  cbn [map map_result]. rewrite tile_of_json_offgrid. cbn [bind].
  rewrite IH. reflexivity.
Qed.

Lemma load_save (other self : Tilemap.t) (path : string) (fs : filesystem) :
  Tilemap.load other path (Tilemap.save self path fs) = Ok self.
Proof.
  unfold Tilemap.load, Tilemap.save, read_json, write_json.
  rewrite String.eqb_refl. cbn [bind]. unfold Tilemap.dump.
  cbn [member PyDict.getitem PyDict.get String.eqb Ascii.eqb Bool.eqb bind as_int].
  rewrite grid_of_json_dump, offgrid_of_json_dump. cbn [bind].
  destruct self; reflexivity.
Qed.

(** *** The editor's store: tuples come back as lists *)

Lemma map_tag_untag {K C : Type} (l : list (K * Tile C)) :
  map (fun kv : K * EditorTilemap.tile C =>
         (fst kv, EditorTilemap.fields (snd kv)))
      (map (fun kv : K * Tile C =>
              (fst kv, EditorTilemap.mk_tile (snd kv) PyList)) l) = l.
Proof.
  induction l as [| [k tl] l IH]; [reflexivity |].
  cbn [map fst snd EditorTilemap.fields]. rewrite IH. reflexivity.
Qed.

Lemma values_loaded (tm : Tilemap.t) :
  EditorTilemap.values (EditorTilemap.loaded tm) = tm.
Proof.
  destruct tm as [ts grid off]. unfold EditorTilemap.values, EditorTilemap.loaded.
  cbn [EditorTilemap.tile_size EditorTilemap.tilemap EditorTilemap.offgrid_tiles
       Tilemap.tile_size Tilemap.tilemap Tilemap.offgrid_tiles].
  rewrite map_tag_untag, map_map. cbn [EditorTilemap.fields].
  rewrite map_id. reflexivity.
Qed.

Lemma all_lists_loaded (tm : Tilemap.t) :
  EditorTilemap.all_lists (EditorTilemap.loaded tm) = true.
Proof.
  unfold EditorTilemap.all_lists, EditorTilemap.loaded.
  cbn [EditorTilemap.tilemap EditorTilemap.offgrid_tiles].
  apply andb_true_intro. split; apply forallb_forall; intros x I;
    apply in_map_iff in I as (y & <- & _); reflexivity.
Qed.





Lemma editor_load_save (other self : EditorTilemap.t) (path : string)
    (fs : filesystem) :
  EditorTilemap.load other path (EditorTilemap.save self path fs) =
  Ok (EditorTilemap.loaded (EditorTilemap.values self)).
Proof.
  unfold EditorTilemap.load, EditorTilemap.save.
  change (write_json path (Tilemap.dump (EditorTilemap.values self)) fs)
    with (Tilemap.save (EditorTilemap.values self) path fs).
  rewrite load_save. reflexivity.
Qed.




Lemma map_set_fields {C : Type} (k : string) (tl : EditorTilemap.tile C)
    (d : PyDict.t (EditorTilemap.tile C)) :
  map (fun kv => (fst kv, EditorTilemap.fields (snd kv))) (PyDict.set k tl d) =
  PyDict.set k (EditorTilemap.fields tl)
    (map (fun kv => (fst kv, EditorTilemap.fields (snd kv))) d).
Proof.
  induction d as [| [k' v'] d IH]; [reflexivity |].
  cbn [PyDict.set map fst snd].
  destruct (String.eqb k k'); cbn [map fst snd]; [reflexivity |].
  rewrite IH. reflexivity.
Qed.

(** By value, the placements of the editor are the edits of [Editor]. *)
Lemma place_tile_values (self : EditorTilemap.t) (ty : string) (v : Z)
    (tile_pos : Z * Z) :
  EditorTilemap.values (EditorSession.place_tile self ty v tile_pos) =
  Editor.apply (EditorTilemap.values self) (Editor.PlaceTile ty v tile_pos).
Proof.
  unfold EditorTilemap.values, EditorSession.place_tile.
  cbn [EditorTilemap.tile_size EditorTilemap.tilemap
       EditorTilemap.offgrid_tiles Editor.apply Tilemap.tile_size
       Tilemap.tilemap Tilemap.offgrid_tiles].
  rewrite map_set_fields. reflexivity.
Qed.

Lemma place_offgrid_values (self : EditorTilemap.t) (ty : string) (v : Z)
    (world_pos : Q * Q) :
  EditorTilemap.values (EditorSession.place_offgrid self ty v world_pos) =
  Editor.apply (EditorTilemap.values self) (Editor.PlaceOffgrid ty v world_pos).
Proof.
  unfold EditorTilemap.values, EditorSession.place_offgrid.
  cbn [EditorTilemap.tile_size EditorTilemap.tilemap
       EditorTilemap.offgrid_tiles Editor.apply Tilemap.tile_size
       Tilemap.tilemap Tilemap.offgrid_tiles].
  rewrite map_app. reflexivity.
Qed.



(** ** Autotiling *)

Lemma neighbours_same_types (tm tm' : PyDict.t (Tile Z)) (tile tile' : Tile Z) :
  same_types tm tm' -> type tile = type tile' -> pos tile = pos tile' ->
  Tilemap.neighbours tm tile = Tilemap.neighbours tm' tile'.
Proof.
  intros Hs Ht Hp. unfold Tilemap.neighbours. rewrite Ht, Hp.
  assert (Hstep : forall nb shift,
    match PyDict.get (str (fst (pos tile') + fst shift) ++ ";"
                      ++ str (snd (pos tile') + snd shift)) tm with
    | Some other =>
        if String.eqb (type other) (type tile') then Tilemap.set_add shift nb
        else nb
    | None => nb
    end =
    match PyDict.get (str (fst (pos tile') + fst shift) ++ ";"
                      ++ str (snd (pos tile') + snd shift)) tm' with
    | Some other =>
        if String.eqb (type other) (type tile') then Tilemap.set_add shift nb
        else nb
    | None => nb
    end).
  { intros nb shift.
    specialize (Hs (str (fst (pos tile') + fst shift) ++ ";"
                    ++ str (snd (pos tile') + snd shift))%string).
    destruct (PyDict.get _ tm) as [o |], (PyDict.get _ tm') as [o' |];
      simpl in Hs; try discriminate; [| reflexivity].
    injection Hs as ->. reflexivity. }
  cbn [fold_left]. rewrite !Hstep. reflexivity.
Qed.

Lemma retile_type (tm : PyDict.t (Tile Z)) (tile : Tile Z) :
  type (retile tm tile) = type tile.
Proof.
  unfold retile. destruct (autotile_lookup _ _); [| reflexivity].
  destruct (in_set _ _); reflexivity.
Qed.

Lemma retile_pos (tm : PyDict.t (Tile Z)) (tile : Tile Z) :
  pos (retile tm tile) = pos tile.
Proof.
  unfold retile. destruct (autotile_lookup _ _); [| reflexivity].
  destruct (in_set _ _); reflexivity.
Qed.

Lemma retile_same_types (tm tm' : PyDict.t (Tile Z)) (tile : Tile Z) :
  same_types tm tm' -> retile tm tile = retile tm' tile.
Proof.
  intros Hs. unfold retile.
  rewrite (neighbours_same_types tm tm' tile tile Hs eq_refl eq_refl).
  reflexivity.
Qed.

Lemma same_types_partial (tm pre suf : PyDict.t (Tile Z)) :
  same_types (retiled tm pre ++ suf) (pre ++ suf).
Proof.
  intros k. rewrite !get_app. unfold retiled. rewrite get_map_values.
  destruct (PyDict.get k pre) as [tile |]; simpl; [| reflexivity].
  rewrite retile_type. reflexivity.
Qed.

Lemma same_types_trans (a b c : PyDict.t (Tile Z)) :
  same_types a b -> same_types b c -> same_types a c.
Proof. intros H1 H2 k. rewrite H1. apply H2. Qed.

Lemma same_types_sym (a b : PyDict.t (Tile Z)) :
  same_types a b -> same_types b a.
Proof. intros H k. symmetry. apply H. Qed.

Lemma set_get_same {V : Type} (k : string) (v : V) (d : PyDict.t V) :
  PyDict.get k d = Some v -> PyDict.set k v d = d.
Proof.
  induction d as [| [k' v'] d IH]; simpl; [discriminate |].
  destruct (String.eqb_spec k k') as [-> | _].
  - intros [= ->]. reflexivity.
  - intros H. rewrite IH by exact H. reflexivity.
Qed.

(** One iteration of the loop of [autotile] on a key of the live store
    replaces the tile under that key by its retiled version. *)
Lemma autotile_body_retile (tm : PyDict.t (Tile Z)) (loc : string) (tile : Tile Z) :
  PyDict.get loc tm = Some tile ->
  Tilemap.autotile_body tm loc = Ok (PyDict.set loc (retile tm tile) tm).
Proof.
  intros Hget. unfold Tilemap.autotile_body, PyDict.getitem, retile.
  rewrite Hget. cbn [bind].
  destruct (autotile_lookup _ _) as [v |].
  - destruct (in_set _ _); [reflexivity |].
    rewrite set_get_same by exact Hget. reflexivity.
  - rewrite set_get_same by exact Hget. reflexivity.
Qed.

Lemma autotile_loop (tm pre suf : PyDict.t (Tile Z)) :
  PyDict.wf (pre ++ suf) -> same_types tm (pre ++ suf) ->
  for_each (PyDict.keys suf) Tilemap.autotile_body (retiled tm pre ++ suf) =
  Ok (retiled tm (pre ++ suf)).
Proof.
  revert pre. induction suf as [| [k tile] suf IH]; intros pre W Hs.
  - rewrite !app_nil_r. reflexivity.
  - cbn [PyDict.keys map fst for_each].
    assert (Hk : ~ In k (PyDict.keys (retiled tm pre))).
    { unfold retiled. rewrite keys_map_values. eapply wf_head_notin, W. }
    rewrite (autotile_body_retile _ k tile) by (apply get_middle, Hk).
    cbn [bind]. rewrite set_middle by exact Hk.
    assert (Hr : retile (retiled tm pre ++ (k, tile) :: suf) tile = retile tm tile).
    { apply retile_same_types.
      eapply same_types_trans; [apply same_types_partial |].
      apply same_types_sym, Hs. }
    rewrite Hr.
    replace (retiled tm pre ++ (k, retile tm tile) :: suf)
      with (retiled tm (pre ++ [(k, tile)]) ++ suf).
    + fold (PyDict.keys suf). rewrite IH.
      * rewrite <- app_assoc. reflexivity.
      * rewrite <- app_assoc. exact W.
      * rewrite <- app_assoc. exact Hs.
    + unfold retiled. rewrite map_app, <- app_assoc. reflexivity.
Qed.

(** [autotile] always completes, and its result is the store with every
    grid tile retiled against the store it started from. *)
Lemma autotile_ok (self : Tilemap.t) :
  PyDict.wf (Tilemap.tilemap self) ->
  Tilemap.autotile self =
  Ok (Tilemap.mk (Tilemap.tile_size self)
                 (retiled (Tilemap.tilemap self) (Tilemap.tilemap self))
                 (Tilemap.offgrid_tiles self)).
Proof.
  intros W. unfold Tilemap.autotile.
  assert (H := autotile_loop (Tilemap.tilemap self) [] (Tilemap.tilemap self) W).
  cbn [retiled map app] in H. rewrite H; [reflexivity |].
  intros k. reflexivity.
Qed.

Lemma same_types_retiled (tm : PyDict.t (Tile Z)) : same_types (retiled tm tm) tm.
Proof.
  assert (H := same_types_partial tm tm []).
  rewrite !app_nil_r in H. exact H.
Qed.

Lemma retile_idempotent (tm tm' : PyDict.t (Tile Z)) (tile : Tile Z) :
  same_types tm' tm -> retile tm' (retile tm tile) = retile tm tile.
Proof.
  intros Hs. unfold retile at 1.
  rewrite (neighbours_same_types tm' tm (retile tm tile) tile Hs
             (retile_type tm tile) (retile_pos tm tile)).
  rewrite retile_type. unfold retile.
  destruct (autotile_lookup _ _) as [v |]; [| reflexivity].
  destruct (in_set _ _); reflexivity.
Qed.

(** C3: on every store, [autotile] completes, and running it again on its
    own result completes and returns that result unchanged. *)
Theorem autotile_idempotent (self : Tilemap.t) :
  PyDict.wf (Tilemap.tilemap self) ->
  exists once, Tilemap.autotile self = Ok once /\ Tilemap.autotile once = Ok once.
Proof.
  intros W. eexists. split; [apply autotile_ok, W |].
  rewrite autotile_ok.
  - cbn [Tilemap.tile_size Tilemap.tilemap Tilemap.offgrid_tiles]. do 2 f_equal.
    unfold retiled at 1 3. rewrite map_map. apply map_ext.
    intros [k tile]. cbn [fst snd]. f_equal.
    apply retile_idempotent, same_types_retiled.
  - cbn [Tilemap.tilemap]. unfold PyDict.wf, retiled.
    rewrite keys_map_values. exact W.
Qed.

(** The signature computed by [autotile] lists the cardinal offsets at which
    a tile of the same type is stored. *)
Lemma neighbours_filter (tm : PyDict.t (Tile Z)) (tile : Tile Z) :
  Tilemap.neighbours tm tile = filter (same_type_at tm tile) CARDINAL_OFFSETS.
Proof.
  unfold Tilemap.neighbours, CARDINAL_OFFSETS, same_type_at, tile_at, loc_key.
  cbn [fold_left filter fst snd].
  repeat match goal with
         | |- context [PyDict.get ?k tm] =>
             destruct (PyDict.get k tm) as [? |]
         | |- context [String.eqb (type ?o) (type tile)] =>
             destruct (String.eqb (type o) (type tile))
         end; reflexivity.
Qed.

Lemma autotile_tile (self : Tilemap.t) (loc : string) (tile : Tile Z) :
  PyDict.wf (Tilemap.tilemap self) ->
  PyDict.get loc (Tilemap.tilemap self) = Some tile ->
  exists after,
    Tilemap.autotile self = Ok after /\
    PyDict.get loc (Tilemap.tilemap after) = Some (retile (Tilemap.tilemap self) tile).
Proof.
  intros W Hget. eexists. split; [apply autotile_ok, W |].
  cbn [Tilemap.tilemap]. unfold retiled. rewrite get_map_values, Hget.
  reflexivity.
Qed.

(** C4: after [autotile], an eligible tile whose four cardinal neighbours
    are of its type has variant 8; an eligible tile with same-type
    neighbours exactly at +x and +y has variant 0; and a tile whose
    signature has no entry in the rule table, in particular one with at most
    one same-type neighbour, keeps the variant it had.  Type and position
    never change. *)
Theorem autotile_variants (self : Tilemap.t) (loc : string) (tile : Tile Z) :
  PyDict.wf (Tilemap.tilemap self) ->
  PyDict.get loc (Tilemap.tilemap self) = Some tile ->
  let tm := Tilemap.tilemap self in
  let nb := same_type_at tm tile in
  exists after tile',
    Tilemap.autotile self = Ok after /\
    PyDict.get loc (Tilemap.tilemap after) = Some tile' /\
    type tile' = type tile /\ pos tile' = pos tile /\
    (in_set (type tile) AUTOTILE_TYPES = true ->
     nb (1, 0) = true -> nb (-1, 0) = true -> nb (0, 1) = true ->
     nb (0, -1) = true -> variant tile' = 8) /\
    (in_set (type tile) AUTOTILE_TYPES = true ->
     nb (1, 0) = true -> nb (0, 1) = true -> nb (-1, 0) = false ->
     nb (0, -1) = false -> variant tile' = 0) /\
    (autotile_lookup (sorted (filter nb CARDINAL_OFFSETS)) AUTOTILE_MAP = None ->
     variant tile' = variant tile) /\
    ((length (filter nb CARDINAL_OFFSETS) <= 1)%nat -> variant tile' = variant tile).
Proof.
  intros W Hget tm nb.
  destruct (autotile_tile self loc tile W Hget) as (after & Hrun & Hafter).
  exists after, (retile tm tile). fold tm in Hafter.
  split; [exact Hrun |]. split; [exact Hafter |].
  split; [apply retile_type |]. split; [apply retile_pos |].
  unfold retile. rewrite neighbours_filter. fold nb.
  unfold CARDINAL_OFFSETS. cbn [filter].
  repeat split.
  - intros -> -> -> -> ->. reflexivity.
  - intros -> -> -> -> ->. reflexivity.
  - intros ->. reflexivity.
  - destruct (nb (1, 0)), (nb (-1, 0)), (nb (0, -1)), (nb (0, 1));
      cbn [length]; intros H; try lia; reflexivity.
Qed.

(** ** Extraction *)

Lemma offgrid_eqb_refl (a : Tile Q) : Tilemap.offgrid_eqb a a = true.
Proof.
  unfold Tilemap.offgrid_eqb.
  rewrite String.eqb_refl, Z.eqb_refl.
  rewrite !(proj2 (Qeq_bool_iff _ _) (Qeq_refl _)). reflexivity.
Qed.

Lemma offgrid_eqb_id_match (ids : list (string * Z)) (a b : Tile Q) :
  Tilemap.offgrid_eqb a b = true ->
  Tilemap.id_match ids a = Tilemap.id_match ids b.
Proof.
  unfold Tilemap.offgrid_eqb, Tilemap.id_match. intros H.
  apply andb_prop in H as [H _]. apply andb_prop in H as [H _].
  apply andb_prop in H as [Ht Hv].
  apply String.eqb_eq in Ht. apply Z.eqb_eq in Hv. rewrite Ht, Hv. reflexivity.
Qed.

Lemma list_remove_middle (a : Tile Q) (pre suf : list (Tile Q)) :
  (forall b, In b pre -> Tilemap.offgrid_eqb b a = false) ->
  Tilemap.list_remove a (pre ++ a :: suf) = Ok (pre ++ suf).
Proof.
  induction pre as [| b pre IH]; intros H; simpl.
  - rewrite offgrid_eqb_refl. reflexivity.
  - rewrite (H b) by (left; reflexivity).
    rewrite IH; [reflexivity |]. intros c Hc. apply H. right. exact Hc.
Qed.

Section Extract.
Variable self : Tilemap.t.
Variable ids : list (string * Z).

Let unmatched {C : Type} (tile : Tile C) : bool :=
  negb (Tilemap.id_match ids tile).

Lemma extract_offgrid_keep (l acc live : list (Tile Q)) :
  for_each l (Tilemap.extract_offgrid_body ids true) (acc, live) =
  Ok (acc ++ filter (Tilemap.id_match ids) l, live).
Proof.
  revert acc. induction l as [| a l IH]; intros acc; cbn [for_each filter].
  - rewrite app_nil_r. reflexivity.
  - unfold Tilemap.extract_offgrid_body at 1.
    destruct (Tilemap.id_match ids a); cbn [negb bind]; rewrite IH.
    + rewrite <- app_assoc. reflexivity.
    + reflexivity.
Qed.

Lemma extract_offgrid_remove (suf acc pre : list (Tile Q)) :
  (forall b, In b pre -> Tilemap.id_match ids b = false) ->
  for_each suf (Tilemap.extract_offgrid_body ids false) (acc, pre ++ suf) =
  Ok (acc ++ filter (Tilemap.id_match ids) suf, pre ++ filter unmatched suf).
Proof.
  revert acc pre. induction suf as [| a suf IH]; intros acc pre Hpre;
    cbn [for_each filter].
  - rewrite !app_nil_r. reflexivity.
  - unfold Tilemap.extract_offgrid_body at 1. unfold unmatched at 1.
    destruct (Tilemap.id_match ids a) eqn:Ha; cbn [negb bind].
    + rewrite list_remove_middle.
      * cbn [bind]. rewrite IH by exact Hpre.
        rewrite <- app_assoc. reflexivity.
      * intros b Hb. destruct (Tilemap.offgrid_eqb b a) eqn:E; [| reflexivity].
        apply (offgrid_eqb_id_match ids) in E.
        rewrite (Hpre b Hb), Ha in E. discriminate.
    + replace (pre ++ a :: suf) with ((pre ++ [a]) ++ suf)
        by (rewrite <- app_assoc; reflexivity).
      rewrite IH.
      * rewrite <- app_assoc. reflexivity.
      * intros b Hb. apply in_app_or in Hb as [Hb | [<- | []]];
          [apply Hpre, Hb | exact Ha].
Qed.

Lemma extract_grid_keep (d suf : PyDict.t (Tile Z)) (acc : list (Tile Q)) :
  (forall k v, In (k, v) suf -> PyDict.get k d = Some v) ->
  for_each (PyDict.keys suf) (Tilemap.extract_grid_body self ids true) (acc, d) =
  Ok (acc ++ map (Tilemap.scaled_copy self)
                 (filter (Tilemap.id_match ids) (PyDict.values suf)), d).
Proof.
  revert acc. induction suf as [| [k v] suf IH]; intros acc H;
    cbn [PyDict.keys PyDict.values map fst snd for_each filter].
  - rewrite app_nil_r. reflexivity.
  - unfold Tilemap.extract_grid_body at 1. unfold PyDict.getitem.
    rewrite (H k v) by (left; reflexivity). cbn [bind].
    fold (PyDict.keys suf). fold (PyDict.values suf).
    destruct (Tilemap.id_match ids v); cbn [negb bind map].
    + rewrite IH by (intros k' v' I; apply H; right; exact I).
      rewrite <- app_assoc. reflexivity.
    + apply IH. intros k' v' I. apply H. right. exact I.
Qed.

Lemma extract_grid_remove (suf pre : PyDict.t (Tile Z)) (acc : list (Tile Q)) :
  PyDict.wf (pre ++ suf) ->
  for_each (PyDict.keys suf) (Tilemap.extract_grid_body self ids false)
           (acc, pre ++ suf) =
  Ok (acc ++ map (Tilemap.scaled_copy self)
                 (filter (Tilemap.id_match ids) (PyDict.values suf)),
      pre ++ filter (fun kv => unmatched (snd kv)) suf).
Proof.
  revert pre acc. induction suf as [| [k v] suf IH]; intros pre acc W;
    cbn [PyDict.keys PyDict.values map fst snd for_each filter].
  - rewrite !app_nil_r. reflexivity.
  - assert (Hk : ~ In k (PyDict.keys pre)) by (eapply wf_head_notin, W).
    unfold Tilemap.extract_grid_body at 1. unfold PyDict.getitem.
    rewrite get_middle by exact Hk. cbn [bind].
    fold (PyDict.keys suf). fold (PyDict.values suf). unfold unmatched at 1.
    destruct (Tilemap.id_match ids v); cbn [negb bind map].
    + rewrite del_middle by exact Hk. cbn [bind].
      rewrite IH by (eapply wf_remove, W).
      rewrite <- app_assoc. reflexivity.
    + replace (pre ++ (k, v) :: suf) with ((pre ++ [(k, v)]) ++ suf)
        by (rewrite <- app_assoc; reflexivity).
      rewrite IH by (rewrite <- app_assoc; exact W).
      rewrite <- app_assoc. reflexivity.
Qed.

Lemma extract_keep_ok :
  PyDict.wf (Tilemap.tilemap self) ->
  Tilemap.extract self ids true = Ok (matching_tiles self ids, self).
Proof.
  intros W. unfold Tilemap.extract.
  rewrite extract_offgrid_keep. cbn [bind app].
  rewrite extract_grid_keep by (intros k v I; apply get_in_wf; assumption).
  cbn [bind]. destruct self; reflexivity.
Qed.

Lemma extract_remove_ok :
  PyDict.wf (Tilemap.tilemap self) ->
  Tilemap.extract self ids false =
  Ok (matching_tiles self ids, without_matches self ids).
Proof.
  intros W. unfold Tilemap.extract.
  assert (Ho := extract_offgrid_remove (Tilemap.offgrid_tiles self) [] []).
  cbn [app] in Ho. rewrite Ho by (intros b []). cbn [bind].
  assert (Hg := extract_grid_remove (Tilemap.tilemap self) []).
  cbn [app] in Hg. rewrite Hg by exact W. reflexivity.
Qed.

End Extract.

Lemma wf_filter {V : Type} (f : string * V -> bool) (d : PyDict.t V) :
  PyDict.wf d -> PyDict.wf (filter f d).
Proof.
  unfold PyDict.wf, PyDict.keys. induction d as [| kv d IH]; intros W.
  - exact W.
  - simpl in W. apply NoDup_cons_iff in W as [Hk W]. cbn [filter].
    destruct (f kv); [| apply IH, W].
    cbn [map]. apply NoDup_cons; [| apply IH, W].
    intros I. apply Hk. apply in_map_iff in I as (kv' & E & I).
    apply filter_In in I as [I _]. apply in_map_iff. exists kv'. auto.
Qed.

Lemma filter_none {A : Type} (f : A -> bool) (l : list A) :
  filter f (filter (fun a => negb (f a)) l) = [].
Proof.
  induction l as [| a l IH]; [reflexivity |]. cbn [filter].
  destruct (f a) eqn:E; cbn [negb filter]; [exact IH |].
  rewrite E. exact IH.
Qed.

Lemma filter_unmatched_again {A : Type} (f : A -> bool) (l : list A) :
  filter (fun a => negb (f a)) (filter (fun a => negb (f a)) l) =
  filter (fun a => negb (f a)) l.
Proof.
  induction l as [| a l IH]; [reflexivity |]. cbn [filter].
  destruct (f a) eqn:E; cbn [negb filter]; [exact IH |].
  rewrite E. cbn [negb]. rewrite IH. reflexivity.
Qed.

Lemma values_filter_none (ids : list (string * Z)) (d : PyDict.t (Tile Z)) :
  filter (Tilemap.id_match ids)
    (PyDict.values
       (filter (fun kv => negb (Tilemap.id_match ids (snd kv))) d)) = [].
Proof.
  induction d as [| [k v] d IH]; [reflexivity |]. cbn [filter snd].
  destruct (Tilemap.id_match ids v) eqn:E; cbn [negb]; [exact IH |].
  cbn [PyDict.values map snd filter]. rewrite E. exact IH.
Qed.

Lemma matching_tiles_without (self : Tilemap.t) (ids : list (string * Z)) :
  matching_tiles (without_matches self ids) ids = [].
Proof.
  unfold matching_tiles, without_matches.
  cbn [Tilemap.offgrid_tiles Tilemap.tilemap].
  rewrite (filter_none (Tilemap.id_match ids)), values_filter_none.
  reflexivity.
Qed.

Lemma without_matches_again (self : Tilemap.t) (ids : list (string * Z)) :
  without_matches (without_matches self ids) ids = without_matches self ids.
Proof.
  unfold without_matches.
  cbn [Tilemap.offgrid_tiles Tilemap.tilemap Tilemap.tile_size].
  rewrite (filter_unmatched_again (Tilemap.id_match ids)).
  rewrite (filter_unmatched_again
             (fun kv : string * Tile Z => Tilemap.id_match ids (snd kv))).
  reflexivity.
Qed.

(** C6: [extract] completes and returns the off-grid tiles whose
    (type, variant) is among [ids], followed by the matching grid tiles with
    their position multiplied by the tile size.  With [keep] the store is
    left as it was, so the same call gives the same answer again; without
    [keep] the store afterwards holds exactly the unmatched tiles, and the
    same call a second time returns the empty list. *)
Theorem extract_matches (self : Tilemap.t) (ids : list (string * Z)) :
  PyDict.wf (Tilemap.tilemap self) ->
  (forall tile, In tile (matching_tiles self ids) <->
     (In tile (Tilemap.offgrid_tiles self) /\ Tilemap.id_match ids tile = true)
     \/ (exists k g, PyDict.get k (Tilemap.tilemap self) = Some g /\
           Tilemap.id_match ids g = true /\
           tile = mkTile (type g) (variant g)
                    (inject_Z (fst (pos g) * Tilemap.tile_size self),
                     inject_Z (snd (pos g) * Tilemap.tile_size self))))
  /\ Tilemap.extract self ids true = Ok (matching_tiles self ids, self)
  /\ Tilemap.extract self ids false =
       Ok (matching_tiles self ids, without_matches self ids)
  /\ Tilemap.extract (without_matches self ids) ids false =
       Ok ([], without_matches self ids).
Proof.
  intros W. split; [| split; [| split]].
  - intros tile. unfold matching_tiles. rewrite in_app_iff, filter_In, in_map_iff.
    split.
    + intros [H | (g & <- & H)]; [left; exact H | right].
      apply filter_In in H as [H M].
      apply in_map_iff in H as ([k g'] & E & I). cbn [snd] in E. subst g'.
      exists k, g. split; [apply get_in_wf; assumption |]. split; [exact M |].
      reflexivity.
    + intros [H | (k & g & Hg & M & ->)]; [left; exact H | right].
      exists g. split; [reflexivity |]. apply filter_In. split; [| exact M].
      apply in_map_iff. exists (k, g). split; [reflexivity |].
      apply get_some_in, Hg.
  - apply extract_keep_ok, W.
  - apply extract_remove_ok, W.
  - rewrite extract_remove_ok.
    + rewrite matching_tiles_without, without_matches_again. reflexivity.
    + unfold without_matches. cbn [Tilemap.tilemap]. apply wf_filter, W.
Qed.

(** ** Collision resolution *)

Section Collision.
Import PhysicsEntity.

Lemma physics_rects_around_ok (tm : Tilemap.t) (p : Q * Q) :
  Tilemap.tile_size tm <> 0 ->
  exists rects, Tilemap.physics_rects_around tm p = Ok rects.
Proof.
  intros Hts. unfold Tilemap.physics_rects_around.
  rewrite tiles_around_ok by exact Hts. cbn [bind]. eexists. reflexivity.
Qed.

Lemma physics_rects_around_tile_size (tm : Tilemap.t) (p : Q * Q)
    (rects : list Rect.t) :
  Tilemap.physics_rects_around tm p = Ok rects -> Tilemap.tile_size tm <> 0.
Proof.
  unfold Tilemap.physics_rects_around, Tilemap.tiles_around, floordiv.
  intros H E. rewrite E in H. discriminate.
Qed.

Lemma Qltb_zero (q : Q) : (q == 0)%Q -> Qltb 0 q = false /\ Qltb q 0 = false.
Proof.
  intros E. split; apply Qltb_ge; rewrite E; apply Qle_refl.
Qed.

Lemma Qltb_positive (q : Q) : (0 < q)%Q -> Qltb 0 q = true /\ Qltb q 0 = false.
Proof.
  intros H. split; [apply Qltb_lt, H | apply Qltb_ge, Qlt_le_weak, H].
Qed.

Section Passes.
Variable fm : Q * Q.

Lemma x_body_miss (er r : Rect.t) (s : t) :
  Rect.colliderect er r = false -> x_body fm (er, s) r = (er, s).
Proof. intros H. unfold x_body. rewrite H. reflexivity. Qed.

Lemma y_body_miss (er r : Rect.t) (s : t) :
  Rect.colliderect er r = false -> y_body fm (er, s) r = (er, s).
Proof. intros H. unfold y_body. rewrite H. reflexivity. Qed.

(** A loop over rectangles none of which overlaps the entity rectangle
    changes nothing. *)
Lemma x_fold_clear (l : list Rect.t) (er : Rect.t) (s : t) :
  (forall r, In r l -> Rect.colliderect er r = false) ->
  fold_left (x_body fm) l (er, s) = (er, s).
Proof.
  induction l as [| r l IH]; intros H; cbn [fold_left]; [reflexivity |].
  rewrite x_body_miss by (apply H; left; reflexivity).
  apply IH. intros r' I. apply H. right. exact I.
Qed.

Lemma y_fold_clear (l : list Rect.t) (er : Rect.t) (s : t) :
  (forall r, In r l -> Rect.colliderect er r = false) ->
  fold_left (y_body fm) l (er, s) = (er, s).
Proof.
  induction l as [| r l IH]; intros H; cbn [fold_left]; [reflexivity |].
  rewrite y_body_miss by (apply H; left; reflexivity).
  apply IH. intros r' I. apply H. right. exact I.
Qed.

Lemma x_body_frame (er r : Rect.t) (s : t) :
  x_frame s (snd (x_body fm (er, s) r)).
Proof.
  unfold x_body, x_frame.
  destruct (Rect.colliderect er r), (Qltb 0 (fst fm)), (Qltb (fst fm) 0);
    cbn; repeat split; reflexivity.
Qed.

Lemma y_body_frame (er r : Rect.t) (s : t) :
  y_frame s (snd (y_body fm (er, s) r)).
Proof.
  unfold y_body, y_frame.
  destruct (Rect.colliderect er r), (Qltb 0 (snd fm)), (Qltb (snd fm) 0);
    cbn; repeat split; reflexivity.
Qed.

Lemma x_fold_frame (l : list Rect.t) (er : Rect.t) (s : t) :
  x_frame s (snd (fold_left (x_body fm) l (er, s))).
Proof.
  revert er s. induction l as [| r l IH]; intros er s; cbn [fold_left].
  - unfold x_frame. repeat split; reflexivity.
  - assert (F := x_body_frame er r s).
    destruct (x_body fm (er, s) r) as [er1 s1]. cbn [snd] in F.
    specialize (IH er1 s1). unfold x_frame in *.
    destruct F as (F1 & F2 & F3 & F4 & F5), IH as (I1 & I2 & I3 & I4 & I5).
    repeat split; congruence.
Qed.

Lemma y_fold_frame (l : list Rect.t) (er : Rect.t) (s : t) :
  y_frame s (snd (fold_left (y_body fm) l (er, s))).
Proof.
  revert er s. induction l as [| r l IH]; intros er s; cbn [fold_left].
  - unfold y_frame. repeat split; reflexivity.
  - assert (F := y_body_frame er r s).
    destruct (y_body fm (er, s) r) as [er1 s1]. cbn [snd] in F.
    specialize (IH er1 s1). unfold y_frame in *.
    destruct F as (F1 & F2 & F3 & F4 & F5), IH as (I1 & I2 & I3 & I4 & I5).
    repeat split; congruence.
Qed.

(** Once a rectangle of the list overlaps the entity rectangle, the
    coordinate written back is the integer coordinate of the rectangle the
    loop ends with. *)
Lemma x_fold_integral (l : list Rect.t) (er : Rect.t) (s : t) :
  (exists r, In r l /\ Rect.colliderect er r = true)
  \/ fst (pos s) = inject_Z (Rect.x er) ->
  let st := fold_left (x_body fm) l (er, s) in
  fst (pos (snd st)) = inject_Z (Rect.x (fst st)).
Proof.
  revert er s. induction l as [| r l IH]; intros er s H; cbn [fold_left].
  - destruct H as [(r & [] & _) | H]. exact H.
  - destruct (Rect.colliderect er r) eqn:C.
    + assert (B : fst (pos (snd (x_body fm (er, s) r))) =
                  inject_Z (Rect.x (fst (x_body fm (er, s) r)))).
      { unfold x_body. rewrite C.
        destruct (Qltb 0 (fst fm)), (Qltb (fst fm) 0); reflexivity. }
      destruct (x_body fm (er, s) r) as [er1 s1]. apply IH. right. exact B.
    + rewrite x_body_miss by exact C. apply IH.
      destruct H as [(r' & [<- | I] & C') | H]; [congruence | | right; exact H].
      left. exists r'. split; assumption.
Qed.

Lemma y_fold_integral (l : list Rect.t) (er : Rect.t) (s : t) :
  (exists r, In r l /\ Rect.colliderect er r = true)
  \/ snd (pos s) = inject_Z (Rect.y er) ->
  let st := fold_left (y_body fm) l (er, s) in
  snd (pos (snd st)) = inject_Z (Rect.y (fst st)).
Proof.
  revert er s. induction l as [| r l IH]; intros er s H; cbn [fold_left].
  - destruct H as [(r & [] & _) | H]. exact H.
  - destruct (Rect.colliderect er r) eqn:C.
    + assert (B : snd (pos (snd (y_body fm (er, s) r))) =
                  inject_Z (Rect.y (fst (y_body fm (er, s) r)))).
      { unfold y_body. rewrite C.
        destruct (Qltb 0 (snd fm)), (Qltb (snd fm) 0); reflexivity. }
      destruct (y_body fm (er, s) r) as [er1 s1]. apply IH. right. exact B.
    + rewrite y_body_miss by exact C. apply IH.
      destruct H as [(r' & [<- | I] & C') | H]; [congruence | | right; exact H].
      left. exists r'. split; assumption.
Qed.

(** The loops keep the width and height of the entity rectangle and, on the
    other axis, its coordinate. *)
Lemma x_fold_rect (l : list Rect.t) (er : Rect.t) (s : t) :
  let er' := fst (fold_left (x_body fm) l (er, s)) in
  Rect.w er' = Rect.w er /\ Rect.h er' = Rect.h er /\ Rect.y er' = Rect.y er.
Proof.
  revert er s. induction l as [| r l IH]; intros er s; cbn [fold_left].
  - cbn. auto.
  - assert (B : let er1 := fst (x_body fm (er, s) r) in
                Rect.w er1 = Rect.w er /\ Rect.h er1 = Rect.h er /\
                Rect.y er1 = Rect.y er).
    { unfold x_body.
      destruct (Rect.colliderect er r), (Qltb 0 (fst fm)), (Qltb (fst fm) 0);
        cbn; auto. }
    destruct (x_body fm (er, s) r) as [er1 s1]. cbn [fst] in B.
    specialize (IH er1 s1). cbn zeta in *.
    destruct B as (B1 & B2 & B3), IH as (I1 & I2 & I3). repeat split; congruence.
Qed.

End Passes.

Section Rightward.
Variable fm : Q * Q.
Variable ob E0 : Rect.t.
Hypothesis Hright : Qltb 0 (fst fm) = true.
Hypothesis Hnotleft : Qltb (fst fm) 0 = false.
Hypothesis Hhit : Rect.colliderect E0 ob = true.

Let E1 : Rect.t := Rect.set_right E0 (Rect.left ob).

Lemma x_body_hit_right (er r : Rect.t) (s : t) :
  Rect.colliderect er r = true ->
  x_body fm (er, s) r =
  (Rect.set_right er (Rect.left r),
   set_pos_x (set_collisions s (mark_right (collisions s)))
             (inject_Z (Rect.x (Rect.set_right er (Rect.left r))))).
Proof.
  intros C. unfold x_body. rewrite C, Hright, Hnotleft. reflexivity.
Qed.

(** Moving right with [ob] the one rectangle in the way: the loop ends with
    the entity rectangle clamped against [ob], the flag [right] set and the
    clamped coordinate written back. *)
Lemma x_fold_clamp_right (l : list Rect.t) (er : Rect.t) (s : t) :
  (forall r, In r l ->
     r = ob \/ (Rect.colliderect E0 r = false /\ Rect.colliderect E1 r = false)) ->
  (er = E0 /\ In ob l)
  \/ (er = E1 /\ right (collisions s) = true /\
      fst (pos s) = inject_Z (Rect.x E1)) ->
  let st := fold_left (x_body fm) l (er, s) in
  fst st = E1 /\ right (collisions (snd st)) = true /\
  fst (pos (snd st)) = inject_Z (Rect.x E1).
Proof.
  revert er s. induction l as [| r l IH]; intros er s Hl H; cbn [fold_left].
  - destruct H as [(_ & []) | H]. exact H.
  - assert (Hl' : forall r', In r' l ->
              r' = ob \/ (Rect.colliderect E0 r' = false /\
                          Rect.colliderect E1 r' = false))
      by (intros r' I; apply Hl; right; exact I).
    assert (Hclamped : forall s0 : t,
              x_body fm (E1, s0) ob = (E1, s0) \/
              x_body fm (E1, s0) ob =
                (E1, set_pos_x (set_collisions s0 (mark_right (collisions s0)))
                               (inject_Z (Rect.x E1)))).
    { intros s0. destruct (Rect.colliderect E1 ob) eqn:C.
      - right. rewrite x_body_hit_right by exact C. reflexivity.
      - left. apply x_body_miss, C. }
    destruct H as [(-> & I) | (-> & Hr & Hp)].
    + destruct (Hl r (or_introl eq_refl)) as [-> | (C0 & _)].
      * rewrite x_body_hit_right by exact Hhit.
        apply IH; [exact Hl' |]. right. cbn. auto.
      * rewrite x_body_miss by exact C0. apply IH; [exact Hl' |]. left.
        split; [reflexivity |]. destruct I as [-> | I]; [congruence | exact I].
    + destruct (Hl r (or_introl eq_refl)) as [-> | (_ & C1)].
      * destruct (Hclamped s) as [-> | ->]; apply IH; try exact Hl'; right;
          cbn; auto.
      * rewrite x_body_miss by exact C1. apply IH; [exact Hl' |]. right. auto.
Qed.

(** Moving right never sets the flag [left]. *)
Lemma x_fold_left_flag (l : list Rect.t) (er : Rect.t) (s : t) :
  left (collisions (snd (fold_left (x_body fm) l (er, s)))) = left (collisions s).
Proof.
  revert er s. induction l as [| r l IH]; intros er s; cbn [fold_left];
    [reflexivity |].
  assert (B : left (collisions (snd (x_body fm (er, s) r))) = left (collisions s)).
  { unfold x_body. rewrite Hright, Hnotleft.
    destruct (Rect.colliderect er r); reflexivity. }
  destruct (x_body fm (er, s) r) as [er1 s1]. rewrite IH. exact B.
Qed.

End Rightward.

Section Downward.
Variable fm : Q * Q.
Hypothesis Hdown : Qltb 0 (snd fm) = true.

Lemma y_fold_down (l : list Rect.t) (er : Rect.t) (s : t) :
  (exists r, In r l /\ Rect.colliderect er r = true)
  \/ down (collisions s) = true ->
  down (collisions (snd (fold_left (y_body fm) l (er, s)))) = true.
Proof.
  revert er s. induction l as [| r l IH]; intros er s H; cbn [fold_left].
  - destruct H as [(r & [] & _) | H]. exact H.
  - destruct (Rect.colliderect er r) eqn:C.
    + assert (B : down (collisions (snd (y_body fm (er, s) r))) = true).
      { unfold y_body. rewrite C, Hdown.
        destruct (Qltb (snd fm) 0); reflexivity. }
      destruct (y_body fm (er, s) r) as [er1 s1]. apply IH. right. exact B.
    + rewrite y_body_miss by exact C. apply IH.
      destruct H as [(r' & [<- | I] & C') | H]; [congruence | | right; exact H].
      left. exists r'. split; assumption.
Qed.

End Downward.

Section Still.
Variable fm : Q * Q.

Lemma x_body_hit_still (er r : Rect.t) (s : t) :
  Qltb 0 (fst fm) = false -> Qltb (fst fm) 0 = false ->
  Rect.colliderect er r = true ->
  x_body fm (er, s) r = (er, set_pos_x s (inject_Z (Rect.x er))).
Proof. intros Hp Hn C. unfold x_body. rewrite C, Hp, Hn. reflexivity. Qed.

Lemma y_body_hit_still (er r : Rect.t) (s : t) :
  Qltb 0 (snd fm) = false -> Qltb (snd fm) 0 = false ->
  Rect.colliderect er r = true ->
  y_body fm (er, s) r = (er, set_pos_y s (inject_Z (Rect.y er))).
Proof. intros Hp Hn C. unfold y_body. rewrite C, Hp, Hn. reflexivity. Qed.

(** With no movement on the axis the loop clamps nothing and sets no flag;
    on an overlap it still writes the integer coordinate of the rectangle
    back into the position. *)
Lemma x_fold_still (l : list Rect.t) (er : Rect.t) (s : t) :
  Qltb 0 (fst fm) = false -> Qltb (fst fm) 0 = false ->
  let st := fold_left (x_body fm) l (er, s) in
  fst st = er /\ collisions (snd st) = collisions s /\
  (fst (pos (snd st)) = fst (pos s) \/
   fst (pos (snd st)) = inject_Z (Rect.x er)) /\
  ((forall r, In r l -> Rect.colliderect er r = false) -> snd st = s).
Proof.
  intros Hp Hn. revert s. induction l as [| r l IH]; intros s; cbn [fold_left].
  - cbn. auto.
  - destruct (Rect.colliderect er r) eqn:C.
    + rewrite x_body_hit_still by assumption.
      destruct (IH (set_pos_x s (inject_Z (Rect.x er)))) as (I1 & I2 & I3 & _).
      split; [exact I1 |]. split; [exact I2 |]. split.
      * right. destruct I3 as [I3 | I3]; exact I3.
      * intros Hall. rewrite (Hall r (or_introl eq_refl)) in C. discriminate.
    + rewrite x_body_miss by exact C.
      destruct (IH s) as (I1 & I2 & I3 & I4).
      split; [exact I1 |]. split; [exact I2 |]. split; [exact I3 |].
      intros Hall. apply I4. intros r' I. apply Hall. right. exact I.
Qed.

Lemma y_fold_still (l : list Rect.t) (er : Rect.t) (s : t) :
  Qltb 0 (snd fm) = false -> Qltb (snd fm) 0 = false ->
  let st := fold_left (y_body fm) l (er, s) in
  fst st = er /\ collisions (snd st) = collisions s /\
  (snd (pos (snd st)) = snd (pos s) \/
   snd (pos (snd st)) = inject_Z (Rect.y er)) /\
  ((forall r, In r l -> Rect.colliderect er r = false) -> snd st = s).
Proof.
  intros Hp Hn. revert s. induction l as [| r l IH]; intros s; cbn [fold_left].
  - cbn. auto.
  - destruct (Rect.colliderect er r) eqn:C.
    + rewrite y_body_hit_still by assumption.
      destruct (IH (set_pos_y s (inject_Z (Rect.y er)))) as (I1 & I2 & I3 & _).
      split; [exact I1 |]. split; [exact I2 |]. split.
      * right. destruct I3 as [I3 | I3]; exact I3.
      * intros Hall. rewrite (Hall r (or_introl eq_refl)) in C. discriminate.
    + rewrite y_body_miss by exact C.
      destruct (IH s) as (I1 & I2 & I3 & I4).
      split; [exact I1 |]. split; [exact I2 |]. split; [exact I3 |].
      intros Hall. apply I4. intros r' I. apply Hall. right. exact I.
Qed.

End Still.

Section StillPosition.
Variable fm : Q * Q.

(** With no movement on the axis, the position the loop leaves: the integer
    coordinate of the rectangle when some rectangle of the list overlaps
    it, the old position otherwise. *)
Lemma x_fold_still_pos (l : list Rect.t) (er : Rect.t) (s : t) :
  Qltb 0 (fst fm) = false -> Qltb (fst fm) 0 = false ->
  fst (pos (snd (fold_left (x_body fm) l (er, s)))) =
  if existsb (Rect.colliderect er) l then inject_Z (Rect.x er)
  else fst (pos s).
Proof.
  intros Hp Hn. revert s. induction l as [| r l IH]; intros s;
    cbn [fold_left existsb]; [reflexivity |].
  destruct (Rect.colliderect er r) eqn:C; cbn [orb].
  - rewrite (x_body_hit_still fm) by assumption. rewrite IH.
    destruct (existsb (Rect.colliderect er) l); reflexivity.
  - rewrite (x_body_miss fm) by exact C. apply IH.
Qed.

Lemma y_fold_still_pos (l : list Rect.t) (er : Rect.t) (s : t) :
  Qltb 0 (snd fm) = false -> Qltb (snd fm) 0 = false ->
  snd (pos (snd (fold_left (y_body fm) l (er, s)))) =
  if existsb (Rect.colliderect er) l then inject_Z (Rect.y er)
  else snd (pos s).
Proof.
  intros Hp Hn. revert s. induction l as [| r l IH]; intros s;
    cbn [fold_left existsb]; [reflexivity |].
  destruct (Rect.colliderect er r) eqn:C; cbn [orb].
  - rewrite (y_body_hit_still fm) by assumption. rewrite IH.
    destruct (existsb (Rect.colliderect er) l); reflexivity.
  - rewrite (y_body_miss fm) by exact C. apply IH.
Qed.

End StillPosition.

(** *** The structure of [update] *)

Lemma x_pass_eq (s : t) (tm : Tilemap.t) (fm : Q * Q) (rects : list Rect.t) :
  Tilemap.physics_rects_around tm (pos (move_x s fm)) = Ok rects ->
  x_pass s tm fm = Ok (after_x s fm rects).
Proof. intros H. unfold x_pass. cbn zeta. rewrite H. reflexivity. Qed.

Lemma y_pass_eq (s : t) (tm : Tilemap.t) (fm : Q * Q) (rects : list Rect.t) :
  Tilemap.physics_rects_around tm (pos (move_y s fm)) = Ok rects ->
  y_pass s tm fm = Ok (after_y s fm rects).
Proof. intros H. unfold y_pass. cbn zeta. rewrite H. reflexivity. Qed.

(** With a non-zero tile size [update] completes; its result is the end of
    the two passes followed by [finish]. *)
Lemma update_ok (self : t) (tm : Tilemap.t) (movement : Q * Q) :
  Tilemap.tile_size tm <> 0 ->
  let fm := frame_movement self movement in
  exists rx ry,
    Tilemap.physics_rects_around tm (pos (move_x (reset self) fm)) = Ok rx /\
    Tilemap.physics_rects_around tm (pos (move_y (after_x (reset self) fm rx) fm))
      = Ok ry /\
    x_pass (reset self) tm fm = Ok (after_x (reset self) fm rx) /\
    update self tm movement =
      Ok (finish (after_y (after_x (reset self) fm rx) fm ry) movement).
Proof.
  intros Hts fm.
  destruct (physics_rects_around_ok tm (pos (move_x (reset self) fm)) Hts)
    as [rx Hx].
  destruct (physics_rects_around_ok tm
              (pos (move_y (after_x (reset self) fm rx) fm)) Hts) as [ry Hy].
  exists rx, ry. split; [exact Hx |]. split; [exact Hy |].
  split; [apply x_pass_eq, Hx |].
  unfold update. cbn zeta. fold (reset self).
  change (frame_movement (reset self) movement) with fm.
  rewrite (x_pass_eq _ _ _ _ Hx). cbn [bind].
  rewrite (y_pass_eq _ _ _ _ Hy). reflexivity.
Qed.

Lemma finish_collisions (s : t) (movement : Q * Q) :
  collisions (finish s movement) = collisions s.
Proof.
  unfold finish. cbn zeta.
  destruct (Qltb 0 (fst movement)), (Qltb (fst movement) 0); cbn;
    destruct (down (collisions s) || up (collisions s)); reflexivity.
Qed.

Lemma finish_pos (s : t) (movement : Q * Q) : pos (finish s movement) = pos s.
Proof.
  unfold finish. cbn zeta.
  destruct (Qltb 0 (fst movement)), (Qltb (fst movement) 0); cbn;
    destruct (down (collisions s) || up (collisions s)); reflexivity.
Qed.

Lemma finish_size (s : t) (movement : Q * Q) : size (finish s movement) = size s.
Proof.
  unfold finish. cbn zeta.
  destruct (Qltb 0 (fst movement)), (Qltb (fst movement) 0); cbn;
    destruct (down (collisions s) || up (collisions s)); reflexivity.
Qed.

Lemma finish_velocity_y (s : t) (movement : Q * Q) :
  snd (velocity (finish s movement)) =
  if down (collisions s) || up (collisions s) then inject_Z 0
  else py_min (inject_Z 5) (snd (velocity s) + (1 # 10))%Q.
Proof.
  unfold finish. cbn zeta.
  destruct (Qltb 0 (fst movement)), (Qltb (fst movement) 0); cbn;
    destruct (down (collisions s) || up (collisions s)); reflexivity.
Qed.

Lemma after_x_frame (s : t) (fm : Q * Q) (rects : list Rect.t) :
  x_frame s (after_x s fm rects).
Proof.
  unfold after_x.
  assert (F := x_fold_frame fm rects (rect (move_x s fm)) (move_x s fm)).
  unfold x_frame in *. cbn [move_x set_pos_x size velocity pos collisions snd] in F.
  exact F.
Qed.

Lemma after_y_frame (s : t) (fm : Q * Q) (rects : list Rect.t) :
  y_frame s (after_y s fm rects).
Proof.
  unfold after_y.
  assert (F := y_fold_frame fm rects (rect (move_y s fm)) (move_y s fm)).
  unfold y_frame in *. cbn [move_y set_pos_y size velocity pos collisions fst] in F.
  exact F.
Qed.

Lemma rect_right_eq (s s' : t) :
  size s' = size s -> fst (pos s') = fst (pos s) ->
  Rect.right (rect s') = Rect.right (rect s).
Proof.
  intros Hs Hp. unfold Rect.right, rect. cbn [Rect.x Rect.w].
  rewrite Hs, Hp. reflexivity.
Qed.

(** C1: an entity whose frame movement points right (3, or any positive
    amount) and whose moved rectangle overlaps a physics rectangle [ob] of
    its neighbourhood, no other rectangle being in the way, ends the
    horizontal pass with [right] set, [left], [up] and [down] false, and the
    right edge of its rectangle on the left edge of [ob].  At the end of the
    whole update [right] is still set and the edges still coincide, and
    [up] and [down] are false when there is no vertical frame movement or
    nothing overlaps the entity in the vertical pass. *)
Theorem rightward_collision_stops (self : t) (tilemap : Tilemap.t)
    (movement : Q * Q) (rects : list Rect.t) (ob : Rect.t) :
  let fm := frame_movement self movement in
  let moved := move_x (reset self) fm in
  (0 < fst fm)%Q ->
  Tilemap.physics_rects_around tilemap (pos moved) = Ok rects ->
  In ob rects ->
  Rect.colliderect (rect moved) ob = true ->
  (forall r, In r rects ->
     r = ob \/
     (Rect.colliderect (rect moved) r = false /\
      Rect.colliderect (Rect.set_right (rect moved) (Rect.left ob)) r = false)) ->
  exists sx s',
    x_pass (reset self) tilemap fm = Ok sx /\
    right (collisions sx) = true /\ left (collisions sx) = false /\
    up (collisions sx) = false /\ down (collisions sx) = false /\
    Rect.right (rect sx) = Rect.left ob /\
    update self tilemap movement = Ok s' /\
    right (collisions s') = true /\
    Rect.right (rect s') = Rect.left ob /\
    ((snd fm == 0)%Q \/
     (forall ry r,
        Tilemap.physics_rects_around tilemap (pos (move_y sx fm)) = Ok ry ->
        In r ry -> Rect.colliderect (rect (move_y sx fm)) r = false) ->
     up (collisions s') = false /\ down (collisions s') = false).
Proof.
  intros fm moved Hfm Hrects Hin Hhit Hothers.
  assert (Hts := physics_rects_around_tile_size _ _ _ Hrects).
  destruct (update_ok self tilemap movement Hts) as (rx & ry & Hx & Hy & Hxp & Hup).
  fold fm in Hx, Hy, Hxp, Hup. fold moved in Hx.
  rewrite Hrects in Hx. injection Hx as <-.
  set (sx := after_x (reset self) fm rects) in *.
  destruct (Qltb_positive _ Hfm) as [Hp Hn].
  destruct (x_fold_clamp_right fm ob (rect moved) Hp Hn Hhit rects (rect moved)
              moved Hothers (or_introl (conj eq_refl Hin))) as (_ & Hr & Hpos).
  fold moved in sx. change (snd (fold_left (x_body fm) rects (rect moved, moved)))
    with sx in Hr, Hpos.
  assert (Hl := x_fold_left_flag fm Hp Hn rects (rect moved) moved).
  change (snd (fold_left (x_body fm) rects (rect moved, moved))) with sx in Hl.
  destruct (after_x_frame (reset self) fm rects) as (Fs & _ & _ & Fu & Fd).
  fold sx in Fs, Fu, Fd.
  assert (Hedge : Rect.right (rect sx) = Rect.left ob).
  { unfold Rect.right, rect. cbn [Rect.x Rect.w]. rewrite Hpos, to_int_inject_Z, Fs.
    unfold Rect.set_right, Rect.left, moved, rect, move_x, reset.
    cbn [Rect.x Rect.w size set_pos_x set_collisions]. lia. }
  set (sy := after_y sx fm ry) in *.
  destruct (after_y_frame sx fm ry) as (Gs & _ & Gp & Gr & _).
  fold sy in Gs, Gp, Gr.
  exists sx, (finish sy movement).
  split; [exact Hxp |]. split; [exact Hr |]. split; [rewrite Hl; reflexivity |].
  split; [rewrite Fu; reflexivity |]. split; [rewrite Fd; reflexivity |].
  split; [exact Hedge |]. split; [exact Hup |].
  rewrite finish_collisions. split; [rewrite Gr; exact Hr |]. split.
  - rewrite <- Hedge. apply rect_right_eq.
    + rewrite finish_size. exact Gs.
    + rewrite finish_pos. exact Gp.
  - assert (Hc : (snd fm == 0)%Q \/
              (forall ry r,
                 Tilemap.physics_rects_around tilemap (pos (move_y sx fm)) = Ok ry ->
                 In r ry -> Rect.colliderect (rect (move_y sx fm)) r = false) ->
              collisions sy = collisions sx).
    { intros [Hz | Hclear].
      - destruct (Qltb_zero _ Hz) as [Zp Zn].
        destruct (y_fold_still fm ry (rect (move_y sx fm)) (move_y sx fm) Zp Zn)
          as (_ & Hc & _).
        exact Hc.
      - unfold sy, after_y.
        rewrite y_fold_clear by (intros r I; exact (Hclear ry r Hy I)).
        reflexivity. }
    intros H. rewrite (Hc H), Fu, Fd. auto.
Qed.

(** A rectangle whose right edge lies on the left edge of another does not
    overlap it. *)
Lemma clamped_clear_of_obstacle (e ob : Rect.t) :
  0 < Rect.w e -> 0 < Rect.w ob -> Rect.right e = Rect.left ob ->
  Rect.colliderect e ob = false.
Proof.
  unfold Rect.right, Rect.left, Rect.colliderect. intros He Hob Hedge.
  destruct (_ || _); [reflexivity |].
  rewrite (Z.max_r (Rect.x e)), (Z.min_l (Rect.x ob)) by lia.
  assert (G : (Rect.x e + Rect.w e >? Rect.x ob) = false)
    by (rewrite Z.gtb_ltb; apply Z.ltb_ge; lia).
  rewrite G, andb_false_r. reflexivity.
Qed.

Lemma after_passes_velocity (self : t) (fm : Q * Q) (rx ry : list Rect.t) :
  velocity (after_y (after_x (reset self) fm rx) fm ry) = velocity self.
Proof.
  destruct (after_y_frame (after_x (reset self) fm rx) fm ry) as (_ & V & _).
  destruct (after_x_frame (reset self) fm rx) as (_ & V' & _).
  rewrite V, V'. reflexivity.
Qed.

(** C7: with a non-zero tile size every update completes, and the vertical
    velocity it leaves is at most 5; it is 0 when the update ended with [up]
    or [down] set, and otherwise [min(5, velocity.y + 0.1)], which is the old
    value plus 0.1 as long as that does not exceed 5.  In particular, when
    the entity moves down and its rectangle overlaps a physics rectangle in
    the vertical pass, the update ends with [down] set and the vertical
    velocity 0. *)
Theorem gravity_and_landing (self : t) (tilemap : Tilemap.t) (movement : Q * Q) :
  Tilemap.tile_size tilemap <> 0 ->
  let fm := frame_movement self movement in
  let vy := snd (velocity self) in
  exists s',
    update self tilemap movement = Ok s' /\
    (snd (velocity s') <= inject_Z 5)%Q /\
    (down (collisions s') || up (collisions s') = true ->
     snd (velocity s') = inject_Z 0) /\
    (down (collisions s') || up (collisions s') = false ->
     snd (velocity s') = py_min (inject_Z 5) (vy + (1 # 10))%Q /\
     ((vy + (1 # 10) <= inject_Z 5)%Q ->
      (snd (velocity s') == vy + (1 # 10))%Q)) /\
    (forall sx ry r,
       x_pass (reset self) tilemap fm = Ok sx ->
       Tilemap.physics_rects_around tilemap (pos (move_y sx fm)) = Ok ry ->
       In r ry -> Rect.colliderect (rect (move_y sx fm)) r = true ->
       (0 < snd fm)%Q ->
       down (collisions s') = true /\ snd (velocity s') = inject_Z 0).
Proof.
  intros Hts fm vy.
  destruct (update_ok self tilemap movement Hts) as (rx & ry & Hx & Hy & Hxp & Hup).
  fold fm in Hx, Hy, Hxp, Hup.
  set (sx := after_x (reset self) fm rx) in *.
  set (sy := after_y sx fm ry) in *.
  assert (Hv : snd (velocity (finish sy movement)) =
               if down (collisions sy) || up (collisions sy) then inject_Z 0
               else py_min (inject_Z 5) (vy + (1 # 10))%Q).
  { rewrite finish_velocity_y. unfold sy, sx.
    rewrite after_passes_velocity. reflexivity. }
  exists (finish sy movement). split; [exact Hup |].
  rewrite finish_collisions, Hv. split; [| split; [| split]].
  - destruct (down (collisions sy) || up (collisions sy)).
    + unfold Qle. simpl. lia.
    + apply py_min_le_l.
  - intros ->. reflexivity.
  - intros ->. split; [reflexivity |]. intros Hle. apply py_min_r, Hle.
  - intros sx' ry' r Hxp' Hy' Hin Hhit Hpos.
    rewrite Hxp in Hxp'. injection Hxp' as <-.
    rewrite Hy in Hy'. injection Hy' as <-.
    assert (Hd : down (collisions sy) = true).
    { apply (y_fold_down fm (proj2 (Qltb_lt _ _) Hpos) ry).
      left. exists r. split; assumption. }
    rewrite Hd. cbn [orb]. split; reflexivity.
Qed.

(** C9: with a non-zero tile size every update completes, and on an axis on
    which the moved rectangle of the entity overlaps a physics rectangle of
    its neighbourhood, the coordinate the update leaves in [pos] is an
    integer: the coordinate of the entity rectangle, any fraction gone. *)
Theorem collision_writes_integer (self : t) (tilemap : Tilemap.t)
    (movement : Q * Q) :
  Tilemap.tile_size tilemap <> 0 ->
  let fm := frame_movement self movement in
  exists s',
    update self tilemap movement = Ok s' /\
    (forall rx r,
       Tilemap.physics_rects_around tilemap (pos (move_x (reset self) fm)) = Ok rx ->
       In r rx -> Rect.colliderect (rect (move_x (reset self) fm)) r = true ->
       fst (pos s') = inject_Z (Rect.x (rect s'))) /\
    (forall sx ry r,
       x_pass (reset self) tilemap fm = Ok sx ->
       Tilemap.physics_rects_around tilemap (pos (move_y sx fm)) = Ok ry ->
       In r ry -> Rect.colliderect (rect (move_y sx fm)) r = true ->
       snd (pos s') = inject_Z (Rect.y (rect s'))).
Proof.
  intros Hts fm.
  destruct (update_ok self tilemap movement Hts) as (rx & ry & Hx & Hy & Hxp & Hup).
  fold fm in Hx, Hy, Hxp, Hup.
  set (sx := after_x (reset self) fm rx) in *.
  set (sy := after_y sx fm ry) in *.
  exists (finish sy movement). split; [exact Hup |].
  unfold rect at 2 4. cbn [Rect.x Rect.y]. rewrite finish_pos. split.
  - intros rx' r Hx' Hin Hhit. rewrite Hx in Hx'. injection Hx' as <-.
    destruct (after_y_frame sx fm ry) as (_ & _ & P & _). fold sy in P.
    rewrite P.
    assert (I := x_fold_integral fm rx (rect (move_x (reset self) fm))
                   (move_x (reset self) fm)
                   (or_introl (ex_intro _ r (conj Hin Hhit)))).
    cbn zeta in I. fold (after_x (reset self) fm rx) in I. fold sx in I.
    rewrite I, to_int_inject_Z. reflexivity.
  - intros sx' ry' r Hxp' Hy' Hin Hhit.
    rewrite Hxp in Hxp'. injection Hxp' as <-.
    rewrite Hy in Hy'. injection Hy' as <-.
    assert (I := y_fold_integral fm ry (rect (move_y sx fm)) (move_y sx fm)
                   (or_introl (ex_intro _ r (conj Hin Hhit)))).
    cbn zeta in I. fold (after_y sx fm ry) in I. fold sy in I.
    rewrite I, to_int_inject_Z. reflexivity.
Qed.

(** C10 as stated fails: with a zero frame movement on an axis the pass can
    still move the entity: an entity at x = 1/2 that overlaps a tile and
    does not move at all ends the update at x = 0. *)
Lemma stationary_overlap_loses_fraction :
  (fst (frame_movement (entity_at (1 # 2) 0) (0 # 1, 0 # 1)) == 0)%Q /\
  exists s',
    update (entity_at (1 # 2) 0) block_store (0 # 1, 0 # 1)%Q = Ok s' /\
    ~ (fst (pos s') == fst (pos (entity_at (1 # 2) 0)))%Q.
Proof.
  split; [reflexivity |]. eexists. split; [vm_compute; reflexivity |].
  cbn. intros H. discriminate H.
Qed.

(** C10, amended: with a non-zero tile size every update completes, and on
    an axis whose frame movement is zero it sets neither flag of that axis
    and leaves the coordinate of the entity rectangle where it was.  The
    position coordinate is decided by the overlap test of that pass: when
    the entity rectangle overlaps one of the physics rectangles around it,
    the coordinate is overwritten with the integer coordinate of the
    rectangle (a fractional part is dropped); when it overlaps none, the
    coordinate is unchanged.  When both components are zero all four flags
    are false and the rectangle is the one the entity had, so whatever it
    overlapped it still overlaps. *)
Theorem zero_movement_keeps_rect (self : t) (tilemap : Tilemap.t)
    (movement : Q * Q) :
  Tilemap.tile_size tilemap <> 0 ->
  let fm := frame_movement self movement in
  exists s',
    update self tilemap movement = Ok s' /\
    ((fst fm == 0)%Q ->
     right (collisions s') = false /\ left (collisions s') = false /\
     Rect.x (rect s') = Rect.x (rect self) /\
     forall rx,
       Tilemap.physics_rects_around tilemap (pos (move_x (reset self) fm))
         = Ok rx ->
       (existsb (Rect.colliderect (rect self)) rx = true ->
        fst (pos s') = inject_Z (Rect.x (rect self))) /\
       (existsb (Rect.colliderect (rect self)) rx = false ->
        (fst (pos s') == fst (pos self))%Q)) /\
    ((snd fm == 0)%Q ->
     up (collisions s') = false /\ down (collisions s') = false /\
     Rect.y (rect s') = Rect.y (rect self) /\
     forall sx ry,
       x_pass (reset self) tilemap fm = Ok sx ->
       Tilemap.physics_rects_around tilemap (pos (move_y sx fm)) = Ok ry ->
       (existsb (Rect.colliderect (rect sx)) ry = true ->
        snd (pos s') = inject_Z (Rect.y (rect self))) /\
       (existsb (Rect.colliderect (rect sx)) ry = false ->
        (snd (pos s') == snd (pos self))%Q)) /\
    ((fst fm == 0)%Q -> (snd fm == 0)%Q ->
     collisions s' = no_collisions /\ rect s' = rect self).
Proof.
  intros Hts fm.
  destruct (update_ok self tilemap movement Hts) as (rx & ry & Hx & Hy & Hxp & Hup).
  fold fm in Hx, Hy, Hxp, Hup.
  set (sx := after_x (reset self) fm rx) in *.
  set (sy := after_y sx fm ry) in *.
  destruct (after_x_frame (reset self) fm rx) as (Fs & _ & Fp & Fu & Fd).
  fold sx in Fs, Fp, Fu, Fd.
  destruct (after_y_frame sx fm ry) as (Gs & _ & Gp & Gr & Gl).
  fold sy in Gs, Gp, Gr, Gl.
  assert (HX : (fst fm == 0)%Q ->
               collisions sx = no_collisions /\
               rect (move_x (reset self) fm) = rect self /\
               fst (pos sx) =
                 (if existsb (Rect.colliderect (rect self)) rx
                  then inject_Z (Rect.x (rect self))
                  else (fst (pos self) + fst fm)%Q)).
  { intros Hz. destruct (Qltb_zero _ Hz) as [Zp Zn].
    destruct (x_fold_still fm rx (rect (move_x (reset self) fm))
                (move_x (reset self) fm) Zp Zn) as (_ & Hc & _).
    assert (Hp := x_fold_still_pos fm rx (rect (move_x (reset self) fm))
                    (move_x (reset self) fm) Zp Zn).
    fold (after_x (reset self) fm rx) in Hc, Hp. fold sx in Hc, Hp.
    assert (Hq : (fst (pos self) + fst fm == fst (pos self))%Q)
      by (rewrite Hz; apply Qplus_0_r).
    assert (Hr : rect (move_x (reset self) fm) = rect self).
    { unfold rect.
      cbn [move_x reset set_pos_x set_collisions pos size fst snd].
      rewrite (to_int_Qeq _ _ Hq). reflexivity. }
    rewrite Hr in Hp.
    split; [exact Hc |]. split; [exact Hr |]. exact Hp. }
  assert (HY : (snd fm == 0)%Q ->
               collisions sy = collisions sx /\
               rect (move_y sx fm) = rect sx /\
               snd (pos sy) =
                 (if existsb (Rect.colliderect (rect sx)) ry
                  then inject_Z (Rect.y (rect sx))
                  else (snd (pos sx) + snd fm)%Q)).
  { intros Hz. destruct (Qltb_zero _ Hz) as [Zp Zn].
    destruct (y_fold_still fm ry (rect (move_y sx fm)) (move_y sx fm) Zp Zn)
      as (_ & Hc & _).
    assert (Hp := y_fold_still_pos fm ry (rect (move_y sx fm)) (move_y sx fm)
                    Zp Zn).
    fold (after_y sx fm ry) in Hc, Hp. fold sy in Hc, Hp.
    assert (Hq : (snd (pos sx) + snd fm == snd (pos sx))%Q)
      by (rewrite Hz; apply Qplus_0_r).
    assert (Hr : rect (move_y sx fm) = rect sx).
    { unfold rect. cbn [move_y set_pos_y pos size fst snd].
      rewrite (to_int_Qeq _ _ Hq). reflexivity. }
    rewrite Hr in Hp.
    split; [exact Hc |]. split; [exact Hr |]. exact Hp. }
  assert (Py : snd (pos sx) = snd (pos self)) by exact Fp.
  assert (Ry : Rect.y (rect sx) = Rect.y (rect self))
    by (unfold rect; cbn [Rect.y]; rewrite Py; reflexivity).
  exists (finish sy movement). split; [exact Hup |].
  rewrite finish_collisions, finish_pos.
  assert (Rf : rect (finish sy movement) = rect sy)
    by (unfold rect; rewrite finish_pos, finish_size; reflexivity).
  rewrite Rf.
  split; [| split].
  - intros Hz. destruct (HX Hz) as (Hc & Hr & Hp).
    assert (Hq : (fst (pos self) + fst fm == fst (pos self))%Q)
      by (rewrite Hz; apply Qplus_0_r).
    rewrite Gr, Gl, Gp, Hc.
    split; [reflexivity |]. split; [reflexivity |]. split.
    + unfold rect. cbn [Rect.x]. rewrite Gp, Hp.
      destruct (existsb (Rect.colliderect (rect self)) rx).
      * rewrite to_int_inject_Z. reflexivity.
      * apply to_int_Qeq, Hq.
    + intros rx' Hx'. rewrite Hx in Hx'. injection Hx' as <-.
      rewrite Hp. split; intros E; rewrite E; [reflexivity | exact Hq].
  - intros Hz. destruct (HY Hz) as (Hc & Hr & Hp).
    assert (Hq : (snd (pos sx) + snd fm == snd (pos self))%Q)
      by (rewrite Py, Hz; apply Qplus_0_r).
    cbn [reset set_collisions collisions no_collisions up down] in Fu, Fd.
    split; [rewrite Hc, Fu; reflexivity |].
    split; [rewrite Hc, Fd; reflexivity |]. split.
    + unfold rect at 1. cbn [Rect.y]. rewrite Hp.
      destruct (existsb (Rect.colliderect (rect sx)) ry).
      * rewrite to_int_inject_Z. exact Ry.
      * unfold rect. cbn [Rect.y]. apply to_int_Qeq, Hq.
    + intros sx' ry' Hxp' Hy'.
      rewrite Hxp in Hxp'. injection Hxp' as <-.
      rewrite Hy in Hy'. injection Hy' as <-.
      rewrite Hp, Ry. split; intros E; rewrite E; [reflexivity | exact Hq].
  - intros Hzx Hzy. destruct (HX Hzx) as (Hcx & Hrx & Hpx).
    destruct (HY Hzy) as (Hcy & Hry & Hpy).
    split; [rewrite Hcy; exact Hcx |].
    assert (Hqx : (fst (pos self) + fst fm == fst (pos self))%Q)
      by (rewrite Hzx; apply Qplus_0_r).
    assert (Hqy : (snd (pos sx) + snd fm == snd (pos self))%Q)
      by (rewrite Py, Hzy; apply Qplus_0_r).
    unfold rect at 1. rewrite Gp, Hpx, Hpy, Gs, Fs.
    cbn [reset set_collisions size].
    assert (Ex : to_int (if existsb (Rect.colliderect (rect self)) rx
                         then inject_Z (Rect.x (rect self))
                         else (fst (pos self) + fst fm)%Q)
                 = to_int (fst (pos self))).
    { destruct (existsb (Rect.colliderect (rect self)) rx).
      - rewrite to_int_inject_Z. reflexivity.
      - apply to_int_Qeq, Hqx. }
    assert (Ey : to_int (if existsb (Rect.colliderect (rect sx)) ry
                         then inject_Z (Rect.y (rect sx))
                         else (snd (pos sx) + snd fm)%Q)
                 = to_int (snd (pos self))).
    { destruct (existsb (Rect.colliderect (rect sx)) ry).
      - rewrite to_int_inject_Z. exact Ry.
      - apply to_int_Qeq, Hqy. }
    rewrite Ex, Ey. reflexivity.
Qed.

End Collision.

(** ** The properties at work on the example data *)

Lemma distinct_wf {V : Type} (d : PyDict.t V) :
  distinct (PyDict.keys d) = true -> PyDict.wf d.
Proof.
  unfold PyDict.wf. induction (PyDict.keys d) as [| k l IH]; intros H.
  - apply NoDup_nil.
  - cbn [distinct] in H. apply andb_prop in H as [Hk Hl].
    apply NoDup_cons; [| apply IH, Hl].
    intros I. apply negb_true_iff in Hk.
    assert (E : existsb (String.eqb k) l = true).
    { apply existsb_exists. exists k. split; [exact I | apply String.eqb_refl]. }
    rewrite E in Hk. discriminate Hk.
Qed.

Lemma tiles_around_neighbourhood_witness :
  Tilemap.tile_size cross_store <> 0 /\
  Tilemap.tiles_around cross_store (20 # 1, 5 # 1)%Q =
  Ok [ mkTile "grass"%string 0 (1, 0); mkTile "grass"%string 0 (0, 1);
       mkTile "grass"%string 0 (0, 0); mkTile "grass"%string 0 (0, -1) ].
Proof.
  assert (H : Tilemap.tile_size cross_store <> 0) by (cbn; lia).
  split; [exact H |].
  destruct (tiles_around_neighbourhood cross_store (20 # 1, 5 # 1)%Q H)
    as (E & _ & _).
  rewrite E. vm_compute. reflexivity.
Defined.

Lemma solid_check_single_cell_witness :
  Tilemap.tile_size cross_store <> 0 /\
  Tilemap.solid_check cross_store (85 # 1, 171 # 2)%Q = Ok None /\
  Tilemap.solid_check cross_store (1 # 2, -5 # 1)%Q =
    Ok (Some (mkTile "grass"%string 0 (0, -1))).
Proof.
  assert (H : Tilemap.tile_size cross_store <> 0) by (cbn; lia).
  split; [exact H |]. split.
  - destruct (solid_check_single_cell cross_store (85 # 1, 171 # 2)%Q H)
      as (_ & Hdecor & _).
    apply (Hdecor (mkTile "decor"%string 2 (5, 5))); reflexivity.
  - destruct (solid_check_single_cell cross_store (1 # 2, -5 # 1)%Q H)
      as (Hsolid & _ & _).
    apply Hsolid; reflexivity.
Defined.

Lemma autotile_idempotent_witness :
  PyDict.wf (Tilemap.tilemap cross_store) /\
  exists once,
    Tilemap.autotile cross_store = Ok once /\ Tilemap.autotile once = Ok once.
Proof.
  assert (W : PyDict.wf (Tilemap.tilemap cross_store))
    by (apply distinct_wf; reflexivity).
  split; [exact W |]. exact (autotile_idempotent cross_store W).
Defined.

Lemma autotile_variants_witness :
  PyDict.wf (Tilemap.tilemap cross_store) /\
  PyDict.get "0;0" (Tilemap.tilemap cross_store) =
    Some (mkTile "grass"%string 0 (0, 0)) /\
  exists after tile',
    Tilemap.autotile cross_store = Ok after /\
    PyDict.get "0;0" (Tilemap.tilemap after) = Some tile' /\
    variant tile' = 8.
Proof.
  assert (W : PyDict.wf (Tilemap.tilemap cross_store))
    by (apply distinct_wf; reflexivity).
  split; [exact W |]. split; [reflexivity |].
  destruct (autotile_variants cross_store "0;0" (mkTile "grass"%string 0 (0, 0))
              W eq_refl)
    as (after & tile' & Hrun & Hget & _ & _ & Hcross & _).
  exists after, tile'. split; [exact Hrun |]. split; [exact Hget |].
  apply Hcross; reflexivity.
Defined.

Lemma extract_matches_witness :
  PyDict.wf (Tilemap.tilemap cross_store) /\
  exists rest,
    Tilemap.extract cross_store
      [("spawners"%string, 0); ("spawners"%string, 1)] false =
    Ok ([ mkTile "spawners"%string 0 (3 # 2, 40 # 1)%Q;
          mkTile "spawners"%string 1 (inject_Z 112, inject_Z 32) ], rest) /\
    Tilemap.extract rest
      [("spawners"%string, 0); ("spawners"%string, 1)] false = Ok ([], rest).
Proof.
  assert (W : PyDict.wf (Tilemap.tilemap cross_store))
    by (apply distinct_wf; reflexivity).
  split; [exact W |].
  destruct (extract_matches cross_store
              [("spawners"%string, 0); ("spawners"%string, 1)] W)
    as (_ & _ & Hfirst & Hsecond).
  eexists. split; [exact Hfirst | exact Hsecond].
Defined.

Lemma rightward_collision_stops_witness :
  (fst (PhysicsEntity.frame_movement (entity_at 6 0) (3 # 1, 0 # 1)) == 3)%Q /\
  exists s',
    PhysicsEntity.update (entity_at 6 0) wall_store (3 # 1, 0 # 1)%Q = Ok s' /\
    PhysicsEntity.right (PhysicsEntity.collisions s') = true /\
    Rect.right (PhysicsEntity.rect s') = 16 /\
    PhysicsEntity.up (PhysicsEntity.collisions s') = false /\
    PhysicsEntity.down (PhysicsEntity.collisions s') = false.
Proof.
  split; [reflexivity |].
  destruct (rightward_collision_stops (entity_at 6 0) wall_store
              (3 # 1, 0 # 1)%Q [Rect.mk 16 0 16 16] (Rect.mk 16 0 16 16))
    as (sx & s' & _ & _ & _ & _ & _ & _ & Hup & Hr & Hedge & Hvert).
  - reflexivity.
  - vm_compute. reflexivity.
  - left. reflexivity.
  - reflexivity.
  - intros r [<- | []]. left. reflexivity.
  - exists s'. split; [exact Hup |]. split; [exact Hr |]. split; [exact Hedge |].
    apply Hvert. left. reflexivity.
Defined.

Lemma gravity_and_landing_witness :
  Tilemap.tile_size floor_store <> 0 /\
  exists s',
    PhysicsEntity.update (falling_at 0 1 2) floor_store (0 # 1, 0 # 1)%Q = Ok s' /\
    PhysicsEntity.down (PhysicsEntity.collisions s') = true /\
    snd (PhysicsEntity.velocity s') = inject_Z 0.
Proof.
  assert (H : Tilemap.tile_size floor_store <> 0) by (cbn; lia).
  split; [exact H |].
  destruct (gravity_and_landing (falling_at 0 1 2) floor_store (0 # 1, 0 # 1)%Q H)
    as (s' & Hup & _ & _ & _ & Hland).
  exists s'. split; [exact Hup |].
  apply (Hland (falling_at 0 1 2) [Rect.mk 0 16 16 16] (Rect.mk 0 16 16 16)).
  - vm_compute. reflexivity.
  - vm_compute. reflexivity.
  - left. reflexivity.
  - reflexivity.
  - reflexivity.
Defined.

Lemma collision_writes_integer_witness :
  Tilemap.tile_size wall_store <> 0 /\
  exists s',
    PhysicsEntity.update (entity_at (13 # 2) 0) wall_store (3 # 1, 0 # 1)%Q = Ok s' /\
    fst (PhysicsEntity.pos s') = inject_Z (Rect.x (PhysicsEntity.rect s')).
Proof.
  assert (H : Tilemap.tile_size wall_store <> 0) by (cbn; lia).
  split; [exact H |].
  destruct (collision_writes_integer (entity_at (13 # 2) 0) wall_store
              (3 # 1, 0 # 1)%Q H) as (s' & Hup & Hx & _).
  exists s'. split; [exact Hup |].
  apply (Hx [Rect.mk 16 0 16 16] (Rect.mk 16 0 16 16)).
  - vm_compute. reflexivity.
  - left. reflexivity.
  - reflexivity.
Defined.

Lemma zero_movement_keeps_rect_witness :
  Tilemap.tile_size block_store <> 0 /\
  exists s',
    PhysicsEntity.update (entity_at (1 # 2) 0) block_store (0 # 1, 0 # 1)%Q = Ok s' /\
    PhysicsEntity.collisions s' = PhysicsEntity.no_collisions /\
    PhysicsEntity.rect s' = PhysicsEntity.rect (entity_at (1 # 2) 0) /\
    fst (PhysicsEntity.pos s') = inject_Z 0.
Proof.
  assert (H : Tilemap.tile_size block_store <> 0) by (cbn; lia).
  split; [exact H |].
  destruct (zero_movement_keeps_rect (entity_at (1 # 2) 0) block_store
              (0 # 1, 0 # 1)%Q H) as (s' & Hup & Hx & _ & Hboth).
  exists s'. split; [exact Hup |].
  destruct (Hboth eq_refl eq_refl) as [Hc Hr].
  split; [exact Hc |]. split; [exact Hr |].
  destruct (Hx eq_refl) as (_ & _ & _ & Hpos).
  apply (Hpos [Rect.mk 0 0 16 16]); reflexivity.
Defined.

(** * Further properties of the code *)

(** ** Grid keys *)

Lemma to_int_normal (z : Z) :
  Z.to_int z <> Decimal.Pos Decimal.Nil /\ Z.to_int z <> Decimal.Neg Decimal.Nil.
Proof.
  assert (E : Z.to_int z = Decimal.norm (Z.to_int z))
    by (rewrite <- DecimalZ.to_of, DecimalZ.of_to; reflexivity).
  rewrite E. destruct (Z.to_int z) as [u | u]; cbn [Decimal.norm].
  - split; [| discriminate]. intros H. injection H as H.
    exact (DecimalFacts.unorm_nonnil u H).
  - destruct (Decimal.nzhead u); split; discriminate.
Qed.

Lemma str_inj (a b : Z) : str a = str b -> a = b.
Proof.
  unfold str. intros H. apply DecimalZ.to_int_inj.
  destruct (to_int_normal a) as [A1 A2], (to_int_normal b) as [B1 B2].
  assert (Ha := NilZero.isi _ A1 A2). assert (Hb := NilZero.isi _ B1 B2).
  rewrite H in Ha. rewrite Ha in Hb. injection Hb as Hb. exact Hb.
Qed.

Lemma uint_no_semicolon (u : Decimal.uint) :
  has_char semicolon (NilEmpty.string_of_uint u) = false.
Proof. induction u; cbn; auto. Qed.

Lemma str_no_semicolon (z : Z) : has_char semicolon (str z) = false.
Proof.
  unfold str. destruct (Z.to_int z) as [u | u]; cbn [NilZero.string_of_int].
  - destruct u; cbn [NilZero.string_of_uint]; try apply uint_no_semicolon.
    reflexivity.
  - cbn [has_char]. destruct u; cbn [NilZero.string_of_uint];
      try apply uint_no_semicolon. reflexivity.
Qed.

Lemma split_at_semicolon (s1 s2 t1 t2 : string) :
  has_char semicolon s1 = false -> has_char semicolon s2 = false ->
  (s1 ++ ";" ++ t1 = s2 ++ ";" ++ t2)%string -> s1 = s2 /\ t1 = t2.
Proof.
  revert s2. induction s1 as [| c s1 IH]; intros [| c' s2] H1 H2 E; cbn in *.
  - injection E as E. auto.
  - injection E as Ec E. subst c'. cbn in H2. discriminate.
  - injection E as Ec E. subst c. cbn in H1. discriminate.
  - injection E as Ec E. subst c'.
    apply orb_false_elim in H1 as [_ H1]. apply orb_false_elim in H2 as [_ H2].
    destruct (IH s2 H1 H2 E) as [-> ->]. auto.
Qed.

Lemma loc_key_inj (a b c d : Z) : loc_key a b = loc_key c d -> a = c /\ b = d.
Proof.
  unfold loc_key. intros H.
  apply split_at_semicolon in H as [Hx Hy]; try apply str_no_semicolon.
  split; apply str_inj; assumption.
Qed.

(** X1: two grid cells have the same key only when they are the same cell,
    negative coordinates included. *)
Theorem grid_keys_never_collide (cell cell' : Z * Z) :
  loc_key (fst cell) (snd cell) = loc_key (fst cell') (snd cell') <->
  cell = cell'.
Proof.
  split.
  - intros H. apply loc_key_inj in H as [Hx Hy].
    destruct cell, cell'. cbn in *. congruence.
  - intros ->. reflexivity.
Qed.

(** ** Editing the grid *)

Section DictUpdates.
Context {V : Type}.
Implicit Types (d : PyDict.t V) (k : string) (v : V).

Lemma get_set_same k v d : PyDict.get k (PyDict.set k v d) = Some v.
Proof.
  induction d as [| [k' v'] d IH]; cbn.
  - rewrite String.eqb_refl. reflexivity.
  - destruct (String.eqb_spec k k') as [-> | N]; cbn.
    + rewrite String.eqb_refl. reflexivity.
    + destruct (String.eqb_spec k k'); [contradiction | exact IH].
Qed.

Lemma get_set_other k k' v d :
  k' <> k -> PyDict.get k' (PyDict.set k v d) = PyDict.get k' d.
Proof.
  intros N. induction d as [| [k0 v0] d IH]; cbn.
  - destruct (String.eqb_spec k' k); [contradiction | reflexivity].
  - destruct (String.eqb_spec k k0) as [-> | N0]; cbn.
    + destruct (String.eqb_spec k' k0); [contradiction | reflexivity].
    + destruct (String.eqb k' k0); [reflexivity | exact IH].
Qed.

Lemma in_set_inv k v k' v' d :
  In (k', v') (PyDict.set k v d) -> (k' = k /\ v' = v) \/ In (k', v') d.
Proof.
  induction d as [| [k0 v0] d IH]; cbn.
  - intros [[= <- <-] | []]. left. auto.
  - destruct (String.eqb_spec k k0) as [-> | N0]; cbn.
    + intros [[= <- <-] | I]; [left; auto | right; right; exact I].
    + intros [E | I]; [right; left; exact E |].
      destruct (IH I) as [H | H]; [left; exact H | right; right; exact H].
Qed.

Lemma keys_set k v d :
  PyDict.keys (PyDict.set k v d) =
  if PyDict.contains k d then PyDict.keys d else PyDict.keys d ++ [k].
Proof.
  unfold PyDict.contains. induction d as [| [k0 v0] d IH]; cbn; [reflexivity |].
  destruct (String.eqb_spec k k0) as [-> | N0]; cbn; [reflexivity |].
  fold (PyDict.keys (PyDict.set k v d)). fold (PyDict.keys d). rewrite IH.
  destruct (PyDict.get k d); reflexivity.
Qed.

Lemma wf_set k v d : PyDict.wf d -> PyDict.wf (PyDict.set k v d).
Proof.
  unfold PyDict.wf. intros W. rewrite keys_set. unfold PyDict.contains.
  destruct (PyDict.get k d) eqn:G; [exact W |].
  apply NoDup_app; [exact W | repeat constructor; intros [] |].
  intros k' I [E | []]. subst k'.
  assert (N : PyDict.get k d <> None).
  { clear G W. induction d as [| [k0 v0] d IH]; [destruct I |]. cbn in *.
    destruct (String.eqb_spec k k0); [discriminate |].
    destruct I as [E | I]; [congruence | apply IH, I]. }
  congruence.
Qed.

Lemma del_missing k d : PyDict.get k d = None -> PyDict.del k d = Raise KeyError.
Proof.
  induction d as [| [k0 v0] d IH]; cbn; [reflexivity |].
  destruct (String.eqb k k0); [discriminate |].
  intros G. rewrite (IH G). reflexivity.
Qed.

Lemma del_present k v d :
  PyDict.wf d -> PyDict.get k d = Some v ->
  exists pre suf, d = pre ++ (k, v) :: suf /\ ~ In k (PyDict.keys pre) /\
                  ~ In k (PyDict.keys suf) /\ PyDict.del k d = Ok (pre ++ suf).
Proof.
  intros W G. apply get_some_in, in_split in G as (pre & suf & ->).
  exists pre, suf. split; [reflexivity |].
  assert (Hpre : ~ In k (PyDict.keys pre)) by (eapply wf_head_notin, W).
  split; [exact Hpre |]. split; [| apply del_middle, Hpre].
  unfold PyDict.wf in W. rewrite keys_app in W. cbn in W.
  apply NoDup_remove_2 in W. intros I. apply W, in_or_app. right. exact I.
Qed.

End DictUpdates.

(** X2: placing a tile makes it the tile of its cell, whatever was there,
    and leaves the tile of every other cell as it was. *)
Theorem place_then_lookup (self : Tilemap.t) (ty : string) (v : Z)
    (tile_pos cell : Z * Z) :
  tile_at (Tilemap.tilemap (Editor.apply self (Editor.PlaceTile ty v tile_pos)))
          cell =
  if (fst tile_pos =? fst cell) && (snd tile_pos =? snd cell)
  then Some (mkTile ty v tile_pos)
  else tile_at (Tilemap.tilemap self) cell.
Proof.
  unfold tile_at. cbn [Editor.apply Tilemap.tilemap].
  destruct (Z.eqb_spec (fst tile_pos) (fst cell)) as [Ex | Nx];
    [destruct (Z.eqb_spec (snd tile_pos) (snd cell)) as [Ey | Ny] |]; cbn [andb].
  - rewrite Ex, Ey. apply get_set_same.
  - apply get_set_other. intros E. apply loc_key_inj in E as [_ E]. congruence.
  - apply get_set_other. intros E. apply loc_key_inj in E as [E _]. congruence.
Qed.

(** X3: on the grid, removing the tile of a cell empties that cell and no
    other, and on an empty cell it leaves the grid as it was; the tile size
    stays. *)
Theorem remove_then_lookup (self : Tilemap.t) (tile_pos cell : Z * Z) :
  PyDict.wf (Tilemap.tilemap self) ->
  let after := Editor.apply self (Editor.RemoveTile tile_pos) in
  tile_at (Tilemap.tilemap after) cell =
    (if (fst tile_pos =? fst cell) && (snd tile_pos =? snd cell)
     then None else tile_at (Tilemap.tilemap self) cell)
  /\ (tile_at (Tilemap.tilemap self) tile_pos = None ->
      Tilemap.tilemap after = Tilemap.tilemap self)
  /\ Tilemap.tile_size after = Tilemap.tile_size self.
Proof.
  intros W after. unfold after, tile_at. cbn [Editor.apply].
  destruct (PyDict.get (loc_key (fst tile_pos) (snd tile_pos))
                       (Tilemap.tilemap self)) as [old |] eqn:G.
  - destruct (del_present _ _ _ W G) as (pre & suf & E & Hpre & Hsuf & D).
    rewrite D. cbn [Tilemap.tilemap Tilemap.tile_size].
    split; [| split; [discriminate | reflexivity]].
    rewrite E, !get_app. cbn [PyDict.get].
    destruct (Z.eqb_spec (fst tile_pos) (fst cell)) as [Ex | Nx];
      [destruct (Z.eqb_spec (snd tile_pos) (snd cell)) as [Ey | Ny] |];
      cbn [andb].
    + rewrite <- Ex, <- Ey, (get_notin _ _ Hpre), (get_notin _ _ Hsuf).
      reflexivity.
    + destruct (String.eqb_spec (loc_key (fst cell) (snd cell))
                  (loc_key (fst tile_pos) (snd tile_pos))) as [K | _];
        [| reflexivity].
      apply loc_key_inj in K as [_ K]. congruence.
    + destruct (String.eqb_spec (loc_key (fst cell) (snd cell))
                  (loc_key (fst tile_pos) (snd tile_pos))) as [K | _];
        [| reflexivity].
      apply loc_key_inj in K as [K _]. congruence.
  - rewrite (del_missing _ _ G). split; [| split; reflexivity].
    destruct (Z.eqb_spec (fst tile_pos) (fst cell)) as [Ex | Nx];
      [destruct (Z.eqb_spec (snd tile_pos) (snd cell)) as [Ey | Ny] |];
      cbn [andb]; try reflexivity.
    rewrite <- Ex, <- Ey. exact G.
Qed.

Lemma apply_keeps_invariant (self : Tilemap.t) (e : Editor.edit) :
  PyDict.wf (Tilemap.tilemap self) -> well_keyed (Tilemap.tilemap self) ->
  PyDict.wf (Tilemap.tilemap (Editor.apply self e)) /\
  well_keyed (Tilemap.tilemap (Editor.apply self e)) /\
  Tilemap.tile_size (Editor.apply self e) = Tilemap.tile_size self.
Proof.
  intros W K. destruct e as [ty v p | p | ty v p]; cbn [Editor.apply].
  - cbn [Tilemap.tilemap Tilemap.tile_size].
    split; [apply wf_set, W |]. split; [| reflexivity].
    intros k tile I. apply in_set_inv in I as [[-> ->] | I];
      [reflexivity | apply K, I].
  - destruct (PyDict.get (loc_key (fst p) (snd p)) (Tilemap.tilemap self))
      as [old |] eqn:G.
    + destruct (del_present _ _ _ W G) as (pre & suf & E & _ & _ & D).
      rewrite D. cbn [Tilemap.tilemap Tilemap.tile_size].
      rewrite E in W, K.
      split; [eapply wf_remove, W |]. split; [| reflexivity].
      intros k tile I. apply K. apply in_app_or in I as [I | I];
        apply in_or_app; [left | right; right]; exact I.
    + rewrite (del_missing _ _ G). auto.
  - cbn [Tilemap.tilemap Tilemap.tile_size]. auto.
Qed.

(** X4: whatever the editor does to a store in which every key occurs once
    and every tile sits under the key of its own position, the store stays
    that way, and its tile size never changes. *)
Theorem editor_keeps_store_well_formed (edits : list Editor.edit)
    (self : Tilemap.t) :
  PyDict.wf (Tilemap.tilemap self) -> well_keyed (Tilemap.tilemap self) ->
  PyDict.wf (Tilemap.tilemap (Editor.run edits self)) /\
  well_keyed (Tilemap.tilemap (Editor.run edits self)) /\
  Tilemap.tile_size (Editor.run edits self) = Tilemap.tile_size self.
Proof.
  unfold Editor.run. revert self.
  induction edits as [| e edits IH]; intros self W K; cbn [fold_left].
  - auto.
  - destruct (apply_keeps_invariant self e W K) as (W' & K' & T').
    destruct (IH _ W' K') as (W'' & K'' & T''). rewrite T'' , T'. auto.
Qed.

Lemma editor_keeps_store_well_formed_witness :
  PyDict.wf (Tilemap.tilemap (Tilemap.init 16)) /\
  well_keyed (Tilemap.tilemap (Tilemap.init 16)) /\
  PyDict.wf
    (Tilemap.tilemap
       (Editor.run [Editor.PlaceTile "grass" 0 (2, -3);
                    Editor.PlaceTile "stone" 1 (2, -3);
                    Editor.RemoveTile (0, 0)] (Tilemap.init 16))).
Proof.
  assert (W : PyDict.wf (Tilemap.tilemap (Tilemap.init 16))) by apply NoDup_nil.
  assert (K : well_keyed (Tilemap.tilemap (Tilemap.init 16)))
    by (intros k tile []).
  split; [exact W |]. split; [exact K |].
  exact (proj1 (editor_keeps_store_well_formed _ _ W K)).
Defined.

Lemma remove_then_lookup_witness :
  PyDict.wf (Tilemap.tilemap cross_store) /\
  tile_at (Tilemap.tilemap (Editor.apply cross_store (Editor.RemoveTile (1, 0))))
          (1, 0) = None.
Proof.
  assert (W : PyDict.wf (Tilemap.tilemap cross_store))
    by (apply distinct_wf; reflexivity).
  split; [exact W |].
  exact (proj1 (remove_then_lookup cross_store (1, 0) (1, 0) W)).
Defined.

(** X5: a map saved with the key [o] is, by value, the store the editor
    starts with the next time: the same tile size, keys, types, variants
    and coordinates, every position now a list (the tuples of the tiles
    placed in the session included); without a [map.json] the editor starts
    with an empty store of tile size 16. *)
Theorem editor_session_roundtrip (self : EditorTilemap.t) (fs : filesystem) :
  let restart := EditorTilemap.loaded (EditorTilemap.values self) in
  EditorSession.start (EditorSession.save_map self fs) = Ok restart
  /\ EditorTilemap.values restart = EditorTilemap.values self
  /\ EditorTilemap.all_lists restart = true
  /\ (fs "map.json"%string = None ->
      EditorSession.start fs = Ok (EditorTilemap.init 16)).
Proof.
  cbn zeta. unfold EditorSession.start, EditorSession.save_map.
  split; [rewrite editor_load_save; reflexivity |].
  split; [apply values_loaded |]. split; [apply all_lists_loaded |].
  intros H. unfold EditorTilemap.load, Tilemap.load, read_json.
  rewrite H. reflexivity.
Qed.

(** ** Queries *)

Lemma fold_append_filter_map {A B : Type} (keep : A -> bool) (f : A -> B)
    (l : list A) (acc : list B) :
  fold_left (fun out a => if keep a then out ++ [f a] else out) l acc =
  acc ++ map f (filter keep l).
Proof.
  revert acc. induction l as [| a l IH]; intros acc; cbn [fold_left filter].
  - cbn. symmetry. apply app_nil_r.
  - rewrite IH. destruct (keep a); cbn [map]; [| reflexivity].
    rewrite <- app_assoc. reflexivity.
Qed.

Lemma physics_rects_around_eq (self : Tilemap.t) (world_pos : Q * Q) :
  Tilemap.tile_size self <> 0 ->
  Tilemap.physics_rects_around self world_pos =
  Ok (map (Tilemap.tile_rect self)
          (filter physics_tile
                  (neighbourhood_tiles (Tilemap.tilemap self)
                                       (grid_coordinate self world_pos)))).
Proof.
  intros Hts. unfold Tilemap.physics_rects_around.
  rewrite tiles_around_ok by exact Hts. cbn [bind]. f_equal.
  apply (fold_append_filter_map physics_tile (Tilemap.tile_rect self)).
Qed.

Lemma neighbourhood_tiles_in (tm : PyDict.t (Tile Z)) (cell : Z * Z)
    (tile : Tile Z) :
  In tile (neighbourhood_tiles tm cell) <->
  exists dx dy, -1 <= dx <= 1 /\ -1 <= dy <= 1 /\
    tile_at tm (fst cell + dx, snd cell + dy) = Some tile.
Proof.
  unfold neighbourhood_tiles. cbn zeta. rewrite !in_app_iff.
  replace (fst cell) with (fst cell + 0) at 4 5 6 by lia.
  replace (snd cell) with (snd cell + 0) at 2 5 8 by lia.
  change (fst cell - 1) with (fst cell + -1).
  change (snd cell - 1) with (snd cell + -1).
  split.
  - intros H.
    repeat (destruct H as [H | H]);
      match type of H with
      | In _ (present (tile_at _ (_ + ?dx, _ + ?dy))) =>
          exists dx, dy; repeat split; try lia;
          destruct (tile_at tm (fst cell + dx, snd cell + dy));
          simpl in H; [destruct H as [-> | []]; reflexivity | destruct H]
      end.
  - intros (dx & dy & Hx & Hy & H).
    assert (Hdx : dx = 1 \/ dx = 0 \/ dx = -1) by lia.
    assert (Hdy : dy = 1 \/ dy = 0 \/ dy = -1) by lia.
    destruct Hdx as [-> | [-> | ->]]; destruct Hdy as [-> | [-> | ->]];
      rewrite H; simpl; tauto.
Qed.

Lemma present_length {A : Type} (o : option A) : (length (present o) <= 1)%nat.
Proof. destruct o; cbn; lia. Qed.

Lemma neighbourhood_tiles_length (tm : PyDict.t (Tile Z)) (cell : Z * Z) :
  (length (neighbourhood_tiles tm cell) <= 9)%nat.
Proof.
  unfold neighbourhood_tiles. cbn zeta. rewrite !length_app.
  repeat match goal with
         | |- context [length (present ?o)] =>
             let H := fresh "L" in
             assert (H := present_length o);
             generalize dependent (length (present o)); intros
         end.
  lia.
Qed.

Lemma solid_check_tile_size (self : Tilemap.t) (world_pos : Q * Q)
    (found : option (Tile Z)) :
  Tilemap.solid_check self world_pos = Ok found -> Tilemap.tile_size self <> 0.
Proof.
  unfold Tilemap.solid_check, floordiv. intros H E. rewrite E in H.
  discriminate.
Qed.

(** X6: a point query and a neighbourhood query at the same position agree:
    the tile [solid_check] finds is among the tiles of [tiles_around], and
    its rectangle among those of [physics_rects_around]. *)
Theorem solid_check_in_physics_rects (self : Tilemap.t) (world_pos : Q * Q)
    (tile : Tile Z) :
  Tilemap.solid_check self world_pos = Ok (Some tile) ->
  exists tiles rects,
    Tilemap.tiles_around self world_pos = Ok tiles /\ In tile tiles /\
    Tilemap.physics_rects_around self world_pos = Ok rects /\
    In (Tilemap.tile_rect self tile) rects.
Proof.
  intros H. assert (Hts := solid_check_tile_size _ _ _ H).
  unfold Tilemap.solid_check in H. rewrite !floordiv_ok in H by exact Hts.
  cbn [bind] in H.
  change (PyDict.get _ (Tilemap.tilemap self))
    with (tile_at (Tilemap.tilemap self) (grid_coordinate self world_pos)) in H.
  destruct (tile_at (Tilemap.tilemap self) (grid_coordinate self world_pos))
    as [here |] eqn:G; [| discriminate].
  destruct (in_set (type here) PHYSICS_TILES) eqn:P; [| discriminate].
  injection H as ->.
  assert (I : In tile (neighbourhood_tiles (Tilemap.tilemap self)
                         (grid_coordinate self world_pos))).
  { apply neighbourhood_tiles_in. exists 0, 0. rewrite !Z.add_0_r.
    repeat split; try lia.
    destruct (grid_coordinate self world_pos). exact G. }
  eexists. eexists. split; [apply tiles_around_ok, Hts |]. split; [exact I |].
  split; [apply physics_rects_around_eq, Hts |].
  apply in_map, filter_In. split; [exact I | exact P].
Qed.

Lemma solid_check_in_physics_rects_witness :
  Tilemap.solid_check cross_store (1 # 2, -5 # 1)%Q =
    Ok (Some (mkTile "grass"%string 0 (0, -1))) /\
  exists rects,
    Tilemap.physics_rects_around cross_store (1 # 2, -5 # 1)%Q = Ok rects /\
    In (Rect.mk 0 (-16) 16 16) rects.
Proof.
  assert (H : Tilemap.solid_check cross_store (1 # 2, -5 # 1)%Q =
              Ok (Some (mkTile "grass"%string 0 (0, -1)))) by reflexivity.
  split; [exact H |].
  destruct (solid_check_in_physics_rects _ _ _ H) as (tiles & rects & _ & _ & R & I).
  exists rects. split; [exact R | exact I].
Defined.

(** X7: in a store whose tiles sit under the keys of their positions, and
    where the nine cells around the cell of the position, scaled by the
    tile size, stay within the range of a C [int], every rectangle of
    [physics_rects_around] is a square of side [tile_size] at one of those
    nine cells, and there are at most nine of them. *)
Theorem physics_rects_adjacent (self : Tilemap.t) (world_pos : Q * Q)
    (rects : list Rect.t) :
  well_keyed (Tilemap.tilemap self) ->
  Tilemap.physics_rects_around self world_pos = Ok rects ->
  let ts := Tilemap.tile_size self in
  let cell := grid_coordinate self world_pos in
  c_int ts ->
  (forall dx dy, -1 <= dx <= 1 -> -1 <= dy <= 1 ->
     c_int ((fst cell + dx) * ts) /\ c_int ((snd cell + dy) * ts)) ->
  (length rects <= 9)%nat /\
  forall r, In r rects ->
    Rect.w r = ts /\ Rect.h r = ts /\
    c_int (Rect.x r) /\ c_int (Rect.y r) /\
    exists dx dy, -1 <= dx <= 1 /\ -1 <= dy <= 1 /\
      Rect.x r = (fst cell + dx) * ts /\ Rect.y r = (snd cell + dy) * ts.
Proof.
  intros K H ts cell Cts Ccells.
  assert (Hts := physics_rects_around_tile_size _ _ _ H).
  rewrite physics_rects_around_eq in H by exact Hts. injection H as <-.
  fold cell. split.
  - rewrite length_map.
    eapply Nat.le_trans; [apply filter_length_le |].
    apply neighbourhood_tiles_length.
  - intros r I. apply in_map_iff in I as (tile & <- & I).
    apply filter_In in I as [I _].
    apply neighbourhood_tiles_in in I as (dx & dy & Hx & Hy & G).
    apply get_some_in, K, loc_key_inj in G as [Gx Gy]. cbn [fst snd] in Gx, Gy.
    cbn [Tilemap.tile_rect Rect.w Rect.h Rect.x Rect.y].
    split; [reflexivity |]. split; [reflexivity |].
    fold ts. rewrite <- Gx, <- Gy.
    destruct (Ccells dx dy Hx Hy) as [Cx Cy].
    split; [exact Cx |]. split; [exact Cy |].
    exists dx, dy. auto.
Qed.

Lemma cross_store_well_keyed : well_keyed (Tilemap.tilemap cross_store).
Proof.
  intros k tile I. cbn in I.
  repeat (destruct I as [[= <- <-] | I]; [reflexivity |]). destruct I.
Qed.

Lemma physics_rects_adjacent_witness :
  well_keyed (Tilemap.tilemap cross_store) /\
  c_int (Tilemap.tile_size cross_store) /\
  exists rects,
    Tilemap.physics_rects_around cross_store (20 # 1, 5 # 1)%Q = Ok rects /\
    (length rects <= 9)%nat.
Proof.
  assert (C : c_int (Tilemap.tile_size cross_store)) by (unfold c_int; cbn; lia).
  split; [exact cross_store_well_keyed |]. split; [exact C |]. eexists.
  split; [vm_compute; reflexivity |].
  refine (proj1 (physics_rects_adjacent cross_store (20 # 1, 5 # 1)%Q _
                   cross_store_well_keyed eq_refl C _)).
  intros dx dy Hx Hy.
  change (grid_coordinate cross_store (20 # 1, 5 # 1)%Q) with (1, 0).
  unfold c_int. cbn [fst snd Tilemap.tile_size cross_store]. lia.
Defined.

(** X8: with a tile size of zero every position query, and with it every
    entity update, raises ZeroDivisionError. *)
Theorem zero_tile_size_raises (self : Tilemap.t) (world_pos : Q * Q)
    (entity : PhysicsEntity.t) (movement : Q * Q) :
  Tilemap.tile_size self = 0 ->
  Tilemap.tiles_around self world_pos = Raise ZeroDivisionError /\
  Tilemap.solid_check self world_pos = Raise ZeroDivisionError /\
  Tilemap.physics_rects_around self world_pos = Raise ZeroDivisionError /\
  PhysicsEntity.update entity self movement = Raise ZeroDivisionError.
Proof.
  intros E.
  assert (T : forall p, Tilemap.tiles_around self p = Raise ZeroDivisionError).
  { intros p. unfold Tilemap.tiles_around, floordiv. rewrite E. reflexivity. }
  assert (R : forall p,
             Tilemap.physics_rects_around self p = Raise ZeroDivisionError).
  { intros p. unfold Tilemap.physics_rects_around. rewrite T. reflexivity. }
  split; [apply T |]. split; [| split; [apply R |]].
  - unfold Tilemap.solid_check, floordiv. rewrite E. reflexivity.
  - unfold PhysicsEntity.update, PhysicsEntity.x_pass. cbn zeta.
    rewrite R. reflexivity.
Qed.

Lemma zero_tile_size_raises_witness :
  Tilemap.tile_size flat_store = 0 /\
  PhysicsEntity.update (entity_at 0 0) flat_store (0 # 1, 0 # 1)%Q =
    Raise ZeroDivisionError.
Proof.
  split; [reflexivity |].
  exact (proj2 (proj2 (proj2
    (zero_tile_size_raises flat_store (0 # 1, 0 # 1)%Q (entity_at 0 0)
       (0 # 1, 0 # 1)%Q eq_refl)))).
Defined.

(** ** What autotiling changes and what it leaves alone *)

Lemma autotile_lookup_range (k : list (Z * Z)) (v : Z) :
  autotile_lookup k AUTOTILE_MAP = Some v -> 0 <= v <= 8.
Proof.
  assert (G : forall m, Forall (fun kv : list (Z * Z) * Z => 0 <= snd kv <= 8) m ->
                        autotile_lookup k m = Some v -> 0 <= v <= 8).
  { induction m as [| [k' v'] m IH]; cbn; intros F H; [discriminate |].
    apply Forall_cons_iff in F as [F1 F2].
    destruct (tuples_eqb k k'); [injection H as <-; exact F1 | apply IH; assumption]. }
  apply G. unfold AUTOTILE_MAP. repeat constructor; cbn; lia.
Qed.

Lemma retile_variant (tm : PyDict.t (Tile Z)) (tile : Tile Z) :
  variant (retile tm tile) = variant tile \/
  (in_set (type tile) AUTOTILE_TYPES = true /\ 0 <= variant (retile tm tile) <= 8).
Proof.
  unfold retile.
  destruct (autotile_lookup _ _) as [v |] eqn:L; [| left; reflexivity].
  destruct (in_set _ _); [| left; reflexivity].
  right. split; [reflexivity |]. exact (autotile_lookup_range _ _ L).
Qed.

(** X9: [autotile] touches nothing but variants: the tile size, the off-grid
    tiles, the keys and their order stay, every tile keeps its type and
    position, and a variant that changes belongs to an autotile-eligible
    tile and lies in 0..8. *)
Theorem autotile_only_variants (self : Tilemap.t) :
  PyDict.wf (Tilemap.tilemap self) ->
  exists after,
    Tilemap.autotile self = Ok after /\
    Tilemap.tile_size after = Tilemap.tile_size self /\
    Tilemap.offgrid_tiles after = Tilemap.offgrid_tiles self /\
    PyDict.keys (Tilemap.tilemap after) = PyDict.keys (Tilemap.tilemap self) /\
    forall k tile, PyDict.get k (Tilemap.tilemap self) = Some tile ->
      exists tile',
        PyDict.get k (Tilemap.tilemap after) = Some tile' /\
        type tile' = type tile /\ pos tile' = pos tile /\
        (variant tile' = variant tile \/
         (in_set (type tile) AUTOTILE_TYPES = true /\ 0 <= variant tile' <= 8)).
Proof.
  intros W. eexists. split; [apply autotile_ok, W |].
  cbn [Tilemap.tile_size Tilemap.offgrid_tiles Tilemap.tilemap].
  split; [reflexivity |]. split; [reflexivity |].
  split; [apply keys_map_values |].
  intros k tile G. exists (retile (Tilemap.tilemap self) tile).
  unfold retiled. rewrite get_map_values, G.
  split; [reflexivity |]. split; [apply retile_type |].
  split; [apply retile_pos | apply retile_variant].
Qed.

Lemma autotile_only_variants_witness :
  PyDict.wf (Tilemap.tilemap cross_store) /\
  exists after,
    Tilemap.autotile cross_store = Ok after /\
    PyDict.keys (Tilemap.tilemap after) = PyDict.keys (Tilemap.tilemap cross_store).
Proof.
  assert (W : PyDict.wf (Tilemap.tilemap cross_store))
    by (apply distinct_wf; reflexivity).
  split; [exact W |].
  destruct (autotile_only_variants cross_store W) as (after & R & _ & _ & K & _).
  exists after. split; [exact R | exact K].
Defined.

(** X10: the variant [autotile] leaves on a tile, shape by shape: an
    eligible tile gets the variant of [shape_variant] for its four
    same-type neighbours, and keeps its variant when the shape has none (at
    most one neighbour, or only two opposite ones); a tile of another type
    always keeps its variant. *)
Theorem autotile_by_shape (self : Tilemap.t) (loc : string) (tile : Tile Z) :
  PyDict.wf (Tilemap.tilemap self) ->
  PyDict.get loc (Tilemap.tilemap self) = Some tile ->
  let nb := same_type_at (Tilemap.tilemap self) tile in
  exists after tile',
    Tilemap.autotile self = Ok after /\
    PyDict.get loc (Tilemap.tilemap after) = Some tile' /\
    variant tile' =
      (if in_set (type tile) AUTOTILE_TYPES then
         match shape_variant (nb (1, 0)) (nb (-1, 0)) (nb (0, 1)) (nb (0, -1)) with
         | Some v => v
         | None => variant tile
         end
       else variant tile).
Proof.
  intros W G nb.
  destruct (autotile_tile self loc tile W G) as (after & R & A).
  exists after, (retile (Tilemap.tilemap self) tile).
  split; [exact R |]. split; [exact A |].
  unfold retile. rewrite neighbours_filter. fold nb.
  unfold CARDINAL_OFFSETS. cbn [filter].
  destruct (in_set (type tile) AUTOTILE_TYPES);
    destruct (nb (1, 0)), (nb (-1, 0)), (nb (0, -1)), (nb (0, 1)); reflexivity.
Qed.

Lemma autotile_by_shape_witness :
  PyDict.wf (Tilemap.tilemap cross_store) /\
  PyDict.get "1;0" (Tilemap.tilemap cross_store) =
    Some (mkTile "grass"%string 0 (1, 0)) /\
  exists after tile',
    Tilemap.autotile cross_store = Ok after /\
    PyDict.get "1;0" (Tilemap.tilemap after) = Some tile' /\
    variant tile' = 0.
Proof.
  assert (W : PyDict.wf (Tilemap.tilemap cross_store))
    by (apply distinct_wf; reflexivity).
  split; [exact W |]. split; [reflexivity |].
  destruct (autotile_by_shape cross_store "1;0" (mkTile "grass"%string 0 (1, 0))
              W eq_refl) as (after & tile' & R & G & V).
  exists after, tile'. split; [exact R |]. split; [exact G |].
  rewrite V. reflexivity.
Defined.

Lemma present_map {A B : Type} (f : A -> B) (o : option A) :
  present (option_map f o) = map f (present o).
Proof. destruct o; reflexivity. Qed.

Lemma neighbourhood_tiles_retiled (tm : PyDict.t (Tile Z)) (cell : Z * Z) :
  neighbourhood_tiles (retiled tm tm) cell =
  map (retile tm) (neighbourhood_tiles tm cell).
Proof.
  unfold neighbourhood_tiles, tile_at, retiled. cbn zeta.
  rewrite !get_map_values, !present_map, !map_app. reflexivity.
Qed.

Lemma physics_filter_retile (tm : PyDict.t (Tile Z)) (l : list (Tile Z)) :
  filter physics_tile (map (retile tm) l) = map (retile tm) (filter physics_tile l).
Proof.
  induction l as [| tile l IH]; [reflexivity |]. cbn [map filter].
  assert (E : physics_tile (retile tm tile) = physics_tile tile)
    by (unfold physics_tile; rewrite retile_type; reflexivity).
  rewrite E. destruct (physics_tile tile); cbn [map]; rewrite IH; reflexivity.
Qed.

(** X11: autotiling never changes the collision geometry: on every store,
    [physics_rects_around] answers after [autotile] what it answered
    before, at every position. *)
Theorem autotile_keeps_physics_rects (self : Tilemap.t) (world_pos : Q * Q) :
  PyDict.wf (Tilemap.tilemap self) ->
  exists after,
    Tilemap.autotile self = Ok after /\
    Tilemap.physics_rects_around after world_pos =
    Tilemap.physics_rects_around self world_pos.
Proof.
  intros W. eexists. split; [apply autotile_ok, W |].
  destruct (Z.eq_dec (Tilemap.tile_size self) 0) as [E | N].
  - unfold Tilemap.physics_rects_around, Tilemap.tiles_around, floordiv.
    cbn [Tilemap.tile_size]. rewrite E. reflexivity.
  - rewrite !physics_rects_around_eq by exact N. f_equal.
    unfold grid_coordinate. cbn [Tilemap.tile_size Tilemap.tilemap].
    fold (grid_coordinate self world_pos).
    rewrite neighbourhood_tiles_retiled, physics_filter_retile, map_map.
    apply map_ext. intros tile. unfold Tilemap.tile_rect.
    cbn [Tilemap.tile_size]. rewrite retile_pos. reflexivity.
Qed.

Lemma autotile_keeps_physics_rects_witness :
  PyDict.wf (Tilemap.tilemap cross_store) /\
  exists after,
    Tilemap.autotile cross_store = Ok after /\
    Tilemap.physics_rects_around after (20 # 1, 5 # 1)%Q =
    Tilemap.physics_rects_around cross_store (20 # 1, 5 # 1)%Q.
Proof.
  assert (W : PyDict.wf (Tilemap.tilemap cross_store))
    by (apply distinct_wf; reflexivity).
  split; [exact W |].
  exact (autotile_keeps_physics_rects cross_store (20 # 1, 5 # 1)%Q W).
Defined.

(** ** What extraction removes and what it leaves alone *)

Lemma get_filter {V : Type} (f : string * V -> bool) (k : string)
    (d : PyDict.t V) :
  PyDict.wf d ->
  PyDict.get k (filter f d) =
  match PyDict.get k d with
  | Some v => if f (k, v) then Some v else None
  | None => None
  end.
Proof.
  unfold PyDict.wf. induction d as [| [k' v'] d IH]; intros W; [reflexivity |].
  cbn in W. apply NoDup_cons_iff in W as [Hk W]. cbn [filter PyDict.get].
  destruct (String.eqb_spec k k') as [-> | N].
  - destruct (f (k', v')); cbn [PyDict.get].
    + rewrite String.eqb_refl. reflexivity.
    + apply get_notin. intros I. apply Hk.
      unfold PyDict.keys in *. apply in_map_iff in I as (kv & E & I).
      apply filter_In in I as [I _]. apply in_map_iff. exists kv. auto.
  - destruct (f (k', v')); cbn [PyDict.get]; [| apply IH, W].
    destruct (String.eqb_spec k k'); [contradiction | apply IH, W].
Qed.

Lemma filter_split_length {A : Type} (f : A -> bool) (l : list A) :
  (length (filter f l) + length (filter (fun a => negb (f a)) l) = length l)%nat.
Proof.
  induction l as [| a l IH]; [reflexivity |]. cbn [filter].
  destruct (f a); cbn [negb length]; lia.
Qed.

Lemma filter_values_length {V : Type} (f : V -> bool) (d : PyDict.t V) :
  length (filter f (PyDict.values d)) =
  length (filter (fun kv : string * V => f (snd kv)) d).
Proof.
  unfold PyDict.values. induction d as [| [k v] d IH]; [reflexivity |].
  cbn [map filter snd]. destruct (f v); cbn [length]; rewrite IH; reflexivity.
Qed.

(** X12: extraction without [keep] removes the matching tiles and nothing
    else: a grid tile that does not match stays under its key, a tile found
    afterwards was there before and does not match, the tile size stays,
    keys stay unique, and the tiles returned and the tiles left add up to
    the tiles there were. *)
Theorem extract_removes_only_matches (self : Tilemap.t)
    (ids : list (string * Z)) :
  PyDict.wf (Tilemap.tilemap self) ->
  exists matches after,
    Tilemap.extract self ids false = Ok (matches, after) /\
    Tilemap.tile_size after = Tilemap.tile_size self /\
    PyDict.wf (Tilemap.tilemap after) /\
    (forall k tile,
       PyDict.get k (Tilemap.tilemap after) = Some tile <->
       PyDict.get k (Tilemap.tilemap self) = Some tile /\
       Tilemap.id_match ids tile = false) /\
    (forall tile,
       In tile (Tilemap.offgrid_tiles after) <->
       In tile (Tilemap.offgrid_tiles self) /\
       Tilemap.id_match ids tile = false) /\
    (length matches + length (Tilemap.tilemap after)
       + length (Tilemap.offgrid_tiles after)
     = length (Tilemap.tilemap self) + length (Tilemap.offgrid_tiles self))%nat.
Proof.
  intros W. exists (matching_tiles self ids), (without_matches self ids).
  split; [apply extract_remove_ok, W |].
  unfold without_matches, matching_tiles.
  cbn [Tilemap.tile_size Tilemap.tilemap Tilemap.offgrid_tiles].
  split; [reflexivity |]. split; [apply wf_filter, W |].
  split; [| split].
  - intros k tile. rewrite get_filter by exact W. cbn [snd].
    destruct (PyDict.get k (Tilemap.tilemap self)) as [t |].
    + destruct (Tilemap.id_match ids t) eqn:M; cbn [negb]; split.
      * discriminate.
      * intros [[= ->] M']. congruence.
      * intros [= ->]. auto.
      * intros [E _]. exact E.
    + split; [discriminate | intros [E _]; discriminate].
  - intros tile. rewrite filter_In. cbn beta.
    destruct (Tilemap.id_match ids tile); cbn [negb]; intuition congruence.
  - rewrite length_app, length_map.
    assert (Ho := filter_split_length (Tilemap.id_match ids)
                    (Tilemap.offgrid_tiles self)).
    assert (Hg := filter_split_length
                    (fun kv : string * Tile Z => Tilemap.id_match ids (snd kv))
                    (Tilemap.tilemap self)).
    assert (Hv := filter_values_length (Tilemap.id_match ids)
                    (Tilemap.tilemap self)).
    lia.
Qed.

Lemma extract_removes_only_matches_witness :
  PyDict.wf (Tilemap.tilemap cross_store) /\
  exists matches after,
    Tilemap.extract cross_store [("spawners"%string, 1)] false =
      Ok (matches, after) /\
    Tilemap.tile_size after = 16.
Proof.
  assert (W : PyDict.wf (Tilemap.tilemap cross_store))
    by (apply distinct_wf; reflexivity).
  split; [exact W |].
  destruct (extract_removes_only_matches cross_store [("spawners"%string, 1)] W)
    as (matches & after & E & T & _).
  exists matches, after. split; [exact E | exact T].
Defined.

Lemma filter_all {A : Type} (f : A -> bool) (l : list A) :
  (forall a, In a l -> f a = true) -> filter f l = l.
Proof.
  induction l as [| a l IH]; intros H; [reflexivity |]. cbn [filter].
  rewrite (H a (or_introl eq_refl)), IH; [reflexivity |].
  intros b I. apply H. right. exact I.
Qed.

Lemma filter_nothing {A : Type} (f : A -> bool) (l : list A) :
  (forall a, f a = false) -> filter f l = [].
Proof.
  intros H. induction l as [| a l IH]; [reflexivity |]. cbn [filter].
  rewrite H. exact IH.
Qed.

Lemma matching_tiles_nil (self : Tilemap.t) : matching_tiles self [] = [].
Proof.
  unfold matching_tiles. rewrite !filter_nothing by reflexivity. reflexivity.
Qed.

(** X13: extraction with no id pairs returns the empty list and leaves the
    store as it was, with or without [keep]. *)
Theorem extract_nothing (self : Tilemap.t) (keep : bool) :
  PyDict.wf (Tilemap.tilemap self) ->
  Tilemap.extract self [] keep = Ok ([], self).
Proof.
  intros W. destruct keep.
  - rewrite extract_keep_ok by exact W. rewrite matching_tiles_nil. reflexivity.
  - rewrite extract_remove_ok by exact W. rewrite matching_tiles_nil.
    unfold without_matches. rewrite !filter_all by reflexivity.
    destruct self; reflexivity.
Qed.

Lemma extract_nothing_witness :
  PyDict.wf (Tilemap.tilemap cross_store) /\
  Tilemap.extract cross_store [] false = Ok ([], cross_store).
Proof.
  assert (W : PyDict.wf (Tilemap.tilemap cross_store))
    by (apply distinct_wf; reflexivity).
  split; [exact W |]. exact (extract_nothing cross_store false W).
Defined.

Lemma id_match_type {C : Type} (ids : list (string * Z)) (tile : Tile C) :
  Tilemap.id_match ids tile = true -> In (type tile) (map fst ids).
Proof.
  unfold Tilemap.id_match. intros H.
  apply existsb_exists in H as (p & I & E).
  apply andb_prop in E as [E _]. apply String.eqb_eq in E.
  rewrite E. apply in_map, I.
Qed.

Lemma in_set_In (s : string) (S : list string) :
  in_set s S = true <-> In s S.
Proof.
  unfold in_set. rewrite existsb_exists. split.
  - intros (x & I & E). apply String.eqb_eq in E. subst x. exact I.
  - intros I. exists s. split; [exact I | apply String.eqb_refl].
Qed.

Lemma physics_present_without (self : Tilemap.t) (ids : list (string * Z))
    (cell : Z * Z) :
  PyDict.wf (Tilemap.tilemap self) ->
  (forall ty, In ty (map fst ids) -> in_set ty PHYSICS_TILES = false) ->
  filter physics_tile
    (present (tile_at (Tilemap.tilemap (without_matches self ids)) cell)) =
  filter physics_tile (present (tile_at (Tilemap.tilemap self) cell)).
Proof.
  intros W H. unfold tile_at, without_matches. cbn [Tilemap.tilemap].
  rewrite get_filter by exact W. cbn [snd].
  destruct (PyDict.get _ (Tilemap.tilemap self)) as [tile |]; [| reflexivity].
  destruct (Tilemap.id_match ids tile) eqn:M; cbn [negb]; [| reflexivity].
  cbn [present filter]. unfold physics_tile.
  rewrite (H _ (id_match_type ids tile M)). reflexivity.
Qed.

(** X14: extracting tiles of types that take no part in collisions (spawn
    markers, decor) never changes the collision geometry:
    [physics_rects_around] answers the same before and after, with or
    without [keep]. *)
Theorem extract_keeps_physics_rects (self : Tilemap.t)
    (ids : list (string * Z)) (keep : bool) (world_pos : Q * Q) :
  PyDict.wf (Tilemap.tilemap self) ->
  (forall ty, In ty (map fst ids) -> in_set ty PHYSICS_TILES = false) ->
  exists matches after,
    Tilemap.extract self ids keep = Ok (matches, after) /\
    Tilemap.physics_rects_around after world_pos =
    Tilemap.physics_rects_around self world_pos.
Proof.
  intros W H. destruct keep.
  - exists (matching_tiles self ids), self.
    split; [apply extract_keep_ok, W | reflexivity].
  - exists (matching_tiles self ids), (without_matches self ids).
    split; [apply extract_remove_ok, W |].
    destruct (Z.eq_dec (Tilemap.tile_size self) 0) as [E | N].
    + unfold Tilemap.physics_rects_around, Tilemap.tiles_around, floordiv.
      cbn [without_matches Tilemap.tile_size]. rewrite E. reflexivity.
    + rewrite !physics_rects_around_eq by exact N.
      assert (G : grid_coordinate (without_matches self ids) world_pos =
                  grid_coordinate self world_pos) by reflexivity.
      rewrite G. unfold neighbourhood_tiles. cbn zeta.
      rewrite !filter_app, !physics_present_without by assumption.
      reflexivity.
Qed.

Lemma extract_keeps_physics_rects_witness :
  PyDict.wf (Tilemap.tilemap cross_store) /\
  exists matches after,
    Tilemap.extract cross_store
      [("spawners"%string, 0); ("spawners"%string, 1)] false =
      Ok (matches, after) /\
    Tilemap.physics_rects_around after (20 # 1, 5 # 1)%Q =
    Tilemap.physics_rects_around cross_store (20 # 1, 5 # 1)%Q.
Proof.
  assert (W : PyDict.wf (Tilemap.tilemap cross_store))
    by (apply distinct_wf; reflexivity).
  split; [exact W |].
  apply (extract_keeps_physics_rects cross_store
           [("spawners"%string, 0); ("spawners"%string, 1)] false
           (20 # 1, 5 # 1)%Q W).
  intros ty [<- | [<- | []]]; reflexivity.
Defined.

(** ** More on collision resolution *)

Section MoreCollision.
Import PhysicsEntity.

(** The clamp of one pass in one direction, in general: [body] leaves the
    state alone on a miss and on a hit replaces the rectangle by [clamp] and
    the entity by [mark]. *)
Section Clamp.
Variable body : Rect.t * t -> Rect.t -> Rect.t * t.
Variable clamp : Rect.t -> Rect.t -> Rect.t.
Variable mark : t -> Rect.t -> t.
Variable ob E0 : Rect.t.
Variable P : t -> Prop.
Hypothesis body_miss : forall er r s,
  Rect.colliderect er r = false -> body (er, s) r = (er, s).
Hypothesis body_hit : forall er r s,
  Rect.colliderect er r = true -> body (er, s) r = (clamp er r, mark s (clamp er r)).
Hypothesis clamp_again : clamp (clamp E0 ob) ob = clamp E0 ob.
Hypothesis marked : forall s, P (mark s (clamp E0 ob)).
Hypothesis Hhit : Rect.colliderect E0 ob = true.

Lemma fold_clamp (l : list Rect.t) (er : Rect.t) (s : t) :
  (forall r, In r l ->
     r = ob \/ (Rect.colliderect E0 r = false /\
                Rect.colliderect (clamp E0 ob) r = false)) ->
  (er = E0 /\ In ob l) \/ (er = clamp E0 ob /\ P s) ->
  fst (fold_left body l (er, s)) = clamp E0 ob /\
  P (snd (fold_left body l (er, s))).
Proof.
  revert er s. induction l as [| r l IH]; intros er s Hl H; cbn [fold_left].
  - destruct H as [(_ & []) | H]. exact H.
  - assert (Hl' : forall r', In r' l ->
              r' = ob \/ (Rect.colliderect E0 r' = false /\
                          Rect.colliderect (clamp E0 ob) r' = false))
      by (intros r' I; apply Hl; right; exact I).
    destruct H as [(-> & I) | (-> & HP)].
    + destruct (Hl r (or_introl eq_refl)) as [-> | (C0 & _)].
      * rewrite body_hit by exact Hhit. apply IH; [exact Hl' |]. right. auto.
      * rewrite body_miss by exact C0. apply IH; [exact Hl' |]. left.
        split; [reflexivity |]. destruct I as [-> | I]; [congruence | exact I].
    + destruct (Hl r (or_introl eq_refl)) as [-> | (_ & C1)].
      * destruct (Rect.colliderect (clamp E0 ob) ob) eqn:C.
        -- rewrite body_hit by exact C. rewrite clamp_again.
           apply IH; [exact Hl' |]. right. auto.
        -- rewrite body_miss by exact C. apply IH; [exact Hl' |]. right. auto.
      * rewrite body_miss by exact C1. apply IH; [exact Hl' |]. right. auto.
Qed.

End Clamp.

Section Flags.
Variable fm : Q * Q.

Lemma x_fold_right_unchanged (l : list Rect.t) (er : Rect.t) (s : t) :
  Qltb 0 (fst fm) = false ->
  right (collisions (snd (fold_left (x_body fm) l (er, s)))) = right (collisions s).
Proof.
  intros H. revert er s. induction l as [| r l IH]; intros er s;
    cbn [fold_left]; [reflexivity |].
  assert (B : right (collisions (snd (x_body fm (er, s) r))) = right (collisions s)).
  { unfold x_body. rewrite H.
    destruct (Rect.colliderect er r), (Qltb (fst fm) 0); reflexivity. }
  destruct (x_body fm (er, s) r) as [er1 s1]. rewrite IH. exact B.
Qed.

Lemma x_fold_left_unchanged (l : list Rect.t) (er : Rect.t) (s : t) :
  Qltb (fst fm) 0 = false ->
  left (collisions (snd (fold_left (x_body fm) l (er, s)))) = left (collisions s).
Proof.
  intros H. revert er s. induction l as [| r l IH]; intros er s;
    cbn [fold_left]; [reflexivity |].
  assert (B : left (collisions (snd (x_body fm (er, s) r))) = left (collisions s)).
  { unfold x_body. rewrite H.
    destruct (Rect.colliderect er r), (Qltb 0 (fst fm)); reflexivity. }
  destruct (x_body fm (er, s) r) as [er1 s1]. rewrite IH. exact B.
Qed.

Lemma y_fold_down_unchanged (l : list Rect.t) (er : Rect.t) (s : t) :
  Qltb 0 (snd fm) = false ->
  down (collisions (snd (fold_left (y_body fm) l (er, s)))) = down (collisions s).
Proof.
  intros H. revert er s. induction l as [| r l IH]; intros er s;
    cbn [fold_left]; [reflexivity |].
  assert (B : down (collisions (snd (y_body fm (er, s) r))) = down (collisions s)).
  { unfold y_body. rewrite H.
    destruct (Rect.colliderect er r), (Qltb (snd fm) 0); reflexivity. }
  destruct (y_body fm (er, s) r) as [er1 s1]. rewrite IH. exact B.
Qed.

Lemma y_fold_up_unchanged (l : list Rect.t) (er : Rect.t) (s : t) :
  Qltb (snd fm) 0 = false ->
  up (collisions (snd (fold_left (y_body fm) l (er, s)))) = up (collisions s).
Proof.
  intros H. revert er s. induction l as [| r l IH]; intros er s;
    cbn [fold_left]; [reflexivity |].
  assert (B : up (collisions (snd (y_body fm (er, s) r))) = up (collisions s)).
  { unfold y_body. rewrite H.
    destruct (Rect.colliderect er r), (Qltb 0 (snd fm)); reflexivity. }
  destruct (y_body fm (er, s) r) as [er1 s1]. rewrite IH. exact B.
Qed.

End Flags.

Lemma Qltb_negative (q : Q) : (q < 0)%Q -> Qltb q 0 = true /\ Qltb 0 q = false.
Proof.
  intros H. split; [apply Qltb_lt, H | apply Qltb_ge, Qlt_le_weak, H].
Qed.

(** X15: a collision flag is only ever set in the direction of the frame
    movement: [right] needs a positive and [left] a negative horizontal
    component, [down] a positive and [up] a negative vertical one; so
    opposite flags are never set together. *)
Theorem collision_flags_follow_movement (self : t) (tilemap : Tilemap.t)
    (movement : Q * Q) :
  Tilemap.tile_size tilemap <> 0 ->
  let fm := frame_movement self movement in
  exists s',
    update self tilemap movement = Ok s' /\
    (right (collisions s') = true -> (0 < fst fm)%Q) /\
    (left (collisions s') = true -> (fst fm < 0)%Q) /\
    (down (collisions s') = true -> (0 < snd fm)%Q) /\
    (up (collisions s') = true -> (snd fm < 0)%Q).
Proof.
  intros Hts fm.
  destruct (update_ok self tilemap movement Hts) as (rx & ry & _ & _ & _ & Hup).
  fold fm in Hup.
  set (sx := after_x (reset self) fm rx) in *.
  set (sy := after_y sx fm ry) in *.
  destruct (after_x_frame (reset self) fm rx) as (_ & _ & _ & Fu & Fd).
  fold sx in Fu, Fd.
  destruct (after_y_frame sx fm ry) as (_ & _ & _ & Gr & Gl).
  fold sy in Gr, Gl.
  exists (finish sy movement). split; [exact Hup |].
  rewrite finish_collisions, Gr, Gl. repeat split.
  - intros H. destruct (Qltb 0 (fst fm)) eqn:E; [apply Qltb_lt, E |].
    unfold sx, after_x in H. rewrite x_fold_right_unchanged in H by exact E.
    discriminate H.
  - intros H. destruct (Qltb (fst fm) 0) eqn:E; [apply Qltb_lt, E |].
    unfold sx, after_x in H. rewrite x_fold_left_unchanged in H by exact E.
    discriminate H.
  - intros H. destruct (Qltb 0 (snd fm)) eqn:E; [apply Qltb_lt, E |].
    unfold sy, after_y in H. rewrite y_fold_down_unchanged in H by exact E.
    cbn [move_y set_pos_y collisions] in H. rewrite Fd in H. discriminate H.
  - intros H. destruct (Qltb (snd fm) 0) eqn:E; [apply Qltb_lt, E |].
    unfold sy, after_y in H. rewrite y_fold_up_unchanged in H by exact E.
    cbn [move_y set_pos_y collisions] in H. rewrite Fu in H. discriminate H.
Qed.

(** X16: when nothing overlaps the entity in either pass, the update moves
    it by exactly the frame movement and sets no flag. *)
Theorem free_motion (self : t) (tilemap : Tilemap.t) (movement : Q * Q)
    (rx ry : list Rect.t) :
  let fm := frame_movement self movement in
  let sx := move_x (reset self) fm in
  let sy := move_y sx fm in
  Tilemap.physics_rects_around tilemap (pos sx) = Ok rx ->
  (forall r, In r rx -> Rect.colliderect (rect sx) r = false) ->
  Tilemap.physics_rects_around tilemap (pos sy) = Ok ry ->
  (forall r, In r ry -> Rect.colliderect (rect sy) r = false) ->
  exists s',
    update self tilemap movement = Ok s' /\
    pos s' = ((fst (pos self) + fst fm)%Q, (snd (pos self) + snd fm)%Q) /\
    collisions s' = no_collisions.
Proof.
  intros fm sx sy Hx Cx Hy Cy.
  exists (finish sy movement). split.
  - unfold update. cbn zeta. fold (reset self).
    change (frame_movement (reset self) movement) with fm.
    rewrite (x_pass_eq _ _ _ _ Hx). cbn [bind].
    assert (Ex : after_x (reset self) fm rx = sx)
      by (unfold after_x; fold sx; rewrite x_fold_clear by exact Cx; reflexivity).
    rewrite Ex. rewrite (y_pass_eq _ _ _ _ Hy). cbn [bind].
    assert (Ey : after_y sx fm ry = sy)
      by (unfold after_y; fold sy; rewrite y_fold_clear by exact Cy; reflexivity).
    rewrite Ey. reflexivity.
  - rewrite finish_pos, finish_collisions. split; reflexivity.
Qed.

Lemma free_motion_witness :
  exists s',
    update (entity_at 6 0) wall_store (1 # 1, 0 # 1)%Q = Ok s' /\
    pos s' = ((6 + (1 + 0))%Q, (0 + (0 + 0))%Q).
Proof.
  destruct (free_motion (entity_at 6 0) wall_store (1 # 1, 0 # 1)%Q
              [Rect.mk 16 0 16 16] [Rect.mk 16 0 16 16])
    as (s' & U & Ppos & _).
  - vm_compute. reflexivity.
  - intros r [<- | []]. reflexivity.
  - vm_compute. reflexivity.
  - intros r [<- | []]. reflexivity.
  - exists s'. split; [exact U | exact Ppos].
Defined.

Lemma collision_flags_follow_movement_witness :
  Tilemap.tile_size wall_store <> 0 /\
  exists s',
    update (entity_at 6 0) wall_store (3 # 1, 0 # 1)%Q = Ok s' /\
    (left (collisions s') = true -> (3 + 0 < 0)%Q).
Proof.
  assert (H : Tilemap.tile_size wall_store <> 0) by (cbn; lia).
  split; [exact H |].
  destruct (collision_flags_follow_movement (entity_at 6 0) wall_store
              (3 # 1, 0 # 1)%Q H) as (s' & U & _ & L & _).
  exists s'. split; [exact U | exact L].
Defined.

End MoreCollision.

Section Directions.
Import PhysicsEntity.

Lemma x_body_hit_left (fm : Q * Q) (er r : Rect.t) (s : t) :
  (fst fm < 0)%Q -> Rect.colliderect er r = true ->
  x_body fm (er, s) r =
  (Rect.set_left er (Rect.right r),
   set_pos_x (set_collisions s (mark_left (collisions s)))
             (inject_Z (Rect.x (Rect.set_left er (Rect.right r))))).
Proof.
  intros H C. destruct (Qltb_negative _ H) as [Hn Hp].
  unfold x_body. rewrite C, Hp, Hn. reflexivity.
Qed.

Lemma y_body_hit_down (fm : Q * Q) (er r : Rect.t) (s : t) :
  (0 < snd fm)%Q -> Rect.colliderect er r = true ->
  y_body fm (er, s) r =
  (Rect.set_bottom er (Rect.top r),
   set_pos_y (set_collisions s (mark_down (collisions s)))
             (inject_Z (Rect.y (Rect.set_bottom er (Rect.top r))))).
Proof.
  intros H C. destruct (Qltb_positive _ H) as [Hp Hn].
  unfold y_body. rewrite C, Hp, Hn. reflexivity.
Qed.

Lemma y_body_hit_up (fm : Q * Q) (er r : Rect.t) (s : t) :
  (snd fm < 0)%Q -> Rect.colliderect er r = true ->
  y_body fm (er, s) r =
  (Rect.set_top er (Rect.bottom r),
   set_pos_y (set_collisions s (mark_up (collisions s)))
             (inject_Z (Rect.y (Rect.set_top er (Rect.bottom r))))).
Proof.
  intros H C. destruct (Qltb_negative _ H) as [Hn Hp].
  unfold y_body. rewrite C, Hp, Hn. reflexivity.
Qed.

(** X17: the mirror image of the rightward stop: an entity whose frame
    movement points left and whose moved rectangle overlaps a physics
    rectangle [ob], no other being in the way, ends the update with [left]
    set, [right] false and the left edge of its rectangle on the right edge
    of [ob]. *)
Theorem leftward_collision_stops (self : t) (tilemap : Tilemap.t)
    (movement : Q * Q) (rects : list Rect.t) (ob : Rect.t) :
  let fm := frame_movement self movement in
  let moved := move_x (reset self) fm in
  (fst fm < 0)%Q ->
  Tilemap.physics_rects_around tilemap (pos moved) = Ok rects ->
  In ob rects ->
  Rect.colliderect (rect moved) ob = true ->
  (forall r, In r rects ->
     r = ob \/
     (Rect.colliderect (rect moved) r = false /\
      Rect.colliderect (Rect.set_left (rect moved) (Rect.right ob)) r = false)) ->
  exists s',
    update self tilemap movement = Ok s' /\
    left (collisions s') = true /\ right (collisions s') = false /\
    Rect.left (rect s') = Rect.right ob.
Proof.
  intros fm moved Hfm Hrects Hin Hhit Hothers.
  assert (Hts := physics_rects_around_tile_size _ _ _ Hrects).
  destruct (update_ok self tilemap movement Hts) as (rx & ry & Hx & _ & _ & Hup).
  fold fm in Hx, Hup. fold moved in Hx.
  rewrite Hrects in Hx. injection Hx as <-.
  set (sx := after_x (reset self) fm rects) in *.
  set (sy := after_y sx fm ry) in *.
  destruct (fold_clamp (x_body fm)
              (fun er r => Rect.set_left er (Rect.right r))
              (fun s er => set_pos_x (set_collisions s (mark_left (collisions s)))
                                     (inject_Z (Rect.x er)))
              ob (rect moved)
              (fun s => left (collisions s) = true /\
                        fst (pos s) = inject_Z (Rect.right ob))
              (x_body_miss fm)
              (fun er r s => x_body_hit_left fm er r s Hfm)
              eq_refl (fun s => conj eq_refl eq_refl) Hhit
              rects (rect moved) moved Hothers (or_introl (conj eq_refl Hin)))
    as (_ & Hl & Hpos).
  change (snd (fold_left (x_body fm) rects (rect moved, moved)))
    with sx in Hl, Hpos.
  destruct (Qltb_negative _ Hfm) as [_ Hp].
  assert (Hr := x_fold_right_unchanged fm rects (rect moved) moved Hp).
  change (snd (fold_left (x_body fm) rects (rect moved, moved))) with sx in Hr.
  destruct (after_y_frame sx fm ry) as (_ & _ & Gp & Gr & Gl).
  fold sy in Gp, Gr, Gl.
  exists (finish sy movement). split; [exact Hup |].
  rewrite finish_collisions, Gl, Gr. split; [exact Hl |]. split; [exact Hr |].
  unfold Rect.left, rect. cbn [Rect.x]. rewrite finish_pos, Gp, Hpos.
  apply to_int_inject_Z.
Qed.

Lemma leftward_collision_stops_witness :
  (fst (frame_movement (entity_at 34 0) (-3 # 1, 0 # 1)) < 0)%Q /\
  exists s',
    update (entity_at 34 0) wall_store (-3 # 1, 0 # 1)%Q = Ok s' /\
    left (collisions s') = true /\ Rect.left (rect s') = 32.
Proof.
  split; [reflexivity |].
  destruct (leftward_collision_stops (entity_at 34 0) wall_store
              (-3 # 1, 0 # 1)%Q [Rect.mk 16 0 16 16] (Rect.mk 16 0 16 16))
    as (s' & U & L & _ & E).
  - reflexivity.
  - vm_compute. reflexivity.
  - left. reflexivity.
  - reflexivity.
  - intros r [<- | []]. left. reflexivity.
  - exists s'. split; [exact U |]. split; [exact L | exact E].
Defined.

(** X18: an entity that moves down and whose rectangle, after the
    horizontal pass and the vertical move, overlaps a physics rectangle
    [ob], no other being in the way, ends the update standing on it: the
    bottom edge of its rectangle is the top edge of [ob], [down] is set,
    [up] is not, the vertical velocity is 0 and the horizontal position is
    the one the horizontal pass left. *)
Theorem landing_rests_on_tile (self sx : t) (tilemap : Tilemap.t)
    (movement : Q * Q) (rects : list Rect.t) (ob : Rect.t) :
  let fm := frame_movement self movement in
  let moved := move_y sx fm in
  x_pass (reset self) tilemap fm = Ok sx ->
  (0 < snd fm)%Q ->
  Tilemap.physics_rects_around tilemap (pos moved) = Ok rects ->
  In ob rects ->
  Rect.colliderect (rect moved) ob = true ->
  (forall r, In r rects ->
     r = ob \/
     (Rect.colliderect (rect moved) r = false /\
      Rect.colliderect (Rect.set_bottom (rect moved) (Rect.top ob)) r = false)) ->
  exists s',
    update self tilemap movement = Ok s' /\
    down (collisions s') = true /\ up (collisions s') = false /\
    Rect.bottom (rect s') = Rect.top ob /\
    snd (velocity s') = inject_Z 0 /\
    fst (pos s') = fst (pos sx).
Proof.
  intros fm moved Hsx Hfm Hrects Hin Hhit Hothers.
  assert (Hts := physics_rects_around_tile_size _ _ _ Hrects).
  destruct (update_ok self tilemap movement Hts) as (rx & ry & _ & Hy & Hxp & Hup).
  fold fm in Hy, Hxp, Hup.
  rewrite Hsx in Hxp. injection Hxp as Hxp. rewrite <- Hxp in Hy, Hup.
  fold moved in Hy. rewrite Hrects in Hy. injection Hy as <-.
  set (sy := after_y sx fm rects) in *.
  destruct (fold_clamp (y_body fm)
              (fun er r => Rect.set_bottom er (Rect.top r))
              (fun s er => set_pos_y (set_collisions s (mark_down (collisions s)))
                                     (inject_Z (Rect.y er)))
              ob (rect moved)
              (fun s => down (collisions s) = true /\
                        snd (pos s) = inject_Z (Rect.top ob - Rect.h (rect moved)))
              (y_body_miss fm)
              (fun er r s => y_body_hit_down fm er r s Hfm)
              eq_refl (fun s => conj eq_refl eq_refl) Hhit
              rects (rect moved) moved Hothers (or_introl (conj eq_refl Hin)))
    as (_ & Hd & Hpos).
  change (snd (fold_left (y_body fm) rects (rect moved, moved)))
    with sy in Hd, Hpos.
  destruct (Qltb_positive _ Hfm) as [_ Hn].
  assert (Hu := y_fold_up_unchanged fm rects (rect moved) moved Hn).
  change (snd (fold_left (y_body fm) rects (rect moved, moved))) with sy in Hu.
  cbn [moved move_y set_pos_y collisions] in Hu.
  assert (Fu : up (collisions sx) = false).
  { rewrite Hxp. destruct (after_x_frame (reset self) fm rx) as (_ & _ & _ & F & _).
    rewrite F. reflexivity. }
  destruct (after_y_frame sx fm rects) as (Gs & _ & Gp & _).
  fold sy in Gs, Gp.
  exists (finish sy movement). split; [exact Hup |].
  rewrite finish_collisions, finish_velocity_y, Hd.
  split; [reflexivity |]. split; [rewrite Hu; exact Fu |].
  split; [| split; [reflexivity | rewrite finish_pos; exact Gp]].
  unfold Rect.bottom, rect. cbn [Rect.y Rect.h].
  rewrite finish_pos, finish_size, Hpos, to_int_inject_Z, Gs.
  unfold moved, rect, move_y. cbn [Rect.h size set_pos_y]. lia.
Qed.

Lemma landing_rests_on_tile_witness :
  (0 < snd (frame_movement (falling_at 0 1 2) (0 # 1, 0 # 1)))%Q /\
  exists s',
    update (falling_at 0 1 2) floor_store (0 # 1, 0 # 1)%Q = Ok s' /\
    Rect.bottom (rect s') = 16 /\ down (collisions s') = true.
Proof.
  split; [reflexivity |].
  destruct (landing_rests_on_tile (falling_at 0 1 2) (falling_at 0 1 2)
              floor_store (0 # 1, 0 # 1)%Q [Rect.mk 0 16 16 16]
              (Rect.mk 0 16 16 16))
    as (s' & U & D & _ & B & _).
  - vm_compute. reflexivity.
  - reflexivity.
  - vm_compute. reflexivity.
  - left. reflexivity.
  - reflexivity.
  - intros r [<- | []]. left. reflexivity.
  - exists s'. split; [exact U |]. split; [exact B | exact D].
Defined.

(** X19: an entity that moves up into a physics rectangle [ob], no other
    being in the way, ends the update under it: the top edge of its
    rectangle is the bottom edge of [ob], [up] is set, [down] is not, and
    the vertical velocity is 0. *)
Theorem ceiling_stops_rise (self sx : t) (tilemap : Tilemap.t)
    (movement : Q * Q) (rects : list Rect.t) (ob : Rect.t) :
  let fm := frame_movement self movement in
  let moved := move_y sx fm in
  x_pass (reset self) tilemap fm = Ok sx ->
  (snd fm < 0)%Q ->
  Tilemap.physics_rects_around tilemap (pos moved) = Ok rects ->
  In ob rects ->
  Rect.colliderect (rect moved) ob = true ->
  (forall r, In r rects ->
     r = ob \/
     (Rect.colliderect (rect moved) r = false /\
      Rect.colliderect (Rect.set_top (rect moved) (Rect.bottom ob)) r = false)) ->
  exists s',
    update self tilemap movement = Ok s' /\
    up (collisions s') = true /\ down (collisions s') = false /\
    Rect.top (rect s') = Rect.bottom ob /\
    snd (velocity s') = inject_Z 0.
Proof.
  intros fm moved Hsx Hfm Hrects Hin Hhit Hothers.
  assert (Hts := physics_rects_around_tile_size _ _ _ Hrects).
  destruct (update_ok self tilemap movement Hts) as (rx & ry & _ & Hy & Hxp & Hup).
  fold fm in Hy, Hxp, Hup.
  rewrite Hsx in Hxp. injection Hxp as Hxp. rewrite <- Hxp in Hy, Hup.
  fold moved in Hy. rewrite Hrects in Hy. injection Hy as <-.
  set (sy := after_y sx fm rects) in *.
  destruct (fold_clamp (y_body fm)
              (fun er r => Rect.set_top er (Rect.bottom r))
              (fun s er => set_pos_y (set_collisions s (mark_up (collisions s)))
                                     (inject_Z (Rect.y er)))
              ob (rect moved)
              (fun s => up (collisions s) = true /\
                        snd (pos s) = inject_Z (Rect.bottom ob))
              (y_body_miss fm)
              (fun er r s => y_body_hit_up fm er r s Hfm)
              eq_refl (fun s => conj eq_refl eq_refl) Hhit
              rects (rect moved) moved Hothers (or_introl (conj eq_refl Hin)))
    as (_ & Hu & Hpos).
  change (snd (fold_left (y_body fm) rects (rect moved, moved)))
    with sy in Hu, Hpos.
  destruct (Qltb_negative _ Hfm) as [_ Hp].
  assert (Hd := y_fold_down_unchanged fm rects (rect moved) moved Hp).
  change (snd (fold_left (y_body fm) rects (rect moved, moved))) with sy in Hd.
  cbn [moved move_y set_pos_y collisions] in Hd.
  assert (Fd : down (collisions sx) = false).
  { rewrite Hxp. destruct (after_x_frame (reset self) fm rx) as (_ & _ & _ & _ & F).
    rewrite F. reflexivity. }
  exists (finish sy movement). split; [exact Hup |].
  rewrite finish_collisions, finish_velocity_y, Hu, orb_true_r.
  split; [reflexivity |]. split; [rewrite Hd; exact Fd |].
  split; [| reflexivity].
  unfold Rect.top, rect. cbn [Rect.y].
  rewrite finish_pos, Hpos. apply to_int_inject_Z.
Qed.

Lemma ceiling_stops_rise_witness :
  (snd (frame_movement (falling_at 0 33 (-3)) (0 # 1, 0 # 1)) < 0)%Q /\
  exists s',
    update (falling_at 0 33 (-3)) floor_store (0 # 1, 0 # 1)%Q = Ok s' /\
    Rect.top (rect s') = 32 /\ up (collisions s') = true.
Proof.
  split; [reflexivity |].
  destruct (ceiling_stops_rise (falling_at 0 33 (-3)) (falling_at 0 33 (-3))
              floor_store (0 # 1, 0 # 1)%Q [Rect.mk 0 16 16 16]
              (Rect.mk 0 16 16 16))
    as (s' & U & Hu & _ & T & _).
  - vm_compute. reflexivity.
  - reflexivity.
  - vm_compute. reflexivity.
  - left. reflexivity.
  - reflexivity.
  - intros r [<- | []]. left. reflexivity.
  - exists s'. split; [exact U |]. split; [exact T | exact Hu].
Defined.

End Directions.

Section FreeFall.
Import PhysicsEntity.

Lemma py_min_l (a b : Q) : (a <= b)%Q -> py_min a b = a.
Proof. intros H. unfold py_min. rewrite (proj2 (Qltb_ge b a) H). reflexivity. Qed.

Lemma physics_rects_open_space (ts : Z) (p : Q * Q) :
  ts <> 0 -> Tilemap.physics_rects_around (Tilemap.init ts) p = Ok [].
Proof.
  intros H. rewrite physics_rects_around_eq by exact H. reflexivity.
Qed.

(** In a store without tiles one update moves the entity by its frame
    movement and applies gravity. *)
Lemma update_open_space (self : t) (ts : Z) (movement : Q * Q) :
  ts <> 0 ->
  update self (Tilemap.init ts) movement =
  Ok (finish (move_y (move_x (reset self) (frame_movement self movement))
                     (frame_movement self movement)) movement).
Proof.
  intros H. unfold update. cbn zeta. fold (reset self).
  change (frame_movement (reset self) movement)
    with (frame_movement self movement).
  rewrite (x_pass_eq _ _ _ [] (physics_rects_open_space ts _ H)). cbn [bind].
  rewrite (y_pass_eq _ _ _ [] (physics_rects_open_space ts _ H)). reflexivity.
Qed.

Lemma gravity_bounds (vy : Q) :
  let vy' := py_min (inject_Z 5) (vy + (1 # 10))%Q in
  (vy' <= inject_Z 5)%Q /\
  ((vy <= inject_Z 5)%Q -> (vy <= vy')%Q) /\
  ((inject_Z 5 <= vy)%Q -> vy' = inject_Z 5).
Proof.
  cbn zeta. split; [apply py_min_le_l |]. split.
  - intros H. unfold py_min.
    destruct (Qltb (vy + (1 # 10)) (inject_Z 5)); [lra | exact H].
  - intros H. apply py_min_l. lra.
Qed.

(** X20: free fall has a terminal speed.  In a store without tiles, however
    many updates run in a row, no collision flag is set and the vertical
    velocity never exceeds 5; when it started at 5 or below it never drops
    below the velocity it started with, and when it started at 5 or above
    it is 5. *)
Theorem free_fall_speed (n : nat) (self : t) (ts : Z) (movement : Q * Q) :
  ts <> 0 ->
  let vy := snd (velocity self) in
  exists s',
    frames (S n) self (Tilemap.init ts) movement = Ok s' /\
    collisions s' = no_collisions /\
    (snd (velocity s') <= inject_Z 5)%Q /\
    ((vy <= inject_Z 5)%Q -> (vy <= snd (velocity s'))%Q) /\
    ((inject_Z 5 <= vy)%Q -> (snd (velocity s') == inject_Z 5)%Q).
Proof.
  intros Hts. revert self. induction n as [| n IH]; intros self vy.
  - cbn [frames]. rewrite update_open_space by exact Hts. cbn [bind].
    eexists. split; [reflexivity |].
    rewrite finish_velocity_y, finish_collisions.
    cbn [move_y move_x reset set_pos_y set_pos_x set_collisions collisions
         velocity no_collisions down up orb].
    fold vy. destruct (gravity_bounds vy) as (A & B & C).
    split; [reflexivity |]. split; [exact A |]. split; [exact B |].
    intros H. rewrite (C H). reflexivity.
  - change (frames (S (S n)) self (Tilemap.init ts) movement)
      with (s1 <- update self (Tilemap.init ts) movement ;;
            frames (S n) s1 (Tilemap.init ts) movement).
    rewrite update_open_space by exact Hts. cbn [bind].
    set (s1 := finish _ movement).
    destruct (IH s1) as (s' & R & F & A & B & C).
    exists s'. split; [exact R |]. split; [exact F |]. split; [exact A |].
    assert (V1 : snd (velocity s1) = py_min (inject_Z 5) (vy + (1 # 10))%Q).
    { unfold s1. rewrite finish_velocity_y. reflexivity. }
    rewrite V1 in B, C. destruct (gravity_bounds vy) as (G1 & G2 & G3).
    split.
    + intros H. apply Qle_trans with (py_min (inject_Z 5) (vy + (1 # 10))%Q);
        [apply G2, H | apply B, G1].
    + intros H. apply C. rewrite (G3 H). apply Qle_refl.
Qed.

Lemma free_fall_speed_witness :
  16 <> 0 /\
  exists s',
    frames 3 (falling_at 0 0 (49 # 10)) (Tilemap.init 16) (0 # 1, 0 # 1)%Q
      = Ok s' /\
    (49 # 10 <= snd (velocity s'))%Q /\ (snd (velocity s') <= inject_Z 5)%Q.
Proof.
  assert (H : 16 <> 0) by lia. split; [exact H |].
  destruct (free_fall_speed 2 (falling_at 0 0 (49 # 10)) 16 (0 # 1, 0 # 1)%Q H)
    as (s' & R & _ & A & B & _).
  exists s'. split; [exact R |]. split; [apply B; discriminate | exact A].
Defined.

End FreeFall.

(** ** Animations and particles *)

Lemma to_int_div (a b : Z) :
  0 < b -> to_int (inject_Z a / inject_Z b)%Q = Z.quot a b.
Proof.
  intros H. destruct b as [| p | p]; try lia.
  unfold to_int, Qdiv, Qinv, Qmult, inject_Z. cbn [Qnum Qden].
  rewrite Z.mul_1_r. reflexivity.
Qed.

Lemma subscript_in_range {A : Type} (l : list A) (i : Z) :
  0 <= i < Z.of_nat (length l) -> exists a, subscript l i = Some a.
Proof.
  intros H. unfold subscript.
  destruct (Z.leb_spec 0 i); [| lia].
  destruct (Z.ltb_spec i (Z.of_nat (length l))); [| lia]. cbn [andb].
  destruct (nth_error l (Z.to_nat i)) eqn:E; [eexists; reflexivity |].
  apply nth_error_None in E. lia.
Qed.

Section AnimationFacts.
Context {A : Type}.
Implicit Types self : Animation.t A.

Lemma update_keeps_shape self self' :
  Animation.update self = Ok self' ->
  Animation.images self' = Animation.images self /\
  Animation.img_duration self' = Animation.img_duration self /\
  Animation.loop self' = Animation.loop self /\
  Animation.total self' = Animation.total self.
Proof.
  unfold Animation.update. destruct (Animation.loop self) eqn:L.
  - destruct (Animation.total self =? 0); [discriminate |].
    intros [= <-]. cbn. rewrite L. auto.
  - cbn zeta.
    destruct (_ <=? _); intros [= <-]; cbn; rewrite L; auto.
Qed.

Lemma update_in_range self :
  Animation.in_range self ->
  exists self', Animation.update self = Ok self' /\ Animation.in_range self'.
Proof.
  intros (D & F). unfold Animation.update.
  destruct (Animation.loop self) eqn:L.
  - destruct (Z.eqb_spec (Animation.total self) 0) as [E | N]; [lia |].
    eexists. split; [reflexivity |]. split; [exact D |].
    cbn [Animation.frame Animation.set_frame].
    change (Animation.total (Animation.set_frame self _))
      with (Animation.total self).
    apply Z.mod_pos_bound. lia.
  - cbn zeta.
    assert (R : Animation.in_range
                  (Animation.set_frame self
                     (Z.min (Animation.frame self + 1) (Animation.total self - 1)))).
    { split; [exact D |]. cbn [Animation.frame Animation.set_frame].
      change (Animation.total (Animation.set_frame self _))
        with (Animation.total self). lia. }
    destruct (_ <=? _); eexists; (split; [reflexivity |]); exact R.
Qed.

Lemma img_in_range self :
  Animation.in_range self -> exists im, Animation.img self = Ok (Some im).
Proof.
  intros (D & F). unfold Animation.img.
  destruct (Z.eqb_spec (Animation.img_duration self) 0) as [E | _]; [lia |].
  rewrite to_int_div by exact D.
  destruct (subscript_in_range (Animation.images self)
              (Z.quot (Animation.frame self) (Animation.img_duration self)))
    as [im E].
  - unfold Animation.total in F. split.
    + apply Z.quot_pos; lia.
    + apply Z.quot_lt_upper_bound; lia.
  - exists im. rewrite E. reflexivity.
Qed.

(** X21: an animation with a positive frame duration whose frame counter
    indexes one of its images stays that way through any number of
    updates, looping or not: no update raises, and [img] always finds an
    image. *)
Theorem animation_always_has_image (n : nat) self :
  Animation.in_range self ->
  exists self' im,
    Animation.updates n self = Ok self' /\
    Animation.in_range self' /\
    Animation.img self' = Ok (Some im).
Proof.
  revert self. induction n as [| n IH]; intros self R; cbn [Animation.updates].
  - destruct (img_in_range self R) as [im E]. exists self, im. auto.
  - destruct (update_in_range self R) as (s1 & U & R1). rewrite U. cbn [bind].
    apply IH, R1.
Qed.

(** X22: a looping animation counts frames modulo its length: after [n]
    updates the frame counter is the old one plus [n], modulo
    [img_duration * len(images)], and [done] is never set. *)
Theorem looping_animation_wraps (n : nat) self :
  Animation.loop self = true -> Animation.total self <> 0 ->
  exists self',
    Animation.updates n self = Ok self' /\
    (n <> O ->
     Animation.frame self' =
       (Animation.frame self + Z.of_nat n) mod Animation.total self) /\
    Animation.done self' = Animation.done self.
Proof.
  revert self. induction n as [| n IH]; intros self L T; cbn [Animation.updates].
  - exists self. split; [reflexivity |]. split; [congruence | reflexivity].
  - unfold Animation.update at 1. rewrite L.
    destruct (Z.eqb_spec (Animation.total self) 0) as [E | _]; [contradiction |].
    cbn [bind].
    set (s1 := Animation.set_frame self _).
    destruct (IH s1) as (s' & U & F & D); [exact L | exact T |].
    exists s'. split; [exact U |]. split; [| exact D].
    intros _. destruct n as [| n'].
    + cbn [Animation.updates] in U. injection U as <-. reflexivity.
    + rewrite F by discriminate.
      change (Animation.total s1) with (Animation.total self).
      unfold s1. cbn [Animation.frame Animation.set_frame].
      rewrite Zplus_mod_idemp_l. f_equal. lia.
Qed.

Lemma one_shot_updates (n : nat) self :
  Animation.loop self = false ->
  exists self',
    Animation.updates (S n) self = Ok self' /\
    Animation.frame self' =
      Z.min (Animation.frame self + Z.of_nat (S n)) (Animation.total self - 1) /\
    Animation.done self' =
      (Animation.done self ||
       (Animation.total self - 1 <=? Animation.frame self + Z.of_nat (S n))).
Proof.
  revert self. induction n as [| n IH]; intros self L.
  - cbn [Animation.updates]. unfold Animation.update. rewrite L. cbn zeta.
    change (Animation.total (Animation.set_frame self _))
      with (Animation.total self).
    cbn [Animation.frame Animation.set_frame].
    change (Z.of_nat 1) with 1.
    destruct (Z.leb_spec (Animation.total self - 1)
                (Z.min (Animation.frame self + 1) (Animation.total self - 1)))
      as [H | H]; cbn [bind]; eexists; (split; [reflexivity |]);
      cbn [Animation.frame Animation.done Animation.set_done Animation.set_frame].
    + split; [reflexivity |].
      destruct (Z.leb_spec (Animation.total self - 1) (Animation.frame self + 1));
        [rewrite orb_true_r; reflexivity | lia].
    + split; [reflexivity |].
      destruct (Z.leb_spec (Animation.total self - 1) (Animation.frame self + 1));
        [lia | rewrite orb_false_r; reflexivity].
  - change (Animation.updates (S (S n)) self)
      with (s1 <- Animation.update self ;; Animation.updates (S n) s1).
    unfold Animation.update at 1. rewrite L. cbn zeta.
    change (Animation.total (Animation.set_frame self _))
      with (Animation.total self).
    cbn [Animation.frame Animation.set_frame].
    set (f1 := Z.min (Animation.frame self + 1) (Animation.total self - 1)).
    destruct (Z.leb_spec (Animation.total self - 1) f1) as [H | H]; cbn [bind].
    + destruct (IH (Animation.set_done (Animation.set_frame self f1) true) L)
        as (s' & U & F & D).
      exists s'. split; [exact U |].
      change (Animation.total (Animation.set_done _ _))
        with (Animation.total self) in F, D.
      cbn [Animation.frame Animation.done Animation.set_done Animation.set_frame]
        in F, D.
      rewrite F, D. split; [lia |].
      destruct (Z.leb_spec (Animation.total self - 1)
                  (Animation.frame self + Z.of_nat (S (S n)))); [| lia].
      rewrite orb_true_r. reflexivity.
    + destruct (IH (Animation.set_frame self f1) L) as (s' & U & F & D).
      exists s'. split; [exact U |].
      change (Animation.total (Animation.set_frame _ _))
        with (Animation.total self) in F, D.
      cbn [Animation.frame Animation.done Animation.set_frame] in F, D.
      rewrite F, D. split; [lia |]. f_equal.
      destruct (Z.leb_spec (Animation.total self - 1) (f1 + Z.of_nat (S n)));
        destruct (Z.leb_spec (Animation.total self - 1)
                    (Animation.frame self + Z.of_nat (S (S n))));
        try reflexivity; lia.
Qed.

(** X23: an animation that does not loop runs to its last frame and stays
    there: after [n] updates the frame counter is the smaller of the old
    one plus [n] and the last frame, and [done] is set from the first
    update on that reaches the last frame. *)
Theorem one_shot_animation_finishes (n : nat) self :
  Animation.loop self = false ->
  exists self',
    Animation.updates (S n) self = Ok self' /\
    Animation.frame self' =
      Z.min (Animation.frame self + Z.of_nat (S n)) (Animation.total self - 1) /\
    Animation.done self' =
      (Animation.done self ||
       (Animation.total self - 1 <=? Animation.frame self + Z.of_nat (S n))).
Proof. exact (one_shot_updates n self). Qed.

End AnimationFacts.

Lemma animation_always_has_image_witness :
  Animation.in_range idle_animation /\
  exists self' im,
    Animation.updates 30 idle_animation = Ok self' /\
    Animation.img self' = Ok (Some im).
Proof.
  assert (R : Animation.in_range idle_animation) by (cbv; repeat split; congruence).
  split; [exact R |].
  destruct (animation_always_has_image 30 idle_animation R)
    as (self' & im & U & _ & I).
  exists self', im. split; [exact U | exact I].
Defined.

Lemma looping_animation_wraps_witness :
  Animation.loop idle_animation = true /\
  Animation.total idle_animation <> 0 /\
  exists self',
    Animation.updates 24 idle_animation = Ok self' /\
    Animation.frame self' = 0.
Proof.
  assert (T : Animation.total idle_animation <> 0) by (cbv; congruence).
  split; [reflexivity |]. split; [exact T |].
  destruct (looping_animation_wraps 24 idle_animation eq_refl T)
    as (self' & U & F & _).
  exists self'. split; [exact U |]. rewrite F by discriminate. reflexivity.
Defined.

Lemma one_shot_animation_finishes_witness :
  Animation.loop leaf_animation = false /\
  exists self',
    Animation.updates 59 leaf_animation = Ok self' /\
    Animation.frame self' = 59 /\ Animation.done self' = true.
Proof.
  split; [reflexivity |].
  destruct (one_shot_animation_finishes 58 leaf_animation eq_refl)
    as (self' & U & F & D).
  exists self'. split; [exact U |]. split; [rewrite F | rewrite D]; reflexivity.
Defined.

(** ** Particles *)

Section ParticleFacts.
Context {A : Type}.
Implicit Types (self : Particle.t A) (a : Animation.t A).

Lemma one_shot_update_ok a :
  Animation.loop a = false -> exists a', Animation.update a = Ok a'.
Proof.
  intros L. unfold Animation.update. rewrite L. cbn zeta.
  destruct (_ <=? _); eexists; reflexivity.
Qed.

Lemma animation_updates_S (n : nat) a :
  Animation.updates (S n) a =
  (a1 <- Animation.update a ;; Animation.updates n a1).
Proof. reflexivity. Qed.

Lemma animation_updates_last (n : nat) a :
  Animation.updates (S n) a =
  (a' <- Animation.updates n a ;; Animation.update a').
Proof.
  revert a. induction n as [| n IH]; intros a.
  - cbn [Animation.updates bind]. destruct (Animation.update a); reflexivity.
  - rewrite (animation_updates_S (S n)), (animation_updates_S n a).
    destruct (Animation.update a) as [a1 | e]; [| reflexivity].
    cbn [bind]. apply IH.
Qed.

Lemma animation_updates_loop (n : nat) a a' :
  Animation.updates n a = Ok a' -> Animation.loop a' = Animation.loop a.
Proof.
  revert a. induction n as [| n IH]; intros a; cbn [Animation.updates].
  - intros [= <-]. reflexivity.
  - destruct (Animation.update a) as [a1 | e] eqn:U; [| discriminate].
    cbn [bind]. intros H. rewrite (IH _ H).
    destruct (update_keeps_shape _ _ U) as (_ & _ & E & _). exact E.
Qed.

(** What [n] updates of a particle do, in terms of its animation. *)
Lemma particle_updates (n : nat) self :
  Animation.loop (Particle.animation self) = false ->
  exists kill self',
    Particle.updates n self = Ok (kill, self') /\
    Animation.updates n (Particle.animation self) = Ok (Particle.animation self') /\
    Particle.velocity self' = Particle.velocity self /\
    (fst (Particle.pos self') ==
       fst (Particle.pos self)
       + inject_Z (Z.of_nat n) * fst (Particle.velocity self))%Q /\
    (snd (Particle.pos self') ==
       snd (Particle.pos self)
       + inject_Z (Z.of_nat n) * snd (Particle.velocity self))%Q.
Proof.
  intros L. induction n as [| n IH].
  - exists false, self. cbn [Particle.updates Animation.updates Z.of_nat].
    repeat split; try reflexivity; ring.
  - destruct IH as (k & p & R & Ra & V & Px & Py).
    assert (Lp : Animation.loop (Particle.animation p) = false)
      by (rewrite (animation_updates_loop _ _ _ Ra); exact L).
    destruct (one_shot_update_ok _ Lp) as [a' U].
    eexists. eexists. split.
    { cbn [Particle.updates]. rewrite R. cbn [bind].
      unfold Particle.update. cbn zeta. rewrite U. reflexivity. }
    cbn [Particle.animation Particle.velocity Particle.pos fst snd].
    split; [rewrite animation_updates_last, Ra; exact U |].
    split; [exact V |].
    rewrite Px, Py, V, Nat2Z.inj_succ, <- Z.add_1_r, inject_Z_plus.
    split; ring.
Qed.

(** X24: a particle whose animation does not loop moves by its velocity at
    every update, and is reported dead one update late: update number
    [n + 2] returns whether the animation, after [n + 1] updates, had
    reached its last frame (or was done from the start). *)
Theorem particle_dies_after_animation (n : nat) self :
  let a := Particle.animation self in
  Animation.loop a = false ->
  exists self',
    Particle.updates (S (S n)) self =
      Ok (Animation.done a ||
          (Animation.total a - 1 <=? Animation.frame a + Z.of_nat (S n)),
          self') /\
    (fst (Particle.pos self') ==
       fst (Particle.pos self)
       + inject_Z (Z.of_nat (S (S n))) * fst (Particle.velocity self))%Q /\
    (snd (Particle.pos self') ==
       snd (Particle.pos self)
       + inject_Z (Z.of_nat (S (S n))) * snd (Particle.velocity self))%Q.
Proof.
  intros a L.
  destruct (particle_updates (S n) self L) as (k & p & R & Ra & V & Px & Py).
  fold a in Ra.
  destruct (one_shot_updates n a L) as (a1 & Ua & _ & D).
  rewrite Ua in Ra. injection Ra as ->.
  assert (Lp : Animation.loop (Particle.animation p) = false)
    by (rewrite (animation_updates_loop _ _ _ Ua); exact L).
  destruct (one_shot_update_ok _ Lp) as [a' U].
  eexists. split.
  { change (Particle.updates (S (S n)) self)
      with ('(_, s1) <- Particle.updates (S n) self ;; Particle.update s1).
    rewrite R. cbn [bind]. unfold Particle.update. cbn zeta.
    rewrite U, D. reflexivity. }
  cbn [Particle.pos fst snd].
  rewrite Px, Py, V, (Nat2Z.inj_succ (S n)), <- Z.add_1_r, inject_Z_plus.
  split; ring.
Qed.

End ParticleFacts.

Lemma particle_dies_after_animation_witness :
  Animation.loop (Particle.animation fresh_leaf) = false /\
  exists self', Particle.updates 3 fresh_leaf = Ok (true, self').
Proof.
  split; [reflexivity |].
  destruct (particle_dies_after_animation 1 fresh_leaf eq_refl) as (self' & R & _).
  exists self'. exact R.
Defined.

(** ** The player *)

Section PlayerFacts.

Lemma finish_velocity_x (s : PhysicsEntity.t) (movement : Q * Q) :
  fst (PhysicsEntity.velocity (PhysicsEntity.finish s movement)) =
  fst (PhysicsEntity.velocity s).
Proof.
  unfold PhysicsEntity.finish. cbn zeta.
  destruct (Qltb 0 (fst movement)), (Qltb (fst movement) 0); cbn;
    destruct (PhysicsEntity.down (PhysicsEntity.collisions s)
              || PhysicsEntity.up (PhysicsEntity.collisions s)); reflexivity.
Qed.

(** The physics update always completes on a store of non-zero tile size,
    and never touches the horizontal velocity. *)
Lemma physics_update_total (e : PhysicsEntity.t) (tm : Tilemap.t)
    (movement : Q * Q) :
  Tilemap.tile_size tm <> 0 ->
  exists e',
    PhysicsEntity.update e tm movement = Ok e' /\
    fst (PhysicsEntity.velocity e') = fst (PhysicsEntity.velocity e).
Proof.
  intros H. destruct (update_ok e tm movement H) as (rx & ry & _ & _ & _ & U).
  eexists. split; [exact U |].
  rewrite finish_velocity_x, after_passes_velocity. reflexivity.
Qed.

Lemma py_min_le_r (a b : Q) : (py_min a b <= b)%Q.
Proof.
  unfold py_min. destruct (Qltb b a) eqn:E;
    [apply Qle_refl | apply Qltb_ge in E; exact E].
Qed.

Implicit Types self : Player.t.

(** Reads the fields of a player through the setters. *)
Ltac player_fields :=
  cbv beta iota in *;
  cbn [Player.dashing Player.air_time Player.jumps Player.wall_slide
       Player.action Player.entity Player.collisions Player.velocity
       Player.set_dashing Player.set_air_time Player.set_jumps
       Player.set_wall_slide Player.set_action Player.set_entity
       Player.set_velocity_x Player.set_velocity_y Player.set_flip
       PhysicsEntity.velocity PhysicsEntity.collisions PhysicsEntity.flip
       PhysicsEntity.set_velocity_y PhysicsEntity.set_flip fst snd] in *.

Lemma count_air_time_fields self dead ss :
  let self' := fst (Player.count_air_time self dead ss) in
  Player.entity self' = Player.entity self /\
  Player.dashing self' = Player.dashing self /\
  (PhysicsEntity.down (Player.collisions self) = true ->
   Player.air_time self' = 0 /\ Player.jumps self' = 2) /\
  (PhysicsEntity.down (Player.collisions self) = false ->
   Player.air_time self' = Player.air_time self + 1 /\
   Player.jumps self' = Player.jumps self) /\
  snd (Player.count_air_time self dead ss) =
    (if 300 <? Player.air_time self + 1
     then (dead + 1, if dead =? 0 then Z.max 16 ss else ss)
     else (dead, ss)).
Proof.
  unfold Player.count_air_time, Player.collisions. cbn zeta.
  cbn [Player.set_air_time Player.entity Player.air_time].
  destruct (PhysicsEntity.down (PhysicsEntity.collisions (Player.entity self)));
    cbn; repeat split; try reflexivity; discriminate.
Qed.

Lemma slide_fields self :
  let self' := Player.slide self in
  Player.dashing self' = Player.dashing self /\
  Player.air_time self' = Player.air_time self /\
  Player.jumps self' = Player.jumps self /\
  Player.collisions self' = Player.collisions self /\
  fst (Player.velocity self') = fst (Player.velocity self) /\
  Player.wall_slide self' =
    ((PhysicsEntity.right (Player.collisions self)
      || PhysicsEntity.left (Player.collisions self))
     && (4 <? Player.air_time self)) /\
  (Player.wall_slide self' = true ->
   (snd (Player.velocity self') <= 1 # 2)%Q /\
   PhysicsEntity.flip (Player.entity self') =
     negb (PhysicsEntity.right (Player.collisions self))).
Proof.
  unfold Player.slide, Player.collisions, Player.velocity,
    Player.set_velocity_y, Player.set_flip, Player.set_action,
    Player.set_wall_slide, Player.set_entity. cbn.
  destruct (PhysicsEntity.right (PhysicsEntity.collisions (Player.entity self)));
    destruct (PhysicsEntity.left (PhysicsEntity.collisions (Player.entity self)));
    destruct (4 <? Player.air_time self); cbn;
    repeat split; try reflexivity; try discriminate; apply py_min_le_r.
Qed.

Lemma choose_action_fields self movement :
  let self' := Player.choose_action self movement in
  Player.entity self' = Player.entity self /\
  Player.dashing self' = Player.dashing self /\
  Player.air_time self' = Player.air_time self /\
  Player.jumps self' = Player.jumps self /\
  Player.wall_slide self' = Player.wall_slide self.
Proof.
  unfold Player.choose_action.
  destruct (negb (Player.wall_slide self)), (4 <? Player.air_time self),
    (negb (Qeq_bool (fst movement) 0)); cbn; auto.
Qed.

Lemma count_dash_fields self :
  let self' := Player.count_dash self in
  let d := Player.dashing self in
  Player.dashing self' =
    (if 0 <? d then d - 1 else if d <? 0 then d + 1 else 0) /\
  Player.air_time self' = Player.air_time self /\
  Player.jumps self' = Player.jumps self /\
  Player.wall_slide self' = Player.wall_slide self /\
  Player.collisions self' = Player.collisions self /\
  snd (Player.velocity self') = snd (Player.velocity self) /\
  PhysicsEntity.flip (Player.entity self') = PhysicsEntity.flip (Player.entity self).
Proof.
  unfold Player.count_dash. cbn zeta. player_fields.
  repeat (match goal with
          | |- context [if ?a <? ?b then _ else _] =>
              destruct (Z.ltb_spec a b)
          | |- context [if ?c then _ else _] => destruct c
          end; player_fields);
    repeat split; try reflexivity; lia.
Qed.

Lemma friction_fields self :
  let self' := Player.friction self in
  Player.dashing self' = Player.dashing self /\
  Player.air_time self' = Player.air_time self /\
  Player.jumps self' = Player.jumps self /\
  Player.wall_slide self' = Player.wall_slide self /\
  Player.collisions self' = Player.collisions self /\
  snd (Player.velocity self') = snd (Player.velocity self) /\
  PhysicsEntity.flip (Player.entity self') = PhysicsEntity.flip (Player.entity self).
Proof.
  unfold Player.friction.
  destruct (Qltb 0 (fst (Player.velocity self))); cbn; repeat split; reflexivity.
Qed.

(** [update] as the composition of its parts. *)
Lemma player_update_total self dead ss (tm : Tilemap.t) (movement : Q * Q) :
  Tilemap.tile_size tm <> 0 ->
  exists e,
    PhysicsEntity.update (Player.entity self) tm movement = Ok e /\
    fst (PhysicsEntity.velocity e) = fst (Player.velocity self) /\
    Player.update self dead ss tm movement =
      Ok (Player.friction
            (Player.count_dash
               (Player.choose_action
                  (Player.slide
                     (fst (Player.count_air_time (Player.set_entity self e)
                             dead ss)))
                  movement)),
          snd (Player.count_air_time (Player.set_entity self e) dead ss)).
Proof.
  intros H.
  destruct (physics_update_total (Player.entity self) tm movement H)
    as (e & U & V).
  exists e. split; [exact U |]. split; [exact V |].
  unfold Player.update. rewrite U. cbn [bind].
  destruct (Player.count_air_time (Player.set_entity self e) dead ss).
  reflexivity.
Qed.

Lemma player_update_dashing self dead ss (tm : Tilemap.t) (movement : Q * Q) :
  Tilemap.tile_size tm <> 0 ->
  exists self' flags,
    Player.update self dead ss tm movement = Ok (self', flags) /\
    Z.abs (Player.dashing self') = Z.max 0 (Z.abs (Player.dashing self) - 1).
Proof.
  intros H.
  destruct (player_update_total self dead ss tm movement H) as (e & _ & _ & U).
  eexists. eexists. split; [exact U |].
  destruct (friction_fields
              (Player.count_dash
                 (Player.choose_action
                    (Player.slide
                       (fst (Player.count_air_time (Player.set_entity self e)
                               dead ss))) movement))) as (D1 & _).
  destruct (count_dash_fields
              (Player.choose_action
                 (Player.slide
                    (fst (Player.count_air_time (Player.set_entity self e)
                            dead ss))) movement)) as (D2 & _).
  destruct (choose_action_fields
              (Player.slide
                 (fst (Player.count_air_time (Player.set_entity self e)
                         dead ss))) movement) as (_ & D3 & _).
  destruct (slide_fields
              (fst (Player.count_air_time (Player.set_entity self e) dead ss)))
    as (D4 & _).
  destruct (count_air_time_fields (Player.set_entity self e) dead ss)
    as (_ & D5 & _).
  cbn zeta in *. rewrite D1, D2, D3, D4, D5.
  cbn [Player.dashing Player.set_entity].
  destruct (Z.ltb_spec 0 (Player.dashing self));
    [| destruct (Z.ltb_spec (Player.dashing self) 0)]; lia.
Qed.

Lemma player_frames_dashing (movements : list (Q * Q)) self dead ss
    (tm : Tilemap.t) :
  Tilemap.tile_size tm <> 0 ->
  exists self' flags,
    Player.frames movements self dead ss tm = Ok (self', flags) /\
    Z.abs (Player.dashing self') =
      Z.max 0 (Z.abs (Player.dashing self) - Z.of_nat (length movements)).
Proof.
  intros H. revert self dead ss.
  induction movements as [| m ms IH]; intros self dead ss; cbn [Player.frames].
  - exists self, (dead, ss). split; [reflexivity |]. cbn [length]. lia.
  - destruct (player_update_dashing self dead ss tm m H)
      as (s1 & [d1 ss1] & U & D).
    rewrite U. cbn [bind].
    destruct (IH s1 d1 ss1) as (s' & flags & R & D').
    exists s', flags. split; [exact R |]. rewrite D', D. cbn [length]. lia.
Qed.

(** X25: the dash cools down over sixty updates.  After [dash()] on a player
    that is not dashing, the dash counter is 60 in absolute value, one less
    after every update until it is back at 0; as long as it is not, a
    further [dash()] does nothing. *)
Theorem dash_cooldown (movements : list (Q * Q)) self dead ss (tm : Tilemap.t) :
  Tilemap.tile_size tm <> 0 ->
  Player.dashing self = 0 ->
  exists self' flags,
    Player.frames movements (Player.dash self) dead ss tm = Ok (self', flags) /\
    Z.abs (Player.dashing self') = Z.max 0 (60 - Z.of_nat (length movements)) /\
    (Z.of_nat (length movements) < 60 -> Player.dash self' = self').
Proof.
  intros H D0.
  destruct (player_frames_dashing movements (Player.dash self) dead ss tm H)
    as (s' & flags & R & D).
  exists s', flags. split; [exact R |].
  assert (E : Z.abs (Player.dashing (Player.dash self)) = 60).
  { unfold Player.dash. rewrite D0. cbn [Z.eqb].
    destruct (PhysicsEntity.flip (Player.entity self)); reflexivity. }
  rewrite E in D. split; [exact D |].
  intros L. unfold Player.dash.
  destruct (Z.eqb_spec (Player.dashing s') 0) as [Z0 | _]; [| reflexivity].
  rewrite Z0 in D. cbn [Z.abs] in D. lia.
Qed.

Lemma jump_without_wall self :
  Player.wall_slide self = false ->
  (Player.jumps self <> 0 ->
   fst (Player.jump self) = true /\
   Player.jumps (snd (Player.jump self)) = Player.jumps self - 1 /\
   Player.wall_slide (snd (Player.jump self)) = false /\
   snd (Player.velocity (snd (Player.jump self))) = inject_Z (-3)) /\
  (Player.jumps self = 0 -> Player.jump self = (false, self)).
Proof.
  intros W. unfold Player.jump. rewrite W. split.
  - intros N. destruct (Z.eqb_spec (Player.jumps self) 0); [contradiction |].
    cbn. auto.
  - intros ->. reflexivity.
Qed.

(** X26: the jump budget.  Without a wall to slide on, of [k] calls of
    [jump()] in a row exactly as many take place as the player has jumps
    left (two after a landing); each leaves one jump less, and every jump
    that takes place sets the vertical velocity to -3: the branch with
    -2.5 is never reached. *)
Theorem jump_budget (k : nat) self :
  Player.wall_slide self = false ->
  0 <= Player.jumps self ->
  let done := fst (Player.jump_times k self) in
  let self' := snd (Player.jump_times k self) in
  Z.of_nat done = Z.min (Z.of_nat k) (Player.jumps self) /\
  Player.jumps self' = Player.jumps self - Z.of_nat done /\
  Player.wall_slide self' = false /\
  (done <> O -> snd (Player.velocity self') = inject_Z (-3)) /\
  (done = O -> self' = self).
Proof.
  revert self. induction k as [| k IH]; intros self W J; cbn zeta.
  - cbn. repeat split; try lia; try reflexivity; try exact W; try congruence.
  - cbn [Player.jump_times].
    destruct (jump_without_wall self W) as (Hyes & Hno).
    destruct (Z.eq_dec (Player.jumps self) 0) as [Z0 | N0].
    + rewrite (Hno Z0).
      destruct (IH self W J) as (I1 & I2 & I3 & I4 & I5).
      destruct (Player.jump_times k self) as [n s']. cbn [fst snd] in *.
      repeat split; try assumption; lia.
    + destruct (Hyes N0) as (Y1 & Y2 & Y3 & Y4).
      destruct (Player.jump self) as [ok s1]. cbn [fst snd] in *. subst ok.
      destruct (IH s1 Y3) as (I1 & I2 & I3 & I4 & I5); [lia |].
      destruct (Player.jump_times k s1) as [n s']. cbn [fst snd] in *.
      repeat split; try assumption; try lia.
      intros _. destruct n as [| n']; [rewrite (I5 eq_refl); exact Y4 |].
      apply I4. discriminate.
Qed.

(** X27: air time and wall slide, for an update of the player that
    completes.  The update leaves the air time at 0 and the jumps at 2 when
    the player stands on something, and otherwise adds one frame of air
    time and leaves the jumps alone; more than 300
    frames of air time add one to the death counter; and the player slides
    on a wall only with a horizontal collision after more than four frames
    in the air, falling at 0.5 at most, with [flip] cleared at a wall on
    its right and set at a wall on its left, so that the sprite is turned
    toward the wall. *)
Theorem player_air_time self dead ss (tm : Tilemap.t) (movement : Q * Q) :
  Tilemap.tile_size tm <> 0 ->
  exists self' dead' ss',
    Player.update self dead ss tm movement = Ok (self', (dead', ss')) /\
    (PhysicsEntity.down (Player.collisions self') = true ->
     Player.air_time self' = 0 /\ Player.jumps self' = 2 /\
     Player.wall_slide self' = false) /\
    (PhysicsEntity.down (Player.collisions self') = false ->
     Player.air_time self' = Player.air_time self + 1 /\
     Player.jumps self' = Player.jumps self) /\
    dead' = (if 300 <? Player.air_time self + 1 then dead + 1 else dead) /\
    (Player.wall_slide self' = true ->
     4 < Player.air_time self' /\
     (PhysicsEntity.right (Player.collisions self')
      || PhysicsEntity.left (Player.collisions self')) = true /\
     (snd (Player.velocity self') <= 1 # 2)%Q /\
     PhysicsEntity.flip (Player.entity self') =
       negb (PhysicsEntity.right (Player.collisions self'))).
Proof.
  intros H.
  destruct (player_update_total self dead ss tm movement H) as (e & _ & _ & U).
  set (p0 := Player.set_entity self e) in *.
  set (p1 := fst (Player.count_air_time p0 dead ss)) in *.
  set (p2 := Player.slide p1) in *.
  set (p3 := Player.choose_action p2 movement) in *.
  set (p4 := Player.count_dash p3) in *.
  destruct (count_air_time_fields p0 dead ss) as (A1 & _ & A3 & A4 & A5).
  destruct (slide_fields p1) as (_ & B2 & B3 & B4 & _ & B6 & B7).
  destruct (choose_action_fields p2 movement) as (C1 & _ & C3 & C4 & C5).
  destruct (count_dash_fields p3) as (_ & D2 & D3 & D4 & D5 & D6 & D7).
  destruct (friction_fields p4) as (_ & E2 & E3 & E4 & E5 & E6 & E7).
  cbn zeta in *. fold p1 in A1, A3, A4. fold p2 in B2, B3, B4, B6, B7.
  fold p3 in C1, C3, C4, C5. fold p4 in D2, D3, D4, D5, D6, D7.
  assert (Col : Player.collisions (Player.friction p4) = Player.collisions p0).
  { rewrite E5, D5. unfold Player.collisions at 1. rewrite C1.
    fold (Player.collisions p2). rewrite B4. unfold Player.collisions.
    rewrite A1. reflexivity. }
  assert (Air : Player.air_time (Player.friction p4) = Player.air_time p1)
    by congruence.
  assert (Jmp : Player.jumps (Player.friction p4) = Player.jumps p1)
    by congruence.
  assert (Wsl : Player.wall_slide (Player.friction p4) = Player.wall_slide p2)
    by congruence.
  assert (Col1 : Player.collisions p1 = Player.collisions p0)
    by (unfold Player.collisions; rewrite A1; reflexivity).
  destruct (snd (Player.count_air_time p0 dead ss)) as [dead' ss'] eqn:F.
  exists (Player.friction p4), dead', ss'. split; [exact U |].
  rewrite Col, Air, Jmp, Wsl.
  change (Player.air_time p0) with (Player.air_time self) in A4, A5.
  change (Player.jumps p0) with (Player.jumps self) in A4.
  split; [| split; [| split]].
  - intros Dn. destruct (A3 Dn) as (Z0 & J2).
    split; [exact Z0 |]. split; [exact J2 |].
    rewrite B6, Z0. apply andb_false_r.
  - intros Dn. exact (A4 Dn).
  - destruct (300 <? Player.air_time self + 1); congruence.
  - intros S. rewrite B6 in S. apply andb_prop in S as [S1 S2].
    apply Z.ltb_lt in S2. split; [exact S2 |].
    rewrite <- Col1. split; [exact S1 |].
    assert (S' : Player.wall_slide p2 = true)
      by (rewrite B6, S1; apply Z.ltb_lt in S2; rewrite S2; reflexivity).
    destruct (B7 S') as (V & Fl).
    unfold Player.velocity in E6, D6 |- *.
    split.
    + rewrite E6, D6, C1. exact V.
    + rewrite E7, D7, C1. exact Fl.
Qed.

Lemma friction_velocity self :
  fst (Player.velocity (Player.friction self)) =
  (if Qltb 0 (fst (Player.velocity self))
   then py_max (fst (Player.velocity self) - (1 # 10))%Q 0
   else py_min (fst (Player.velocity self) + (1 # 10))%Q 0).
Proof.
  unfold Player.friction.
  destruct (Qltb 0 (fst (Player.velocity self))); reflexivity.
Qed.

Lemma count_dash_velocity self :
  let self' := Player.count_dash self in
  (Z.abs (Player.dashing self') <= 50 ->
   fst (Player.velocity self') = fst (Player.velocity self)) /\
  (51 < Z.abs (Player.dashing self') ->
   fst (Player.velocity self') =
     (inject_Z (Z.abs (Player.dashing self')) / inject_Z (Player.dashing self')
      * inject_Z 8)%Q).
Proof.
  unfold Player.count_dash. cbn zeta. player_fields.
  repeat (match goal with
          | |- context [if ?a <? ?b then _ else _] =>
              destruct (Z.ltb_spec a b)
          | |- context [if ?a =? ?b then _ else _] =>
              destruct (Z.eqb_spec a b)
          end; player_fields);
    split; intros; try reflexivity; lia.
Qed.

Lemma decay_bounds (v : Q) :
  let v' := if Qltb 0 v then py_max (v - (1 # 10))%Q 0
            else py_min (v + (1 # 10))%Q 0 in
  ((0 < v)%Q -> (0 <= v')%Q /\ (v' <= v)%Q) /\
  ((v <= 0)%Q -> (v <= v')%Q /\ (v' <= 0)%Q).
Proof.
  cbn zeta. split; intros H.
  - rewrite (proj2 (Qltb_lt 0 v) H). unfold py_max.
    destruct (Qltb (v - (1 # 10)) 0) eqn:E.
    + split; [apply Qle_refl | apply Qlt_le_weak, H].
    + apply Qltb_ge in E. split; [exact E | lra].
  - rewrite (proj2 (Qltb_ge 0 v) H). unfold py_min.
    destruct (Qltb 0 (v + (1 # 10))) eqn:E.
    + split; [exact H | apply Qle_refl].
    + apply Qltb_ge in E. split; [lra | exact E].
Qed.

Lemma dash_speed (d : Z) :
  d <> 0 ->
  (inject_Z (Z.abs d) / inject_Z d * inject_Z 8 ==
   if 0 <? d then inject_Z 8 else - inject_Z 8)%Q.
Proof.
  intros N.
  assert (Nq : ~ (inject_Z d == 0)%Q).
  { intros E. apply N. unfold Qeq, inject_Z in E. cbn in E. lia. }
  destruct (Z.ltb_spec 0 d) as [P | P].
  - rewrite Z.abs_eq by lia. field. exact Nq.
  - rewrite Z.abs_neq by lia. rewrite inject_Z_opp. field. exact Nq.
Qed.

(** X28: the horizontal velocity of the player.  Outside a dash an update
    lets it decay toward zero without ever passing zero or growing; in the
    first frames of a dash (counter above 51 after the update) it is 8 less
    the decay of a tenth, in the direction of the dash. *)
Theorem player_horizontal_velocity self dead ss (tm : Tilemap.t)
    (movement : Q * Q) :
  Tilemap.tile_size tm <> 0 ->
  exists self' flags,
    Player.update self dead ss tm movement = Ok (self', flags) /\
    let vx := fst (Player.velocity self) in
    let vx' := fst (Player.velocity self') in
    (Z.abs (Player.dashing self') <= 50 ->
     ((0 < vx)%Q -> (0 <= vx')%Q /\ (vx' <= vx)%Q) /\
     ((vx <= 0)%Q -> (vx <= vx')%Q /\ (vx' <= 0)%Q)) /\
    (51 < Z.abs (Player.dashing self') ->
     (vx' == if 0 <? Player.dashing self' then 79 # 10 else - (79 # 10))%Q).
Proof.
  intros H.
  destruct (player_update_total self dead ss tm movement H) as (e & _ & V & U).
  set (p0 := Player.set_entity self e) in *.
  set (p1 := fst (Player.count_air_time p0 dead ss)) in *.
  set (p2 := Player.slide p1) in *.
  set (p3 := Player.choose_action p2 movement) in *.
  set (p4 := Player.count_dash p3) in *.
  eexists. eexists. split; [exact U |]. cbn zeta.
  destruct (count_air_time_fields p0 dead ss) as (A1 & _).
  destruct (slide_fields p1) as (_ & _ & _ & _ & B5 & _).
  destruct (choose_action_fields p2 movement) as (C1 & _).
  destruct (count_dash_velocity p3) as (D1 & D2).
  destruct (friction_fields p4) as (E1 & _).
  cbn zeta in *. fold p1 in A1. fold p2 in B5. fold p3 in C1.
  fold p4 in D1, D2.
  assert (V3 : fst (Player.velocity p3) = fst (Player.velocity self)).
  { unfold Player.velocity at 1. rewrite C1. fold (Player.velocity p2).
    rewrite B5. unfold Player.velocity at 1. rewrite A1. exact V. }
  rewrite E1, friction_velocity. split.
  - intros L. rewrite (D1 L), V3. apply decay_bounds.
  - intros L. rewrite (D2 L).
    assert (N : Player.dashing p4 <> 0) by lia.
    assert (S := dash_speed (Player.dashing p4) N).
    set (v := (inject_Z (Z.abs (Player.dashing p4)) / inject_Z (Player.dashing p4)
               * inject_Z 8)%Q) in *.
    destruct (0 <? Player.dashing p4).
    + assert (P : (0 < v)%Q) by (rewrite S; reflexivity).
      rewrite (proj2 (Qltb_lt 0 v) P). unfold py_max.
      assert (E : Qltb (v - (1 # 10)) 0 = false)
        by (apply Qltb_ge; rewrite S; discriminate).
      rewrite E, S. reflexivity.
    + assert (P : (v <= 0)%Q) by (rewrite S; discriminate).
      rewrite (proj2 (Qltb_ge 0 v) P). unfold py_min.
      assert (E : Qltb 0 (v + (1 # 10)) = false)
        by (apply Qltb_ge; rewrite S; discriminate).
      rewrite E, S. reflexivity.
Qed.

End PlayerFacts.


(** The player's properties at work: a player created at (50, 50) in an
    empty level of tile size 16. *)

Lemma dash_cooldown_witness :
  16 <> 0 /\
  Player.dashing (Player.init (50 # 1, 50 # 1)%Q (8, 15)) = 0 /\
  exists self' flags,
    Player.frames [(0 # 1, 0 # 1)%Q; (0 # 1, 0 # 1)%Q]
      (Player.dash (Player.init (50 # 1, 50 # 1)%Q (8, 15))) 0 0
      (Tilemap.init 16) = Ok (self', flags) /\
    Z.abs (Player.dashing self') = 58.
Proof.
  assert (H : 16 <> 0) by lia. split; [exact H |]. split; [reflexivity |].
  destruct (dash_cooldown [(0 # 1, 0 # 1)%Q; (0 # 1, 0 # 1)%Q]
              (Player.init (50 # 1, 50 # 1)%Q (8, 15)) 0 0 (Tilemap.init 16)
              H eq_refl) as (self' & flags & R & A & _).
  exists self', flags. split; [exact R | exact A].
Defined.

Lemma jump_budget_witness :
  Player.wall_slide (Player.init (50 # 1, 50 # 1)%Q (8, 15)) = false /\
  0 <= Player.jumps (Player.init (50 # 1, 50 # 1)%Q (8, 15)) /\
  Z.of_nat (fst (Player.jump_times 5 (Player.init (50 # 1, 50 # 1)%Q (8, 15))))
    = 2 /\
  Player.jumps (snd (Player.jump_times 5 (Player.init (50 # 1, 50 # 1)%Q (8, 15))))
    = 0.
Proof.
  assert (H : 0 <= Player.jumps (Player.init (50 # 1, 50 # 1)%Q (8, 15)))
    by (cbn; lia).
  split; [reflexivity |]. split; [exact H |].
  assert (J := jump_budget 5 (Player.init (50 # 1, 50 # 1)%Q (8, 15)) eq_refl H).
  cbn zeta in J. destruct J as (A & B & _).
  split; [exact A |]. rewrite B, A. reflexivity.
Defined.

Lemma player_air_time_witness :
  16 <> 0 /\
  exists self' dead' ss',
    Player.update (Player.init (50 # 1, 50 # 1)%Q (8, 15)) 0 0
      (Tilemap.init 16) (0 # 1, 0 # 1)%Q = Ok (self', (dead', ss')) /\
    dead' = 0.
Proof.
  assert (H : 16 <> 0) by lia. split; [exact H |].
  destruct (player_air_time (Player.init (50 # 1, 50 # 1)%Q (8, 15)) 0 0
              (Tilemap.init 16) (0 # 1, 0 # 1)%Q H)
    as (self' & dead' & ss' & R & _ & _ & D & _).
  exists self', dead', ss'. split; [exact R | exact D].
Defined.

Lemma player_horizontal_velocity_witness :
  16 <> 0 /\
  exists self' flags,
    Player.update (Player.init (50 # 1, 50 # 1)%Q (8, 15)) 0 0
      (Tilemap.init 16) (0 # 1, 0 # 1)%Q = Ok (self', flags) /\
    (Z.abs (Player.dashing self') <= 50 ->
     (fst (Player.velocity self') <= 0)%Q).
Proof.
  assert (H : 16 <> 0) by lia. split; [exact H |].
  destruct (player_horizontal_velocity
              (Player.init (50 # 1, 50 # 1)%Q (8, 15)) 0 0
              (Tilemap.init 16) (0 # 1, 0 # 1)%Q H)
    as (self' & flags & R & A & _).
  exists self', flags. split; [exact R |].
  intros L. destruct (A L) as (_ & B). apply B. discriminate.
Defined.


(** ** Loading a level *)

Lemma load_dump (other level : Tilemap.t) (path : string) (fs : filesystem) :
  fs path = Some (Tilemap.dump level) ->
  Tilemap.load other path fs = Ok level.
Proof.
  intros F. unfold Tilemap.load, read_json. rewrite F. cbn [bind].
  unfold Tilemap.dump.
  cbn [member PyDict.getitem PyDict.get String.eqb Ascii.eqb Bool.eqb bind as_int].
  rewrite grid_of_json_dump, offgrid_of_json_dump. cbn [bind].
  destruct level; reflexivity.
Qed.

Lemma fold_append_map {A B : Type} (f : A -> B) (l : list A) (acc : list B) :
  fold_left (fun acc a => acc ++ [f a]) l acc = acc ++ map f l.
Proof.
  revert acc. induction l as [| a l IH]; intros acc; cbn [fold_left map].
  - symmetry. apply app_nil_r.
  - rewrite IH, <- app_assoc. reflexivity.
Qed.

Lemma place_again (player : Player.t) (p q : Q * Q) :
  Game.place (Game.place player p) q = Game.place player q.
Proof. reflexivity. Qed.

(** The loop over the markers: the last player marker places the player,
    every other marker adds an enemy. *)
Lemma spawn_fold (spawners : list (Tile Q)) (player : Player.t)
    (enemies : list Enemy.t) :
  fold_left Game.spawn spawners (player, enemies) =
  (match rev (filter (fun s => variant s =? 0) spawners) with
   | [] => player
   | s :: _ => Game.place player (pos s)
   end,
   enemies ++ map (fun s => Enemy.init (pos s) (8, 15))
                  (filter (fun s => negb (variant s =? 0)) spawners)).
Proof.
  revert player enemies.
  induction spawners as [| a l IH]; intros player enemies.
  - cbn. rewrite app_nil_r. reflexivity.
  - cbn [fold_left Game.spawn filter].
    destruct (variant a =? 0); cbn [negb].
    + rewrite IH. cbn [rev]. f_equal.
      destruct (rev (filter (fun s => variant s =? 0) l)) as [| s r];
        reflexivity.
    + rewrite IH. cbn [map]. rewrite <- app_assoc. reflexivity.
Qed.

Lemma filter_scaled_copies (self : Tilemap.t) (g g' : Tile Z -> bool)
    (f : Z -> bool) (l : list (Tile Z)) :
  (forall tile, g tile && f (variant tile) = g' tile) ->
  filter (fun s => f (variant s)) (map (Tilemap.scaled_copy self) (filter g l)) =
  map (Tilemap.scaled_copy self) (filter g' l).
Proof.
  intros H. induction l as [| a l IH]; [reflexivity |].
  cbn [filter]. rewrite <- (H a).
  destruct (g a); cbn [andb map filter].
  - change (variant (Tilemap.scaled_copy self a)) with (variant a).
    destruct (f (variant a)); cbn [map]; rewrite IH; reflexivity.
  - exact IH.
Qed.

Lemma filter_twice {A : Type} (g g' f : A -> bool) (l : list A) :
  (forall a, g a && f a = g' a) ->
  filter f (filter g l) = filter g' l.
Proof.
  intros H. induction l as [| a l IH]; [reflexivity |].
  cbn [filter]. rewrite <- (H a).
  destruct (g a); cbn [andb filter]; [destruct (f a) |]; rewrite ?IH;
    reflexivity.
Qed.

(** Selecting among the matches by variant is matching a shorter list of
    pairs. *)
Lemma matching_tiles_filter (self : Tilemap.t) (ids ids' : list (string * Z))
    (f : Z -> bool) :
  (forall (C : Type) (tile : Tile C),
     Tilemap.id_match ids tile && f (variant tile) = Tilemap.id_match ids' tile) ->
  filter (fun s => f (variant s)) (matching_tiles self ids) =
  matching_tiles self ids'.
Proof.
  intros H. unfold matching_tiles. rewrite filter_app. f_equal.
  - apply filter_twice. intros a. apply H.
  - apply filter_scaled_copies. intros a. apply H.
Qed.

Lemma spawners_player {C : Type} (tile : Tile C) :
  Tilemap.id_match SPAWNERS tile && (variant tile =? 0) =
  Tilemap.id_match [("spawners"%string, 0)] tile.
Proof.
  unfold Tilemap.id_match, SPAWNERS. cbn [existsb fst snd].
  destruct (String.eqb (type tile) "spawners"); cbn [andb orb];
    [| reflexivity].
  destruct (Z.eqb_spec (variant tile) 0) as [E | E];
    destruct (Z.eqb_spec (variant tile) 1); cbn; try reflexivity; lia.
Qed.

Lemma spawners_enemy {C : Type} (tile : Tile C) :
  Tilemap.id_match SPAWNERS tile && negb (variant tile =? 0) =
  Tilemap.id_match [("spawners"%string, 1)] tile.
Proof.
  unfold Tilemap.id_match, SPAWNERS. cbn [existsb fst snd].
  destruct (String.eqb (type tile) "spawners"); cbn [andb orb];
    [| reflexivity].
  destruct (Z.eqb_spec (variant tile) 0) as [E | E];
    destruct (Z.eqb_spec (variant tile) 1); cbn; try reflexivity; lia.
Qed.

(** [load_level] in closed form, for a file that holds a saved store. *)
Lemma load_level_ok (self : Game.t) (map_id : Z) (fs : filesystem)
    (level : Tilemap.t) :
  fs (Game.level_path map_id) = Some (Tilemap.dump level) ->
  PyDict.wf (Tilemap.tilemap level) ->
  Game.load_level self map_id fs =
  Ok (Game.mk
        (match rev (matching_tiles level [("spawners"%string, 0)]) with
         | [] => Game.player self
         | s :: _ => Game.place (Game.player self) (pos s)
         end)
        (without_matches level SPAWNERS)
        (map Game.tree_rect (matching_tiles level TREES))
        (map (fun s => Enemy.init (pos s) (8, 15))
             (matching_tiles level [("spawners"%string, 1)]))
        (0 # 1, 0 # 1)%Q 0 (-30)).
Proof.
  intros F W. unfold Game.load_level.
  rewrite (load_dump _ level _ _ F). cbn [bind].
  rewrite (extract_keep_ok level _ W). cbn [bind].
  rewrite (extract_remove_ok level _ W). cbn [bind].
  rewrite spawn_fold, fold_append_map. cbn [app].
  fold SPAWNERS. fold TREES.
  rewrite (matching_tiles_filter level SPAWNERS [("spawners"%string, 0)]
             (fun v => v =? 0)) by (intros; apply spawners_player).
  rewrite (matching_tiles_filter level SPAWNERS [("spawners"%string, 1)]
             (fun v => negb (v =? 0))) by (intros; apply spawners_enemy).
  reflexivity.
Qed.

Lemma physics_rects_without (self : Tilemap.t) (ids : list (string * Z))
    (world_pos : Q * Q) :
  PyDict.wf (Tilemap.tilemap self) ->
  (forall ty, In ty (map fst ids) -> in_set ty PHYSICS_TILES = false) ->
  Tilemap.physics_rects_around (without_matches self ids) world_pos =
  Tilemap.physics_rects_around self world_pos.
Proof.
  intros W H.
  destruct (Z.eq_dec (Tilemap.tile_size self) 0) as [E | N].
  - unfold Tilemap.physics_rects_around, Tilemap.tiles_around, floordiv.
    cbn [without_matches Tilemap.tile_size]. rewrite E. reflexivity.
  - rewrite !physics_rects_around_eq by exact N.
    assert (G : grid_coordinate (without_matches self ids) world_pos =
                grid_coordinate self world_pos) by reflexivity.
    rewrite G. unfold neighbourhood_tiles. cbn zeta.
    rewrite !filter_app, !physics_present_without by assumption.
    reflexivity.
Qed.

(** X29: loading a level from a file that holds a saved store.  The load
    succeeds; afterwards the store holds no spawn marker any more, on the
    grid or off it, while every tree (large decor of variant 2), on the
    grid or off it, is still in the store, and the collision geometry is
    that of the saved store.  There is one enemy for each marker of variant
    1, in the order of the markers and at the marker's pixel position, with
    size 8x15, no velocity, no collision flag and not walking; and one leaf
    spawner for each tree.  The death counter is 0 and the transition
    -30. *)
Theorem load_level_consumes_markers (self : Game.t) (map_id : Z)
    (fs : filesystem) (level : Tilemap.t) :
  fs (Game.level_path map_id) = Some (Tilemap.dump level) ->
  PyDict.wf (Tilemap.tilemap level) ->
  exists game,
    Game.load_level self map_id fs = Ok game /\
    (forall k tile,
       PyDict.get k (Tilemap.tilemap (Game.tilemap game)) = Some tile ->
       Tilemap.id_match SPAWNERS tile = false) /\
    (forall tile,
       In tile (Tilemap.offgrid_tiles (Game.tilemap game)) ->
       Tilemap.id_match SPAWNERS tile = false) /\
    (forall k tile,
       Tilemap.id_match TREES tile = true ->
       PyDict.get k (Tilemap.tilemap level) = Some tile ->
       PyDict.get k (Tilemap.tilemap (Game.tilemap game)) = Some tile) /\
    (forall tile,
       Tilemap.id_match TREES tile = true ->
       In tile (Tilemap.offgrid_tiles level) ->
       In tile (Tilemap.offgrid_tiles (Game.tilemap game))) /\
    (forall world_pos,
       Tilemap.physics_rects_around (Game.tilemap game) world_pos =
       Tilemap.physics_rects_around level world_pos) /\
    map (fun e => PhysicsEntity.pos (Enemy.entity e)) (Game.enemies game) =
      map pos (matching_tiles level [("spawners"%string, 1)]) /\
    (forall e, In e (Game.enemies game) ->
       PhysicsEntity.size (Enemy.entity e) = (8, 15) /\
       PhysicsEntity.velocity (Enemy.entity e) = (0 # 1, 0 # 1)%Q /\
       PhysicsEntity.collisions (Enemy.entity e) = PhysicsEntity.no_collisions /\
       Enemy.walking e = 0) /\
    length (Game.leaf_spawners game) = length (matching_tiles level TREES) /\
    Game.leaf_spawners game =
      map Game.tree_rect (matching_tiles level TREES) /\
    Game.dead game = 0 /\ Game.transition game = -30.
Proof.
  intros F W. eexists. split; [apply (load_level_ok self map_id fs level F W) |].
  cbn [Game.tilemap Game.enemies Game.leaf_spawners Game.dead Game.transition].
  assert (T : forall (C : Type) (tile : Tile C),
             Tilemap.id_match TREES tile = true ->
             Tilemap.id_match SPAWNERS tile = false).
  { intros C tile M.
    unfold Tilemap.id_match, TREES in M. cbn [existsb fst snd] in M.
    rewrite orb_false_r in M. apply andb_prop in M as [M _].
    apply String.eqb_eq in M.
    unfold Tilemap.id_match, SPAWNERS. cbn [existsb fst snd]. rewrite M.
    reflexivity. }
  unfold without_matches at 1 2 3 4.
  cbn [Tilemap.tilemap Tilemap.offgrid_tiles].
  split; [| split; [| split; [| split; [| split; [| split; [| split]]]]]].
  - intros k tile G. rewrite get_filter in G by exact W. cbn [snd] in G.
    destruct (PyDict.get k (Tilemap.tilemap level)) as [t |]; [| discriminate].
    destruct (Tilemap.id_match SPAWNERS t) eqn:M; cbn [negb] in G;
      [discriminate | congruence].
  - intros tile I. apply filter_In in I as [_ I]. cbn beta in I.
    destruct (Tilemap.id_match SPAWNERS tile); [discriminate | reflexivity].
  - intros k tile M G. rewrite get_filter by exact W. rewrite G. cbn [snd].
    rewrite (T _ tile M). reflexivity.
  - intros tile M I. apply filter_In. split; [exact I |]. cbn beta.
    rewrite (T _ tile M). reflexivity.
  - intros world_pos. apply physics_rects_without; [exact W |].
    intros ty [<- | [<- | []]]; reflexivity.
  - rewrite map_map. reflexivity.
  - intros e I. apply in_map_iff in I as (s & <- & _). repeat split.
  - rewrite length_map. repeat split.
Qed.

(** X30: where loading a level puts the player.  When the saved store has
    markers of variant 0, the last of them, off-grid markers first and grid
    markers after them in the order of the store, gives the player its
    position (a grid marker in pixels) and its air time is 0; with no such
    marker the player stays as it was.  In both cases the velocity, the
    jumps left and the dash counter are carried over from before the
    load. *)
Theorem load_level_places_player (self : Game.t) (map_id : Z)
    (fs : filesystem) (level : Tilemap.t) :
  fs (Game.level_path map_id) = Some (Tilemap.dump level) ->
  PyDict.wf (Tilemap.tilemap level) ->
  exists game,
    Game.load_level self map_id fs = Ok game /\
    match rev (matching_tiles level [("spawners"%string, 0)]) with
    | [] => Game.player game = Game.player self
    | s :: _ =>
        PhysicsEntity.pos (Player.entity (Game.player game)) = pos s /\
        Player.air_time (Game.player game) = 0
    end /\
    Player.velocity (Game.player game) = Player.velocity (Game.player self) /\
    Player.jumps (Game.player game) = Player.jumps (Game.player self) /\
    Player.dashing (Game.player game) = Player.dashing (Game.player self).
Proof.
  intros F W. eexists. split; [apply (load_level_ok self map_id fs level F W) |].
  cbn [Game.player].
  destruct (rev (matching_tiles level [("spawners"%string, 0)])) as [| s r];
    repeat split.
Qed.

Lemma cross_store_wf : PyDict.wf (Tilemap.tilemap cross_store).
Proof. apply distinct_wf. reflexivity. Qed.

Lemma load_level_consumes_markers_witness :
  level_files (Game.level_path 0) = Some (Tilemap.dump cross_store) /\
  PyDict.wf (Tilemap.tilemap cross_store) /\
  exists game,
    Game.load_level new_game 0 level_files = Ok game /\
    map (fun e => PhysicsEntity.pos (Enemy.entity e)) (Game.enemies game) =
      [(112 # 1, 32 # 1)%Q] /\
    Game.leaf_spawners game = [Rect.mk 104 16 23 13].
Proof.
  assert (F : level_files (Game.level_path 0) = Some (Tilemap.dump cross_store))
    by reflexivity.
  split; [exact F |]. split; [exact cross_store_wf |].
  destruct (load_level_consumes_markers new_game 0 level_files cross_store F
              cross_store_wf)
    as (game & R & _ & _ & _ & _ & _ & E & _ & _ & L & _).
  exists game. split; [exact R |]. split; [exact E | exact L].
Defined.

Lemma load_level_places_player_witness :
  level_files (Game.level_path 0) = Some (Tilemap.dump cross_store) /\
  PyDict.wf (Tilemap.tilemap cross_store) /\
  exists game,
    Game.load_level new_game 0 level_files = Ok game /\
    PhysicsEntity.pos (Player.entity (Game.player game)) = (3 # 2, 40 # 1)%Q /\
    Player.jumps (Game.player game) = 2.
Proof.
  assert (F : level_files (Game.level_path 0) = Some (Tilemap.dump cross_store))
    by reflexivity.
  split; [exact F |]. split; [exact cross_store_wf |].
  destruct (load_level_places_player new_game 0 level_files cross_store F
              cross_store_wf)
    as (game & R & P & _ & J & _).
  exists game. split; [exact R |]. split; [exact (proj1 P) | exact J].
Defined.


(** The editor's start-up on a file system without [map.json]. *)
Lemma editor_session_roundtrip_witness :
  no_files "map.json"%string = None /\
  EditorSession.start no_files = Ok (EditorTilemap.init 16).
Proof.
  split; [reflexivity |].
  destruct (editor_session_roundtrip (EditorTilemap.init 16) no_files)
    as (_ & _ & _ & H).
  apply H. reflexivity.
Defined.
